(** * NaTGenPD.filter: cluster filtering, polynomial heat-rate fits and
    outlier rejection of fits

    A shallow embedding of [src/NaTGenPD/filter.py]: the classes [Filter],
    [PolyFit] and [FitFilter].

    Numbers.  A NumPy float64 is modelled by [fval]: an exact rational, one
    of the two infinities, or NaN.  Arithmetic is exact (no rounding, no
    overflow, no signed zero); the special values follow IEEE 754 as NumPy
    applies it (a non-zero number divided by zero is an infinity, 0/0 and
    inf - inf are NaN, a comparison with NaN is false).

    The result of an arithmetic operation is kept in lowest terms
    ([Qred]), so that equal results are equal terms.

    Exceptions.  Python code that can raise returns a [result].

    Libraries.  [np.polyfit] and the cluster filters of [NaTGenPD.cluster]
    are not part of the embedded file; they are parameters of the functions
    that call them.  Of [NaTGenPD.handler], the CEMS store enters as the
    list of units that it yields for a group, and the store of fit tables
    is an association list from group type to table.

    Tables.  A pandas DataFrame is a list of column labels and a list of
    rows; a row handed to [apply] is a list of label and cell.

    Effects.  The calls of [np.polyfit], the records of [logger.exception]
    and the files written by [to_csv] and [to_json] are a trace of events
    next to the result.

    The file has three parts: the program, the vocabulary of the
    properties with the example data, and the properties. *)

From Stdlib Require Import Reals Lra Psatz.
From Stdlib Require Import String List Bool ZArith QArith Qreals Lia.
From Stdlib Require Import DecimalString Sorted Permutation OrderedTypeEx.
Import ListNotations.

Local Close Scope R_scope.
Local Close Scope Q_scope.
Local Open Scope string_scope.
Local Open Scope list_scope.
Local Open Scope Z_scope.

(* ================================================================== *)
(** ** Python results *)

Inductive exn : Type :=
| IndexError
| ValueError
| TypeError
| KeyError (key : string)
| AttributeError
| LinAlgError.

Inductive result (A : Type) : Type :=
| Ok (a : A)
| Raise (e : exn).

Arguments Ok {A} a.
Arguments Raise {A} e.

Definition bind {A B : Type} (r : result A) (k : A -> result B) : result B :=
  match r with
  | Ok a => k a
  | Raise e => Raise e
  end.

Notation "x <- r ;; k" := (bind r (fun x => k))
  (at level 61, r at next level, right associativity).

Fixpoint mapM {A B : Type} (f : A -> result B) (l : list A) : result (list B) :=
  match l with
  | [] => Ok []
  | a :: t => b <- f a ;; bs <- mapM f t ;; Ok (b :: bs)
  end.

(* ================================================================== *)
(** ** Floats *)

Inductive fval : Type :=
| Fin (q : Q)
| PInf
| NInf
| NaN.

Definition Qltb (a b : Q) : bool := negb (Qle_bool b a).

Definition fneg (x : fval) : fval :=
  match x with
  | Fin q => Fin (- q)
  | PInf => NInf
  | NInf => PInf
  | NaN => NaN
  end.

Definition fadd (x y : fval) : fval :=
  match x, y with
  | NaN, _ | _, NaN => NaN
  | Fin a, Fin b => Fin (Qred (a + b))
  | PInf, NInf | NInf, PInf => NaN
  | PInf, _ | _, PInf => PInf
  | NInf, _ | _, NInf => NInf
  end.

Definition fsub (x y : fval) : fval := fadd x (fneg y).

(** The infinity with the sign of [a] times the sign of [pos]; NaN for 0. *)
Definition inf_signed (a : Q) (pos : bool) : fval :=
  if Qeq_bool a 0 then NaN
  else if Bool.eqb (Qltb 0 a) pos then PInf else NInf.

Definition fmul (x y : fval) : fval :=
  match x, y with
  | NaN, _ | _, NaN => NaN
  | Fin a, Fin b => Fin (Qred (a * b))
  | Fin a, PInf | PInf, Fin a => inf_signed a true
  | Fin a, NInf | NInf, Fin a => inf_signed a false
  | PInf, PInf | NInf, NInf => PInf
  | PInf, NInf | NInf, PInf => NInf
  end.

(** [x / y] on float64 scalars: a division by zero is a warning, not an
    exception. *)
Definition fdiv (x y : fval) : fval :=
  match x, y with
  | NaN, _ | _, NaN => NaN
  | Fin a, Fin b =>
      if Qeq_bool b 0 then inf_signed a true else Fin (Qred (a / b))
  | Fin _, (PInf | NInf) => Fin 0
  | PInf, Fin b => if Qltb b 0 then NInf else PInf
  | NInf, Fin b => if Qltb b 0 then PInf else NInf
  | (PInf | NInf), (PInf | NInf) => NaN
  end.

(** [x < y] *)
Definition flt (x y : fval) : bool :=
  match x, y with
  | NaN, _ | _, NaN => false
  | Fin a, Fin b => Qltb a b
  | NInf, (Fin _ | PInf) => true
  | Fin _, PInf => true
  | _, _ => false
  end.

Definition fgt (x y : fval) : bool := flt y x.

Definition isnan (x : fval) : bool :=
  match x with NaN => true | _ => false end.

Definition of_Z (z : Z) : fval := Fin (inject_Z z).

(* ================================================================== *)
(** ** NumPy *)

(** The reduction behind [ndarray.min] and [ndarray.max]: NaN propagates. *)
Definition fmin2 (x y : fval) : fval :=
  match x, y with
  | NaN, _ | _, NaN => NaN
  | _, _ => if flt y x then y else x
  end.

Definition fmax2 (x y : fval) : fval :=
  match x, y with
  | NaN, _ | _, NaN => NaN
  | _, _ => if flt x y then y else x
  end.

Definition amin (x : fval) (t : list fval) : fval := fold_left fmin2 t x.
Definition amax (x : fval) (t : list fval) : fval := fold_left fmax2 t x.

(** [a.min()]: a zero-size array has no minimum. *)
Definition np_min (a : list fval) : result fval :=
  match a with
  | [] => Raise ValueError
  | x :: t => Ok (amin x t)
  end.

(** [a.sum()] *)
Definition np_sum (a : list fval) : fval := fold_left fadd a (Fin 0).

(** [np.linspace(start, stop, num)] with [endpoint=True]:
    [arange(0, num) * step + start] with [step = (stop - start) / (num - 1)],
    the last sample then set to [stop]. *)
Definition linspace (start stop : fval) (num : Z) : result (list fval) :=
  if num <? 0 then Raise ValueError
  else
    let delta := fsub stop start in
    let div := num - 1 in
    let factor := if 0 <? div then fdiv delta (of_Z div) else delta in
    let y := map (fun i => fadd (fmul (of_Z (Z.of_nat i)) factor) start)
                 (seq 0 (Z.to_nat num)) in
    Ok (if 1 <? num then removelast y ++ [stop] else y).

(** [np.trim_zeros(c, 'f')] *)
Fixpoint trim_zeros (c : list fval) : list fval :=
  match c with
  | Fin q :: t => if Qeq_bool q 0 then trim_zeros t else c
  | _ => c
  end.

(** The coefficients held by [np.poly1d(c)], highest power first. *)
Definition poly1d (c : list fval) : list fval :=
  match trim_zeros c with
  | [] => [Fin 0]
  | c' => c'
  end.

(** [np.polyval(p, x)]: Horner's scheme from [zeros_like(x)]. *)
Definition polyval (p : list fval) (x : fval) : fval :=
  fold_left (fun y pv => fadd (fmul y x) pv) p (Fin 0).

(** [np.poly1d(c)(xs)] *)
Definition poly_call (c : list fval) (xs : list fval) : list fval :=
  map (polyval (poly1d c)) xs.

(** [np.polyfit(x, y, deg, full=True)] returns
    [(coefficients, residuals, rank, singular_values, rcond)];
    [extract_fit] reads entries 0 and 2 only. *)
Record PolyfitFull : Type := mkFit {
  fit_coef : list fval;   (* fit[0], highest power first *)
  fit_rank : Z            (* fit[2], rank of the Vandermonde matrix *)
}.

Definition polyfit_fn : Type :=
  list fval -> list fval -> Z -> result PolyfitFull.

(* ================================================================== *)
(** ** Python strings and lists *)

Definition str_of_Z (z : Z) : string := NilZero.string_of_int (Z.to_int z).

(** [range(a, b)] *)
Definition py_range (a b : Z) : list Z :=
  map (fun i => a + Z.of_nat i) (seq 0 (Z.to_nat (b - a))).

(** [l[0] = v] *)
Definition set_first {A : Type} (l : list A) (v : A) : result (list A) :=
  match l with
  | [] => Raise IndexError
  | _ :: t => Ok (v :: t)
  end.

(** [l[-1] = v] *)
Definition set_last {A : Type} (l : list A) (v : A) : result (list A) :=
  match l with
  | [] => Raise IndexError
  | _ => Ok (removelast l ++ [v])
  end.

(* ================================================================== *)
(** ** pandas Series of floats *)

Definition FSeries : Type := list (string * fval).

(** [pd.Series(data, index=index)] for [data] None or a 1-d array. *)
Definition pd_Series (data : option (list fval)) (index : list string)
  : result FSeries :=
  match data with
  | None => Ok (map (fun k => (k, NaN)) index)
  | Some vs =>
      if Nat.eqb (length vs) (length index) then Ok (combine index vs)
      else Raise ValueError
  end.

(** [s[k] = v]: overwrites the entry labelled [k], appends it when new. *)
Fixpoint series_set (s : FSeries) (k : string) (v : fval) : FSeries :=
  match s with
  | [] => [(k, v)]
  | (k', v') :: t =>
      if String.eqb k' k then (k', v) :: t else (k', v') :: series_set t k v
  end.

Fixpoint series_get (s : FSeries) (k : string) : option fval :=
  match s with
  | [] => None
  | (k', v) :: t => if String.eqb k' k then Some v else series_get t k
  end.

(* ================================================================== *)
(** ** class PolyFit *)

Module PolyFit.

Definition META_COLS : list string :=
  ["latitude"; "longitude"; "state"; "EPA_region"; "NERC_region";
   "unit_type"; "fuel_type"; "group_type"].

(** What [extract_fit] does to the outside: the call of [np.polyfit] and
    the record written by [logger.exception]. *)
Inductive event : Type :=
| Call_polyfit (load heat_rate : list fval) (order : Z)
| Log_exception (msg : string) (e : exn).

(** The three locals set inside the [try] block; [None] is Python's None. *)
Record fit_locals : Type := mkLocals {
  fit_params : option (list fval);
  load_range : option (list fval);
  hr_range : option (list fval)
}.

Definition no_fit : fit_locals := mkLocals None None None.

(** The [try: ... except Exception: logger.exception('Cannot fit unit')]
    block.  An exception leaves the locals as they were when it was raised. *)
Definition try_fit (polyfit : polyfit_fn) (load heat_rate : list fval)
    (order points : Z) (load_min load_max : fval) : list event * fit_locals :=
  match polyfit load heat_rate order with
  | Raise e =>
      ([Call_polyfit load heat_rate order; Log_exception "Cannot fit unit" e],
       no_fit)
  | Ok fit =>
      if 1 <? fit_rank fit then
        match linspace load_min load_max points with
        | Raise e =>
            ([Call_polyfit load heat_rate order;
              Log_exception "Cannot fit unit" e],
             mkLocals (Some (fit_coef fit)) None None)
        | Ok lr =>
            ([Call_polyfit load heat_rate order],
             mkLocals (Some (fit_coef fit)) (Some lr)
                      (Some (poly_call (fit_coef fit) lr)))
        end
      else ([Call_polyfit load heat_rate order], no_fit)
  end.

(** The index of [unit_fit], the same five names at every order. *)
Definition coef_index : list string := ["a4"; "a3"; "a2"; "a1"; "a0"].

(** [['load_{:}'.format(i) for i in range(1, points + 1)]] with the first
    entry renamed to [load_min] and then the last one to [load_max]. *)
Definition load_labels (points : Z) : result (list string) :=
  let load_index :=
    map (fun i => "load_" ++ str_of_Z i)%string (py_range 1 (points + 1)) in
  load_index <- set_first load_index "load_min" ;;
  set_last load_index "load_max".

(** [['heat_rate({:})'.format(load_i) for load_i in load_index]] *)
Definition hr_labels (load_index : list string) : list string :=
  map (fun load_i => "heat_rate(" ++ load_i ++ ")")%string load_index.

(** The row assembled after the [try] block. *)
Definition fit_row (st : fit_locals) (load : list fval)
    (points : Z) (load_min load_max : fval) : result FSeries :=
  unit_fit <- pd_Series (fit_params st) coef_index ;;
  load_index <- load_labels points ;;
  unit_load <- pd_Series (load_range st) load_index ;;
  let unit_load := series_set unit_load "load_min" load_min in
  let unit_load := series_set unit_load "load_max" load_max in
  let unit_load := series_set unit_load "total_load" (np_sum load) in
  let unit_load :=
    series_set unit_load "min_gen_perc" (fdiv load_min load_max) in
  unit_hr <- pd_Series (hr_range st) (hr_labels load_index) ;;
  Ok (unit_fit ++ unit_load ++ unit_hr).

(** [extract_fit(load, heat_rate, order=4, points=5)]: the events, and the
    Series returned or the exception raised. *)
Definition extract_fit (polyfit : polyfit_fn) (load heat_rate : list fval)
    (order points : Z) : list event * result FSeries :=
  match load with
  | [] => ([], fit_row no_fit load points NaN NaN)
  | x :: t =>
      let load_min := amin x t in
      let load_max := amax x t in
      let '(evs, st) :=
        try_fit polyfit load heat_rate order points load_min load_max in
      (evs, fit_row st load points load_min load_max)
  end.

End PolyFit.

(* ------------------------------------------------------------------ *)
(** *** An exact least-squares fit, for the examples

    [polyfit_exact] solves the normal equations of the Vandermonde system by
    Gauss-Jordan elimination over the rationals and reports the number of
    pivots as the rank.  Where the matrix has full column rank the solution
    is the unique least-squares polynomial, which is what [np.polyfit]
    approximates in floating point; the examples use it on such inputs.
    The exceptions are NumPy's: [ValueError] for a negative degree,
    [TypeError] for an empty [x] or vectors of different length, and
    [LinAlgError] when an entry is not finite. *)

Definition Qrow : Type := list Q.

Fixpoint vander_row (x : Q) (deg : nat) : Qrow :=
  match deg with
  | O => [1%Q]
  | S d => Qred (x ^ (Z.of_nat deg))%Q :: vander_row x d
  end.

Definition dotQ (u v : Qrow) : Q :=
  Qred (fold_left Qplus (map (fun p => (fst p * snd p)%Q) (combine u v)) 0%Q).

Definition column (m : list Qrow) (j : nat) : Qrow :=
  map (fun r => nth j r 0%Q) m.

(** The augmented matrix [A^T A | A^T y]. *)
Definition normal_equations (a : list Qrow) (y : Qrow) (n : nat) : list Qrow :=
  map (fun j => map (fun k => dotQ (column a j) (column a k)) (seq 0 n)
                ++ [dotQ (column a j) y])
      (seq 0 n).

Definition scale_row (c : Q) (r : Qrow) : Qrow :=
  map (fun v => Qred (c * v)%Q) r.

Definition sub_row (r p : Qrow) (c : Q) : Qrow :=
  map (fun vp => Qred (fst vp - c * snd vp)%Q) (combine r p).

Definition eliminate (j : nat) (p : Qrow) (r : Qrow) : Qrow :=
  sub_row r p (nth j r 0%Q).

Fixpoint find_pivot (j : nat) (rows : list Qrow) : option (Qrow * list Qrow) :=
  match rows with
  | [] => None
  | r :: t =>
      if Qeq_bool (nth j r 0%Q) 0 then
        match find_pivot j t with
        | Some (p, rest) => Some (p, r :: rest)
        | None => None
        end
      else Some (r, t)
  end.

(** Columns [cols], left to right: [done] holds the pivot rows found so far
    with their pivot column, [todo] the rows without a pivot yet. *)
Fixpoint gauss_jordan (cols : list nat) (done : list (nat * Qrow))
    (todo : list Qrow) : list (nat * Qrow) :=
  match cols with
  | [] => done
  | j :: cols' =>
      match find_pivot j todo with
      | None => gauss_jordan cols' done todo
      | Some (p, rest) =>
          let p := scale_row (/ nth j p 0%Q) p in
          gauss_jordan cols'
            ((j, p) :: map (fun d => (fst d, eliminate j p (snd d))) done)
            (map (eliminate j p) rest)
      end
  end.

Definition solution (n : nat) (done : list (nat * Qrow)) : list fval :=
  map (fun j =>
         match find (fun d => Nat.eqb (fst d) j) done with
         | Some d => Fin (nth n (snd d) 0%Q)
         | None => Fin 0
         end)
      (seq 0 n).

Fixpoint finite_values (l : list fval) : option (list Q) :=
  match l with
  | [] => Some []
  | Fin q :: t =>
      match finite_values t with
      | Some qs => Some (q :: qs)
      | None => None
      end
  | _ :: _ => None
  end.

Definition polyfit_exact : polyfit_fn := fun x y deg =>
  if deg <? 0 then Raise ValueError
  else if Nat.eqb (length x) 0 then Raise TypeError
  else if negb (Nat.eqb (length x) (length y)) then Raise TypeError
  else
    match finite_values x, finite_values y with
    | Some xs, Some ys =>
        let n := S (Z.to_nat deg) in
        let a := map (fun v => vander_row v (Z.to_nat deg)) xs in
        let done := gauss_jordan (seq 0 n) [] (normal_equations a ys n) in
        Ok (mkFit (solution n done) (Z.of_nat (length done)))
    | _, _ => Raise LinAlgError
    end.

(* ================================================================== *)
(** ** pandas DataFrames *)

(** A cell holds a float or a string.  A missing value, NaN or None, is
    [CFloat NaN]: pandas stores a None written into a float column as NaN,
    and [isnull] holds of both. *)
Inductive cell : Type :=
| CFloat (f : fval)
| CStr (s : string).

Definition missing : cell := CFloat NaN.

Definition isnull (c : cell) : bool :=
  match c with
  | CFloat NaN => true
  | _ => false
  end.

Definition fval_eqb (x y : fval) : bool :=
  match x, y with
  | Fin a, Fin b => Qeq_bool a b
  | PInf, PInf | NInf, NInf | NaN, NaN => true
  | _, _ => false
  end.

(** Equality of index labels. *)
Definition cell_eqb (x y : cell) : bool :=
  match x, y with
  | CFloat a, CFloat b => fval_eqb a b
  | CStr a, CStr b => String.eqb a b
  | _, _ => false
  end.

(** A row handed to [DataFrame.apply(..., axis=1)]: column label and cell. *)
Definition Series : Type := list (string * cell).

(** A frame with the default RangeIndex.  Every row has one cell per
    column; column labels are unique in the frames of this program. *)
Record DataFrame : Type := mkDF {
  columns : list string;
  rows : list (list cell)
}.

(** A frame after [set_index]: every row carries its index label. *)
Record Indexed : Type := mkIdx {
  index_name : string;
  icolumns : list string;
  irows : list (cell * list cell)
}.

Fixpoint col_pos (name : string) (cols : list string) : option nat :=
  match cols with
  | [] => None
  | c :: t =>
      if String.eqb c name then Some O
      else match col_pos name t with
           | Some n => Some (S n)
           | None => None
           end
  end.

Fixpoint remove_nth {A : Type} (n : nat) (l : list A) : list A :=
  match n, l with
  | _, [] => []
  | O, _ :: t => t
  | S n', x :: t => x :: remove_nth n' t
  end.

(** [df[name]] *)
Definition get_column (df : DataFrame) (name : string) : result (list cell) :=
  match col_pos name (columns df) with
  | None => Raise (KeyError name)
  | Some p => Ok (map (fun r => nth p r missing) (rows df))
  end.

(** [df.set_index(name)] *)
Definition set_index (df : DataFrame) (name : string) : result Indexed :=
  match col_pos name (columns df) with
  | None => Raise (KeyError name)
  | Some p =>
      Ok (mkIdx name (remove_nth p (columns df))
                (map (fun r => (nth p r missing, remove_nth p r)) (rows df)))
  end.

(** [df.reset_index()]: the index comes back as the first column. *)
Definition reset_index (ix : Indexed) : DataFrame :=
  mkDF (index_name ix :: icolumns ix)
       (map (fun r => fst r :: snd r) (irows ix)).

(** [df.reset_index(drop=True)] *)
Definition reset_index_drop (ix : Indexed) : DataFrame :=
  mkDF (icolumns ix) (map snd (irows ix)).

Fixpoint replace_nth {A : Type} (n : nat) (v : A) (l : list A) : list A :=
  match n, l with
  | _, [] => []
  | O, _ :: t => v :: t
  | S n', x :: t => x :: replace_nth n' v t
  end.

(** [df[name] = values]: an existing column is overwritten, a new one is
    appended. *)
Definition assign_column (df : DataFrame) (name : string)
    (values : list cell) : DataFrame :=
  match col_pos name (columns df) with
  | Some p =>
      mkDF (columns df)
           (map (fun rv => replace_nth p (snd rv) (fst rv))
                (combine (rows df) values))
  | None =>
      mkDF (columns df ++ [name])
           (map (fun rv => fst rv ++ [snd rv]) (combine (rows df) values))
  end.

(** [df.apply(f, axis=1)]: the result keeps the index labels. *)
Definition apply_rows {A : Type} (f : Series -> result A) (ix : Indexed)
  : result (list (cell * A)) :=
  mapM (fun r => v <- f (combine (icolumns ix) (snd r)) ;; Ok (fst r, v))
       (irows ix).

(** [s.dropna()] on the Series returned by [apply]: None and NaN go. *)
Fixpoint dropna (s : list (cell * option fval)) : list (cell * fval) :=
  match s with
  | [] => []
  | (l, Some v) :: t => if isnan v then dropna t else (l, v) :: dropna t
  | (_, None) :: t => dropna t
  end.

(** [df.loc[labels, cols] = None] *)
Definition loc_set_none (ix : Indexed) (labels : list cell)
    (cols : list string) : Indexed :=
  mkIdx (index_name ix) (icolumns ix)
    (map (fun r =>
            if existsb (cell_eqb (fst r)) labels then
              (fst r,
               map (fun cv =>
                      if existsb (String.eqb (fst cv)) cols then missing
                      else snd cv)
                   (combine (icolumns ix) (snd r)))
            else r)
         (irows ix)).

(** [s[k]] on a row. *)
Fixpoint series_loc (s : Series) (k : string) : result cell :=
  match s with
  | [] => Raise (KeyError k)
  | (k', v) :: t => if String.eqb k' k then Ok v else series_loc t k
  end.

(** A cell used as a number. *)
Definition as_float (c : cell) : result fval :=
  match c with
  | CFloat f => Ok f
  | CStr _ => Raise TypeError
  end.

(** [s.split(sep)[0]] for a non-empty [sep]. *)
Fixpoint before_sep (sep s : string) : string :=
  match s with
  | EmptyString => EmptyString
  | String c t =>
      if prefix sep s then EmptyString else String c (before_sep sep t)
  end.

(** [sub in s] *)
Definition contains (sub s : string) : bool :=
  match index 0 sub s with
  | Some _ => true
  | None => false
  end.

(* ================================================================== *)
(** ** class Filter *)

Module Filter.

(** A row of the CEMS table of a unit; [cluster] is the label a cluster
    filter attaches. *)
Record cems_row : Type := mkRow {
  unit_id : string;
  time : Z;
  load : fval;
  heat_rate : fval;
  cluster : option Z
}.

Definition unit_df : Type := list cems_row.

(** [SingleCluster.filter] and [ClusterCC.filter]:
    [filter(unit_df, min_samples, threshold=threshold, **kwargs)]. *)
Definition cluster_filter : Type := unit_df -> Z -> Z -> result unit_df.

(** [self._years * 8760] *)
Definition total_points (years : Z) : Z := years * 8760.

(** [int(a / b)] on integers: the true quotient truncated towards zero. *)
Definition int_div (a b : Z) : Z := Z.quot a b.

Definition min_samples (years : Z) : Z := int_div (total_points years) 1000.
Definition threshold (years : Z) : Z := int_div (total_points years) 100.

(** [FILTERS.get(group_type.split(' (')[0], SingleCluster.filter)] *)
Definition select_filter (single cc : cluster_filter) (group_type : string)
  : cluster_filter :=
  let key := before_sep " (" group_type in
  if String.eqb key "Boiler" then single
  else if String.eqb key "CT" then single
  else if String.eqb key "CC" then cc
  else single.

(** Order of [sort_values(['unit_id', 'time'])]. *)
Definition row_leb (a b : cems_row) : bool :=
  match String.compare (unit_id a) (unit_id b) with
  | Lt => true
  | Eq => time a <=? time b
  | Gt => false
  end.

Fixpoint insert_row (r : cems_row) (l : list cems_row) : list cems_row :=
  match l with
  | [] => [r]
  | x :: t => if row_leb r x then r :: l else x :: insert_row r t
  end.

Definition sort_rows (l : list cems_row) : list cems_row :=
  fold_right insert_row [] l.

(** [filter_group]: [group] is what [f[group_type].unit_dfs] yields.  The
    process pool and the sequential loop collect the results in the order
    of submission, so both are one [mapM]. *)
Definition filter_group (single cc : cluster_filter) (years : Z)
    (group_type : string) (group : list (string * unit_df)) (parallel : bool)
  : result unit_df :=
  let min_samples := min_samples years in
  let threshold := threshold years in
  let filter := select_filter single cc group_type in
  group_df <- mapM (fun u => filter (snd u) min_samples threshold) group ;;
  Ok (sort_rows (concat group_df)).

End Filter.

(* ================================================================== *)
(** ** class FitFilter *)

Module FitFilter.

(** [_get_hr_min(unit, points=100)]; [None] is Python's None. *)
Definition _get_hr_min (unit : Series) (points : Z) : result (option fval) :=
  let fit_params :=
    map snd (List.filter (fun kv => prefix "a" (fst kv)) unit) in
  if negb (existsb isnull fit_params) then
    load_min <- series_loc unit "load_min" ;;
    load_max <- series_loc unit "load_max" ;;
    load_min <- as_float load_min ;;
    load_max <- as_float load_max ;;
    x <- linspace load_min load_max points ;;
    fit_params <- mapM as_float fit_params ;;
    hr_min <- np_min (poly_call fit_params x) ;;
    if flt hr_min (Fin (9 # 2)) then Ok None else Ok (Some hr_min)
  else Ok None.

(** [a.mean()] *)
Definition np_mean (a : list fval) : fval :=
  fdiv (np_sum a) (of_Z (Z.of_nat (length a))).

(** The square of [a.std()]: the mean of the squared deviations. *)
Definition np_var (a : list fval) : fval :=
  let m := np_mean a in
  np_mean (map (fun x => let d := fsub x m in fmul d d) a).

(** An entry of [thresh].  The standard deviation is a square root, so
    [c * stdev + mean] is kept as its three rational ingredients and
    compared exactly; a statistic that is not finite makes the entry NaN. *)
Inductive bound : Type :=
| Stat (c var mean : Q)     (* c * sqrt(var) + mean *)
| Hard (t : Q)
| BNaN.

Definition stat_bound (c : Q) (var mean : fval) : bound :=
  match var, mean with
  | Fin v, Fin m => Stat c v m
  | _, _ => BNaN
  end.

(** [d < c * sqrt(v)] for [0 <= v], decided on the squares. *)
Definition lt_sqrt (d c v : Q) : bool :=
  if Qle_bool 0 c then Qltb d 0 || Qltb (d * d) (c * c * v)
  else Qltb d 0 && Qltb (c * c * v) (d * d).

(** [x < b] *)
Definition below (x : fval) (b : bound) : bool :=
  match b with
  | BNaN => false
  | Hard t => flt x (Fin t)
  | Stat c v m =>
      match x with
      | Fin a => lt_sqrt (a - m) c v
      | NInf => true
      | _ => false
      end
  end.

(** [x > b] *)
Definition above (x : fval) (b : bound) : bool :=
  match b with
  | BNaN => false
  | Hard t => flt (Fin t) x
  | Stat c v m =>
      match x with
      | Fin a => lt_sqrt (m - a) (- c) v
      | PInf => true
      | _ => false
      end
  end.

(** [_min_hr_filter(min_hr, stdev_multiplier=2, threshold=(None, None))] *)
Definition _min_hr_filter (min_hr : list (cell * fval))
    (stdev_multiplier : Q) (threshold : option Q * option Q) : list cell :=
  let min_hr_values := map snd min_hr in
  let min_hr_values :=
    match fst threshold with
    | Some t0 => List.filter (fun v => fgt v (Fin t0)) min_hr_values
    | None => min_hr_values
    end in
  let min_hr_values :=
    match snd threshold with
    | Some t1 => List.filter (fun v => flt v (Fin t1)) min_hr_values
    | None => min_hr_values
    end in
  let mean := np_mean min_hr_values in
  let var := np_var min_hr_values in
  let thresh0 := stat_bound (- stdev_multiplier) var mean in
  let thresh1 := stat_bound stdev_multiplier var mean in
  let thresh0 :=
    match fst threshold with Some t0 => Hard t0 | None => thresh0 end in
  let thresh1 :=
    match snd threshold with Some t1 => Hard t1 | None => thresh1 end in
  map fst (List.filter (fun lv => below (snd lv) thresh0 || above (snd lv) thresh1)
                  min_hr).

(** The keyword arguments that [FitFilter.filter] passes on. *)
Record kwargs : Type := mkKw {
  kw_stdev_multiplier : option Q;
  kw_threshold : option (option Q * option Q);
  kw_cut_off : option Q
}.

Definition no_kwargs : kwargs := mkKw None None None.

Definition default {A : Type} (o : option A) (d : A) : A :=
  match o with Some a => a | None => d end.

(** The columns cleared for a failed unit. *)
Definition is_filter_col (c : string) : bool :=
  (prefix "a" c || prefix "heat_rate" c || prefix "load" c)
  && negb (String.eqb c "load_min" || String.eqb c "load_max").

(** [_filter(group_df, **kwargs)] *)
Definition _filter (group_df : DataFrame) (kw : kwargs) : result DataFrame :=
  group_df <- set_index group_df "unit_id" ;;
  min_hr <- apply_rows (fun unit => _get_hr_min unit 100) group_df ;;
  let min_hr := dropna min_hr in
  match kw_cut_off kw with
  | Some _ => Raise TypeError   (* _min_hr_filter has no such keyword *)
  | None =>
      let failed_units :=
        _min_hr_filter min_hr (default (kw_stdev_multiplier kw) 2%Q)
                       (default (kw_threshold kw) (None, None)) in
      let filter_cols := List.filter is_filter_col (icolumns group_df) in
      Ok (reset_index (loc_set_none group_df failed_units filter_cols))
  end.

(** [s.str.split('-').str[0]] on the cells of a string column. *)
Definition cc_id_of (c : cell) : result cell :=
  match c with
  | CStr s => Ok (CStr (before_sep "-" s))
  | CFloat _ => Raise AttributeError
  end.

Definition label_leb (a b : cell) : bool :=
  match a, b with
  | CStr x, CStr y => String.leb x y
  | CFloat x, CFloat y => negb (flt y x)
  | CFloat _, CStr _ => true
  | CStr _, CFloat _ => false
  end.

Fixpoint insert_label (k : cell) (l : list cell) : list cell :=
  match l with
  | [] => [k]
  | x :: t => if label_leb k x then k :: l else x :: insert_label k t
  end.

Fixpoint dedup (l : list cell) : list cell :=
  match l with
  | [] => []
  | x :: t => x :: List.filter (fun y => negb (cell_eqb x y)) (dedup t)
  end.

(** [s.groupby(key).min()]: one entry per key, keys in sorted order. *)
Definition groupby_min (s : list (cell * fval)) : list (cell * fval) :=
  let keys := fold_right insert_label [] (dedup (map fst s)) in
  flat_map (fun k =>
              match map snd (List.filter (fun lv => cell_eqb k (fst lv)) s) with
              | [] => []
              | v :: vs => [(k, amin v vs)]
              end)
           keys.

(** [_filer_CCs(cc_df, cut_off=9, **kwargs)] *)
Definition _filer_CCs (cc_df : DataFrame) (kw : kwargs) : result DataFrame :=
  let cut_off := default (kw_cut_off kw) 9%Q in
  unit_ids <- get_column cc_df "unit_id" ;;
  cc_ids <- mapM cc_id_of unit_ids ;;
  let cc_df := assign_column cc_df "cc_id" cc_ids in
  cc_df <- set_index cc_df "cc_id" ;;
  cc_min_hr <- apply_rows (fun unit => _get_hr_min unit 100) cc_df ;;
  let cc_min_hr := groupby_min (dropna cc_min_hr) in
  match kw_threshold kw with
  | Some _ => Raise TypeError   (* threshold would be passed twice *)
  | None =>
      let failed_units :=
        _min_hr_filter cc_min_hr (default (kw_stdev_multiplier kw) 2%Q)
                       (None, Some cut_off) in
      let filter_cols := List.filter is_filter_col (icolumns cc_df) in
      Ok (reset_index_drop (loc_set_none cc_df failed_units filter_cols))
  end.

(** The store behind [Fits]: one fit table per group type.

    Modelled from the spec: the class [Fits] of [NaTGenPD.handler] is not in
    the embedded file; section 6 describes the FitTable store as "keyed
    (group_type -> table) read/write". *)
Definition Fits : Type := list (string * DataFrame).

Fixpoint fits_get (f : Fits) (g : string) : result DataFrame :=
  match f with
  | [] => Raise (KeyError g)
  | (g', df) :: t => if String.eqb g' g then Ok df else fits_get t g
  end.

Fixpoint fits_set (f : Fits) (g : string) (df : DataFrame) : Fits :=
  match f with
  | [] => [(g, df)]
  | (g', df') :: t =>
      if String.eqb g' g then (g', df) :: t else (g', df') :: fits_set t g df
  end.

(** [np.sum(~group_df['a0'].isnull())] *)
Definition fit_units (group_df : DataFrame) : result Z :=
  a0 <- get_column group_df "a0" ;;
  Ok (Z.of_nat (length (List.filter (fun c => negb (isnull c)) a0))).

(** One turn of the loop of [FitFilter.filter] on the stores
    [(self._hr_fits, out_fits)]. *)
Definition filter_step (min_units : Z) (kw : kwargs)
    (st : Fits * option Fits) (g_type : string)
  : result (Fits * option Fits) :=
  let '(hr_fits, out_fits) := st in
  group_df <- fits_get hr_fits g_type ;;
  fit_units <- fit_units group_df ;;
  if min_units <? fit_units then
    group_df <- (if contains "CC" g_type then _filer_CCs group_df kw
                 else _filter group_df kw) ;;
    match out_fits with
    | Some out => Ok (hr_fits, Some (fits_set out g_type group_df))
    | None => Ok (fits_set hr_fits g_type group_df, None)
    end
  else
    match out_fits with
    | Some out => Ok (hr_fits, Some (fits_set out g_type group_df))
    | None => Ok (hr_fits, None)
    end.

Fixpoint foldM {A B : Type} (f : A -> B -> result A) (l : list B) (a : A)
  : result A :=
  match l with
  | [] => Ok a
  | b :: t => a' <- f a b ;; foldM f t a'
  end.

(** [FitFilter.filter(out_dir=None, min_units=100, **kwargs)]: [out_fits] is
    the store of [out_dir] when one is given. *)
Definition filter (hr_fits : Fits) (out_fits : option Fits)
    (min_units : Z) (kw : kwargs) : result (Fits * option Fits) :=
  foldM (filter_step min_units kw) (map fst hr_fits) (hr_fits, out_fits).

End FitFilter.

(* ================================================================== *)
(** ** class PolyFit: the fits of a unit, of a group and of a store *)

(** A computation that leaves a trace of effects and may raise. *)
Definition traced (E A : Type) : Type := (list E * result A)%type.

Definition tret {E A : Type} (a : A) : traced E A := ([], Ok a).

Definition tbind {E A B : Type} (m : traced E A) (k : A -> traced E B)
  : traced E B :=
  match snd m with
  | Ok a => (fst m ++ fst (k a), snd (k a))
  | Raise e => (fst m, Raise e)
  end.

Notation "x <~ m ;; k" := (tbind m (fun x => k))
  (at level 61, m at next level, right associativity).

Fixpoint tmapM {E A B : Type} (f : A -> traced E B) (l : list A)
  : traced E (list B) :=
  match l with
  | [] => tret []
  | a :: t => b <~ f a ;; bs <~ tmapM f t ;; tret (b :: bs)
  end.

(** [s.endswith(suffix)] *)
Fixpoint ends_with (suffix s : string) : bool :=
  String.eqb suffix s
  || match s with
     | EmptyString => false
     | String _ t => ends_with suffix t
     end.

(** [os.path.join(a, b)] on POSIX paths. *)
Definition path_join (a b : string) : string :=
  if prefix "/" b then b
  else if String.eqb a "" || ends_with "/" a then (a ++ b)%string
  else (a ++ "/" ++ b)%string.

(** [pd.concat(frames)] of frames that share their columns: there must be
    at least one. *)
Definition pd_concat {A : Type} (frames : list (list A)) : result (list A) :=
  match frames with
  | [] => Raise ValueError
  | _ => Ok (concat frames)
  end.

Module PolyFits.

(** A row of the filtered CEMS table of a unit as [fit_unit] reads it: the
    columns [unit_id], [load], [heat_rate] and [cluster] (the integer label
    that the cluster filter wrote, -1 for noise), and the other columns of
    the row, label and cell. *)
Record point : Type := mkPoint {
  unit_id : string;
  load : fval;
  heat_rate : fval;
  cluster : Z;
  meta : Series
}.

Definition unit_df : Type := list point.

(** [s.unique()]: the values in the order of their first appearance. *)
Fixpoint unique (l : list Z) : list Z :=
  match l with
  | [] => []
  | x :: t => x :: List.filter (fun y => negb (y =? x)) (unique t)
  end.

Fixpoint insert_label (z : Z) (l : list Z) : list Z :=
  match l with
  | [] => [z]
  | x :: t => if z <=? x then z :: l else x :: insert_label z t
  end.

(** [sorted(l)] *)
Definition sorted (l : list Z) : list Z := fold_right insert_label [] l.

(** [sorted([label for label in unit_df['cluster'].unique() if label >= 0])] *)
Definition clusters (u : unit_df) : list Z :=
  sorted (List.filter (fun label => 0 <=? label) (unique (map cluster u))).

(** Order of a float column under [sort_values]: NaN sorts last. *)
Definition fcompare (x y : fval) : comparison :=
  match x, y with
  | NaN, NaN => Eq
  | NaN, _ => Gt
  | _, NaN => Lt
  | _, _ => if flt x y then Lt else if flt y x then Gt else Eq
  end.

(** Order of [sort_values(['load', 'heat_rate'])]. *)
Definition point_leb (a b : fval * fval) : bool :=
  match fcompare (fst a) (fst b) with
  | Lt => true
  | Gt => false
  | Eq => match fcompare (snd a) (snd b) with
          | Gt => false
          | _ => true
          end
  end.

Fixpoint insert_point (r : fval * fval) (l : list (fval * fval))
  : list (fval * fval) :=
  match l with
  | [] => [r]
  | x :: t => if point_leb r x then r :: l else x :: insert_point r t
  end.

Definition sort_points (l : list (fval * fval)) : list (fval * fval) :=
  fold_right insert_point [] l.

(** The row of a fit: its label [fit_id] and its cells. *)
Definition fit_table : Type := list (string * Series).

(** [unit_df.loc[pos, ['load', 'heat_rate']].sort_values(['load',
    'heat_rate'])], the fit of its two columns, and
    [cluster_fit.name = fit_id; cluster_fit.to_frame().T]. *)
Definition cluster_fit (polyfit : polyfit_fn) (order points : Z)
    (fit_id : string) (pos : unit_df) : traced PolyFit.event (string * Series) :=
  let cluster_df := sort_points (map (fun p => (load p, heat_rate p)) pos) in
  let load := map fst cluster_df in
  let heat_rate := map snd cluster_df in
  let '(evs, r) := PolyFit.extract_fit polyfit load heat_rate order points in
  (evs,
   cluster_fit <- r ;;
   Ok (fit_id, map (fun kv => (fst kv, CFloat (snd kv))) cluster_fit)).

(** [df.loc[:, col] = v] on a row of the frame. *)
Fixpoint cells_set (s : Series) (k : string) (v : cell) : Series :=
  match s with
  | [] => [(k, v)]
  | (k', v') :: t =>
      if String.eqb k' k then (k', v) :: t else (k', v') :: cells_set t k v
  end.

(** [for col in self.META_COLS: unit_fit.loc[:, col] = unit_meta[col]] *)
Definition set_meta (unit_meta : Series) (unit_fit : fit_table)
  : result fit_table :=
  FitFilter.foldM
    (fun unit_fit col =>
       v <- series_loc unit_meta col ;;
       Ok (map (fun r => (fst r, cells_set (snd r) col v)) unit_fit))
    PolyFit.META_COLS unit_fit.

(** [fit_unit(unit_df, **kwargs)] for an instance of order [order];
    [points] is the keyword handed on to [extract_fit] (5 when absent). *)
Definition fit_unit (polyfit : polyfit_fn) (order : Z) (unit_df : unit_df)
    (points : Z) : traced PolyFit.event fit_table :=
  match unit_df with
  | [] => ([], Raise IndexError)       (* unit_df.iloc[0] *)
  | unit_meta :: _ =>
      let unit_id := unit_id unit_meta in
      let clusters := clusters unit_df in
      unit_fit <~
        (if (1 <? length clusters)%nat then
           tmapM (fun label =>
                    let fit_id := (unit_id ++ "-" ++ str_of_Z label)%string in
                    cluster_fit polyfit order points fit_id
                      (List.filter (fun p => cluster p =? label) unit_df))
                 clusters
         else
           cluster_fit <~
             cluster_fit polyfit order points unit_id
               (List.filter (fun p => 0 <=? cluster p) unit_df) ;;
           tret [cluster_fit]) ;;
      ([], set_meta (meta unit_meta) unit_fit)
  end.

(** What fitting does to the outside: the events of [extract_fit] and the
    files written. *)
Inductive effect : Type :=
| Fit_event (e : PolyFit.event)
| To_csv (out_file : string) (group_fits : fit_table)
| To_json (out_file : string) (group_fits : fit_table).

Definition lift_events {A : Type} (m : traced PolyFit.event A)
  : traced effect A :=
  (map Fit_event (fst m), snd m).

(** [fit_group(group_type, out_file=None, **kwargs)]: [group] is what
    [f[group_type].unit_dfs] yields.  The index of the table returned is
    named [unit_id]. *)
Definition fit_group (polyfit : polyfit_fn) (order : Z)
    (group : list (string * unit_df)) (out_file : option string) (points : Z)
  : traced effect fit_table :=
  group_fits <~
    tmapM (fun u => lift_events (fit_unit polyfit order (snd u) points))
          group ;;
  group_fits <~ ([], pd_concat group_fits) ;;
  match out_file with
  | None | Some EmptyString => tret group_fits
  | Some out_file =>
      if ends_with ".csv" out_file then
        ([To_csv out_file group_fits], Ok group_fits)
      else if ends_with ".json" out_file then
        ([To_json out_file group_fits], Ok group_fits)
      else ([], Raise ValueError)
  end.

(** [fit_all(out_dir, **kwargs)]: [store] lists the group types of the
    filtered file with their units. *)
Definition fit_all (polyfit : polyfit_fn) (order : Z)
    (store : list (string * list (string * unit_df))) (out_dir : string)
    (points : Z) : traced effect unit :=
  _ <~ tmapM (fun g =>
                let out_path := (fst g ++ "_fits.csv")%string in
                let out_path := path_join out_dir out_path in
                fit_group polyfit order (snd g) (Some out_path) points)
             store ;;
  tret tt.

End PolyFits.

(* ================================================================== *)
(** * Vocabulary of the properties and example data *)

(** ['load_{:}'.format(i)] *)
Definition load_label (i : Z) : string := "load_" ++ str_of_Z i.

(** The claim of C2 in its own words: the residual degrees of freedom of a
    fit of degree [order] through the load array, and the number of
    distinct loads. *)
Definition residual_dof (load : list fval) (order : Z) : Z :=
  Z.of_nat (length load) - (order + 1).

Fixpoint distinct (l : list fval) : list fval :=
  match l with
  | [] => []
  | x :: t => x :: List.filter (fun y => negb (fval_eqb x y)) (distinct t)
  end.

(** Five loads and their heat rates. *)
Definition five_loads : list fval := map of_Z [1; 2; 3; 4; 5].
Definition five_heat_rates : list fval := map of_Z [10; 8; 7; 8; 10].

(** The labels of the load samples from two points on. *)
Definition load_index (points : Z) : list string :=
  "load_min" :: map load_label (py_range 2 points) ++ ["load_max"].

(** The layout of an accepted fit row in the words of C6: the coefficients
    [a_order .. a_0], the load samples between the two bounds, the
    heat-rate samples, the summed load and the minimum-generation
    fraction. *)
Definition claimed_labels (order points : Z) : list string :=
  map (fun i => "a" ++ str_of_Z i)%string (rev (py_range 0 (order + 1)))
  ++ load_index points
  ++ PolyFit.hr_labels (load_index points)
  ++ ["total_load"; "min_gen_perc"].

(** Sum, mean and variance (the square of the standard deviation, with
    divisor n) of a population of rationals. *)
Definition Qsum (l : list Q) : Q := fold_left Qplus l 0%Q.

Definition Qmean (l : list Q) : Q :=
  (Qsum l / inject_Z (Z.of_nat (length l)))%Q.

Definition Qvar (l : list Q) : Q :=
  Qmean (map (fun x => (x - Qmean l) * (x - Qmean l))%Q l).





(** A Series of finite minima as [_min_hr_filter] receives it. *)
Definition as_floats (min_hr : list (cell * Q)) : list (cell * fval) :=
  map (fun p => (fst p, Fin (snd p))) min_hr.


(** Four units with minima 6, 6, 30 and 30. *)
Definition four_minima : list (cell * Q) :=
  [(CStr "a", 6%Q); (CStr "b", 6%Q); (CStr "c", 30%Q); (CStr "d", 30%Q)].

Definition float_cell (c : cell) : bool :=
  match c with
  | CFloat _ => true
  | CStr _ => false
  end.

(** The columns that [_get_hr_min] reads as numbers. *)
Definition numeric_col (c : string) : bool :=
  prefix "a" c || String.eqb c "load_min" || String.eqb c "load_max".

Definition has_col (name : string) (s : Series) : bool :=
  existsb (fun cv => String.eqb (fst cv) name) s.

(** A row of a fit table: floats in the coefficient columns and the two
    bounds, and the columns [a0], [load_min] and [load_max] are there. *)
Definition series_ok (s : Series) : bool :=
  forallb (fun cv => negb (numeric_col (fst cv)) || float_cell (snd cv)) s
  && has_col "a0" s && has_col "load_min" s && has_col "load_max" s.

Definition row_ok (cols : list string) (r : list cell) : bool :=
  Nat.eqb (length r) (length cols) && series_ok (combine cols r).

(** A fit table as [PolyFit] writes it: a [unit_id] column and well-formed
    rows, one cell per column. *)
Definition fit_table_ok (df : DataFrame) : bool :=
  existsb (String.eqb "unit_id") (columns df)
  && forallb (row_ok (columns df)) (rows df).

Definition indexed_ok (ix : Indexed) : bool :=
  forallb (fun r => row_ok (icolumns ix) (snd r)) (irows ix).

(** The minimum heat rate of a row, None when there is none. *)
Definition hr_min_of (unit : Series) : option fval :=
  match FitFilter._get_hr_min unit 100 with
  | Ok r => r
  | Raise _ => None
  end.

(** The minima of the rows, with their index labels. *)
Definition row_minima (ix : Indexed) : list (cell * option fval) :=
  map (fun r => (fst r, hr_min_of (combine (icolumns ix) (snd r)))) (irows ix).

(** What [df.loc[labels, cols] = None] leaves of a row. *)
Definition null_cells (cols fcols : list string) (r : list cell) : list cell :=
  map (fun cv => if existsb (String.eqb (fst cv)) fcols then missing
                 else snd cv)
      (combine cols r).

(** What rejection does to a frame: no row is added or removed, and in
    the row of a unit with label [uid] the cell of column [c] is cleared
    when the unit failed and [c] is a filter column, and kept otherwise. *)
Definition frame_effect (df df' : DataFrame) (failed : cell -> bool) : Prop :=
  length (rows df') = length (rows df) /\
  (forall c, In c (columns df') <-> In c (columns df)) /\
  forall i row, nth_error (rows df) i = Some row ->
    exists row' uid,
      nth_error (rows df') i = Some row' /\
      series_loc (combine (columns df) row) "unit_id" = Ok uid /\
      forall c, In c (columns df) ->
        series_loc (combine (columns df') row') c =
        if failed uid && FitFilter.is_filter_col c then Ok missing
        else series_loc (combine (columns df) row) c.

(** The aggregation key of a fit id: what stands before the first "-". *)
Definition cc_key (uid : cell) : cell :=
  match uid with
  | CStr s => CStr (before_sep "-" s)
  | CFloat f => CFloat f
  end.

(** A fit table of a CC group: the fit ids are strings and there is no
    [cc_id] column yet. *)
Definition cc_table_ok (df : DataFrame) : bool :=
  fit_table_ok df
  && negb (existsb (String.eqb "cc_id") (columns df))
  && forallb (fun r =>
                match series_loc (combine (columns df) r) "unit_id" with
                | Ok (CStr _) => true
                | _ => false
                end)
             (rows df).

(** The CC table indexed by [cc_id]. *)
Definition cc_indexed (df : DataFrame) (p : nat) : Indexed :=
  mkIdx "cc_id" (columns df)
        (map (fun r => (cc_key (nth p r missing), r)) (rows df)).

(** The index of a fit table after [set_index('unit_id')]. *)
Definition unit_indexed (df : DataFrame) (p : nat) : Indexed :=
  mkIdx "unit_id" (remove_nth p (columns df))
        (map (fun r => (nth p r missing, remove_nth p r)) (rows df)).

(** The units that [_filter] fails, and the CC units that [_filer_CCs]
    fails. *)
Definition failed_units (df : DataFrame) (p : nat) (kw : FitFilter.kwargs)
  : list cell :=
  FitFilter._min_hr_filter
    (dropna (row_minima (unit_indexed df p)))
    (FitFilter.default (FitFilter.kw_stdev_multiplier kw) 2%Q)
    (FitFilter.default (FitFilter.kw_threshold kw) (None, None)).


(** The columns of a fit table written by [PolyFit] at order 4 with five
    points. *)
Definition fit_columns : list string :=
  ["unit_id"; "a4"; "a3"; "a2"; "a1"; "a0";
   "load_min"; "load_2"; "load_3"; "load_4"; "load_max";
   "total_load"; "min_gen_perc";
   "heat_rate(load_min)"; "heat_rate(load_2)"; "heat_rate(load_3)";
   "heat_rate(load_4)"; "heat_rate(load_max)"]
  ++ PolyFit.META_COLS.

Definition meta_cells : list cell :=
  [CFloat (Fin 39); CFloat (Fin (-105)); CStr "CO"; CFloat (Fin 8);
   CStr "WECC"; CStr "CT"; CStr "NG"; CStr "CT (NG)"].

(** A unit whose heat rate is [hr] at every load between 100 and 500. *)
Definition flat_unit (id : string) (hr : Q) : list cell :=
  CStr id
  :: map (fun q => CFloat (Fin q))
       [0; 0; 0; 0; hr; 100; 200; 300; 400; 500; 3000; 1 # 5;
        hr; hr; hr; hr; hr]%Q
  ++ meta_cells.

(** A unit without fit. *)
Definition unfit_unit (id : string) : list cell :=
  CStr id
  :: map CFloat
       [NaN; NaN; NaN; NaN; NaN; NaN; NaN; NaN; NaN; NaN; Fin 0; NaN;
        NaN; NaN; NaN; NaN; NaN]
  ++ meta_cells.

Definition unit_name (i : nat) : string :=
  "3_" ++ str_of_Z (Z.of_nat i).

(** Eight units at heat rate 10, one at 11 and one at 20. *)
Definition ten_units : DataFrame :=
  mkDF fit_columns
    (map (fun i => flat_unit (unit_name i) 10) (seq 1 8)
     ++ [flat_unit (unit_name 9) 11; flat_unit (unit_name 10) 20]).

(** 150 units: 99 at heat rate 10, one at 100 and 50 without fit. *)
Definition many_units : DataFrame :=
  mkDF fit_columns
    (map (fun i => flat_unit (unit_name i) 10) (seq 1 99)
     ++ [flat_unit (unit_name 100) 100]
     ++ map (fun i => unfit_unit (unit_name i)) (seq 101 50)).

(** Two fit rows of one CC unit, with minima 7.2 and 8.9: named with the
    separator of the code, and with an underscore. *)
Definition cc_dash : DataFrame :=
  mkDF fit_columns [flat_unit "7-0" (72 # 10); flat_unit "7-1" (89 # 10)].

Definition cc_underscore : DataFrame :=
  mkDF fit_columns [flat_unit "7_0" (72 # 10); flat_unit "7_1" (89 # 10)].

(** ** Further example data *)

(** The order of the table returned by [filter_group]: by [unit_id], and by
    [time] within a unit. *)
Definition row_le (a b : Filter.cems_row) : Prop :=
  String.compare (Filter.unit_id a) (Filter.unit_id b) = Lt \/
  (Filter.unit_id a = Filter.unit_id b /\ Filter.time a <= Filter.time b).

(** A cluster filter that labels every row 0, and one that refuses units
    with fewer rows than [threshold]. *)
Definition label_all : Filter.cluster_filter := fun unit_df _ _ =>
  Ok (map (fun r => Filter.mkRow (Filter.unit_id r) (Filter.time r)
                      (Filter.load r) (Filter.heat_rate r) (Some 0))
          unit_df).

Definition refuse_small : Filter.cluster_filter := fun unit_df _ threshold =>
  if Z.of_nat (length unit_df) <? threshold then Raise ValueError
  else label_all unit_df 0 threshold.

(** Two units of a group, the rows of unit "7_2" before those of "7_1" and
    out of time order. *)
Definition two_units : list (string * Filter.unit_df) :=
  [("7_2", [Filter.mkRow "7_2" 5 (Fin 40) (Fin 9) None;
            Filter.mkRow "7_2" 3 (Fin 50) (Fin 8) None]);
   ("7_1", [Filter.mkRow "7_1" 4 (Fin 20) (Fin 11) None;
            Filter.mkRow "7_1" 1 (Fin 30) (Fin 10) None])].

(** A unit with 100 rows. *)
Definition long_unit : string * Filter.unit_df :=
  ("7_0", map (fun i => Filter.mkRow "7_0" (Z.of_nat i) (Fin 30) (Fin 10) None)
              (seq 0 100)).

(** The metadata columns of a CEMS row. *)
Definition unit_meta : Series := combine PolyFit.META_COLS meta_cells.

(** A row of unit "7" at loads 1 to 5 in the regime [label]. *)
Definition regime (label : Z) (hr : Q) : PolyFits.unit_df :=
  map (fun i => PolyFits.mkPoint "7" (of_Z i) (Fin hr) label unit_meta)
      [3; 1; 5; 2; 4].

(** A unit with two operating regimes and noise, and a unit of noise only. *)
Definition two_regimes : PolyFits.unit_df :=
  regime 1 8 ++ regime (-1) 30 ++ regime 0 7.

Definition noise_only : PolyFits.unit_df := regime (-1) 30.

(** The table that [fit_group] returns without an output file, and the
    path that [fit_all] writes the fits of a group to. *)
Definition group_fits_of (polyfit : polyfit_fn) (order : Z)
    (group : list (string * PolyFits.unit_df)) (points : Z)
  : PolyFits.fit_table :=
  match snd (PolyFits.fit_group polyfit order group None points) with
  | Ok group_fits => group_fits
  | Raise _ => []
  end.

Definition fits_path (out_dir g_type : string) : string :=
  path_join out_dir (g_type ++ "_fits.csv").

(** A store with one group of two units. *)
Definition one_group : list (string * list (string * PolyFits.unit_df)) :=
  [("CT (NG)", [("7", two_regimes); ("7", noise_only)])].

(** Two units at heat rate 10, one at heat rate 3, below the floor of 4.5,
    and one without fit. *)
Definition mixed_units : DataFrame :=
  mkDF fit_columns
    [flat_unit "3_1" 10; flat_unit "3_2" 10; flat_unit "3_3" 3;
     unfit_unit "3_4"].

(* ================================================================== *)
(** * Properties *)

(** ** Lists, strings and Series *)

Lemma Ok_inj {A : Type} (a b : A) : Ok a = Ok b -> a = b.
Proof. congruence. Qed.

Lemma removelast_snoc {A : Type} (l : list A) (x : A) :
  removelast (l ++ [x]) = l.
Proof.
  induction l as [|a l IH]; [reflexivity|].
  simpl. rewrite IH. destruct l; reflexivity.
Qed.

Lemma py_range_length (a b : Z) : length (py_range a b) = Z.to_nat (b - a).
Proof. unfold py_range. now rewrite length_map, length_seq. Qed.

Lemma py_range_cons (a b : Z) : a < b -> py_range a b = a :: py_range (a + 1) b.
Proof.
  intros H. unfold py_range.
  replace (Z.to_nat (b - a)) with (S (Z.to_nat (b - (a + 1)))) by lia.
  simpl. f_equal; [lia|].
  rewrite <- seq_shift, map_map. apply map_ext. intros i. lia.
Qed.

Lemma py_range_snoc (a b : Z) : a < b -> py_range a b = py_range a (b - 1) ++ [b - 1].
Proof.
  intros H. unfold py_range.
  replace (Z.to_nat (b - a)) with (Z.to_nat (b - 1 - a) + 1)%nat by lia.
  rewrite seq_app, map_app. simpl. do 2 f_equal. lia.
Qed.

Lemma str_of_Z_head (i : Z) : prefix "m" (str_of_Z i) = false.
Proof.
  unfold str_of_Z. destruct (Z.to_int i) as [d|d]; [destruct d|]; reflexivity.
Qed.

Lemma series_get_app (s1 s2 : FSeries) (k : string) :
  series_get (s1 ++ s2) k =
  match series_get s1 k with Some v => Some v | None => series_get s2 k end.
Proof.
  induction s1 as [|[k' v] s1 IH]; [reflexivity|].
  simpl. destruct (String.eqb k' k); [reflexivity|apply IH].
Qed.

Lemma series_get_set_same (s : FSeries) (k : string) (v : fval) :
  series_get (series_set s k v) k = Some v.
Proof.
  induction s as [|[k' v'] s IH]; simpl.
  - now rewrite String.eqb_refl.
  - destruct (String.eqb k' k) eqn:E; simpl; rewrite E; [reflexivity|apply IH].
Qed.

Lemma series_get_set_other (s : FSeries) (k k' : string) (v : fval) :
  k <> k' -> series_get (series_set s k v) k' = series_get s k'.
Proof.
  intros Hne. induction s as [|[k0 v0] s IH]; simpl.
  - destruct (String.eqb k k') eqn:E; [|reflexivity].
    apply String.eqb_eq in E. contradiction.
  - destruct (String.eqb k0 k) eqn:E; simpl.
    + apply String.eqb_eq in E. subst k0.
      destruct (String.eqb k k') eqn:E'; [|reflexivity].
      apply String.eqb_eq in E'. contradiction.
    + destruct (String.eqb k0 k'); [reflexivity|apply IH].
Qed.

Lemma series_get_nan (idx : list string) (k : string) :
  In k idx -> series_get (map (fun k => (k, NaN)) idx) k = Some NaN.
Proof.
  induction idx as [|k' idx IH]; simpl; [tauto|].
  intros [->|H].
  - now rewrite String.eqb_refl.
  - destruct (String.eqb k' k); [reflexivity|now apply IH].
Qed.

Lemma series_get_none (s : FSeries) (k : string) :
  ~ In k (map fst s) -> series_get s k = None.
Proof.
  induction s as [|[k' v'] s IH]; simpl; [reflexivity|].
  intros H. destruct (String.eqb k' k) eqn:E.
  - apply String.eqb_eq in E. tauto.
  - apply IH. tauto.
Qed.

Lemma series_set_notin (s : FSeries) (k : string) (v : fval) :
  ~ In k (map fst s) -> series_set s k v = s ++ [(k, v)].
Proof.
  induction s as [|[k' v'] s IH]; simpl; [reflexivity|].
  intros H. destruct (String.eqb k' k) eqn:E.
  - apply String.eqb_eq in E. tauto.
  - f_equal. apply IH. tauto.
Qed.

Lemma series_set_app_notin (a b : FSeries) (k : string) (v : fval) :
  ~ In k (map fst a) -> series_set (a ++ b) k v = a ++ series_set b k v.
Proof.
  induction a as [|[k' v'] a IH]; simpl; [reflexivity|].
  intros H. destruct (String.eqb k' k) eqn:E.
  - apply String.eqb_eq in E. tauto.
  - f_equal. apply IH. tauto.
Qed.

Lemma combine_snoc {A B : Type} (l : list A) (l' : list B) (x : A) (y : B) :
  length l = length l' ->
  combine (l ++ [x]) (l' ++ [y]) = combine l l' ++ [(x, y)].
Proof.
  revert l'. induction l as [|a l IH]; intros [|b l'] H; simpl in *;
    try discriminate; [reflexivity|].
  f_equal. apply IH. lia.
Qed.

Lemma map_fst_combine {A B : Type} (l : list A) (l' : list B) :
  length l = length l' -> map fst (combine l l') = l.
Proof.
  revert l'. induction l as [|a l IH]; intros [|b l'] H; simpl in *;
    try discriminate; [reflexivity|].
  f_equal. apply IH. lia.
Qed.

(** ** NumPy *)

Lemma linspace_length (start stop : fval) (num : Z) (xs : list fval) :
  linspace start stop num = Ok xs -> length xs = Z.to_nat num.
Proof.
  unfold linspace. destruct (num <? 0) eqn:E; [discriminate|].
  intros H. injection H as <-.
  destruct (1 <? num) eqn:E1.
  - rewrite length_app. simpl.
    assert (Hn : Z.to_nat num = S (Z.to_nat (num - 1))) by lia.
    rewrite Hn at 1. rewrite seq_S, map_app. simpl.
    rewrite removelast_snoc, length_map, length_seq. lia.
  - now rewrite length_map, length_seq.
Qed.

Lemma linspace_ok (start stop : fval) (num : Z) :
  0 <= num -> exists xs, linspace start stop num = Ok xs.
Proof.
  intros H. unfold linspace.
  destruct (num <? 0) eqn:E; [lia|]. eauto.
Qed.

(** From two samples on, the first sample is computed from [start] and the
    last one is [stop] itself. *)
Lemma linspace_ends (start stop : fval) (num : Z) :
  2 <= num ->
  exists x0 mid, linspace start stop num = Ok (x0 :: mid ++ [stop]) /\
                 length mid = Z.to_nat (num - 2).
Proof.
  intros H. unfold linspace.
  destruct (num <? 0) eqn:E; [lia|].
  destruct (1 <? num) eqn:E1; [|lia].
  set (f := fun i : nat => _).
  assert (Hn : Z.to_nat num = S (S (Z.to_nat (num - 2)))) by lia.
  rewrite Hn. rewrite seq_S, map_app. simpl map at 2.
  rewrite removelast_snoc. simpl.
  exists (f 0%nat), (map f (seq 1 (Z.to_nat (num - 2)))).
  split; [reflexivity|]. now rewrite length_map, length_seq.
Qed.

(** ** PolyFit.extract_fit *)

Lemma set_last_snoc {A : Type} (l : list A) (x v : A) :
  set_last (l ++ [x]) v = Ok (l ++ [v]).
Proof.
  unfold set_last. rewrite removelast_snoc. destruct l; reflexivity.
Qed.

Lemma load_labels_from_two (points : Z) :
  2 <= points ->
  PolyFit.load_labels points =
  Ok ("load_min" :: map load_label (py_range 2 points) ++ ["load_max"]).
Proof.
  intros H. unfold PolyFit.load_labels.
  rewrite (py_range_cons 1 (points + 1)) by lia.
  rewrite (py_range_snoc (1 + 1) (points + 1)) by lia.
  replace (points + 1 - 1) with points by lia.
  cbn [map set_first bind]. rewrite map_app.
  change ("load_min" :: ?l ++ ?x) with (("load_min" :: l) ++ x).
  cbn [map]. rewrite set_last_snoc. reflexivity.
Qed.

Lemma load_labels_ok (points : Z) :
  1 <= points ->
  exists idx, PolyFit.load_labels points = Ok idx /\
              length idx = Z.to_nat points.
Proof.
  intros H. destruct (Z.eq_dec points 1) as [->|Hne].
  - exists ["load_max"]. split; reflexivity.
  - rewrite load_labels_from_two by lia. eexists. split; [reflexivity|].
    simpl. rewrite length_app, length_map, py_range_length. simpl. lia.
Qed.

Lemma load_label_not (i : Z) (k : string) :
  prefix "load_m" k = true \/ prefix "load_" k = false -> load_label i <> k.
Proof.
  unfold load_label. intros H E. subst k. simpl in H.
  pose proof (str_of_Z_head i) as Hm.
  destruct (str_of_Z i) as [|c s]; simpl in *; destruct H as [H|H];
    try discriminate.
  rewrite Hm in H. discriminate.
Qed.

Lemma load_label_range_notin (a b : Z) (k : string) :
  prefix "load_m" k = true \/ prefix "load_" k = false ->
  ~ In k (map load_label (py_range a b)).
Proof.
  intros H Hin. apply in_map_iff in Hin. destruct Hin as [i [E _]].
  exact (load_label_not i k H E).
Qed.

(** A row without fit: every coefficient, load sample and heat-rate sample
    is NaN and the bounds are the ones handed over. *)
Lemma fit_row_no_fit (load : list fval) (points : Z) (lo hi : fval) :
  1 <= points ->
  exists row, PolyFit.fit_row PolyFit.no_fit load points lo hi = Ok row /\
    series_get row "load_min" = Some lo /\
    series_get row "load_max" = Some hi /\
    forall a, In a PolyFit.coef_index -> series_get row a = Some NaN.
Proof.
  intros H. destruct (load_labels_ok points H) as [idx [Hidx _]].
  unfold PolyFit.fit_row. cbn [PolyFit.fit_params PolyFit.load_range
    PolyFit.hr_range PolyFit.no_fit pd_Series bind]. rewrite Hidx.
  cbn [bind]. eexists. split; [reflexivity|].
  set (nans := map (fun k => (k, NaN)) PolyFit.coef_index).
  assert (Hnone : forall k, ~ In k PolyFit.coef_index ->
                            series_get nans k = None).
  { intros k Hk. apply series_get_none. unfold nans.
    now rewrite map_map, map_id. }
  split; [|split].
  - rewrite series_get_app, Hnone, series_get_app
      by (simpl; intuition discriminate).
    do 3 (rewrite series_get_set_other by discriminate).
    now rewrite series_get_set_same.
  - rewrite series_get_app, Hnone, series_get_app
      by (simpl; intuition discriminate).
    do 2 (rewrite series_get_set_other by discriminate).
    now rewrite series_get_set_same.
  - intros a Ha. rewrite series_get_app. unfold nans.
    now rewrite series_get_nan.
Qed.

(** A coefficient that is not NaN comes from an accepted fit. *)
Lemma fit_row_coef (st : PolyFit.fit_locals) (load : list fval) (points : Z)
    (lo hi : fval) (row : FSeries) (a : string) (v : fval) :
  PolyFit.fit_row st load points lo hi = Ok row ->
  In a PolyFit.coef_index -> series_get row a = Some v -> v <> NaN ->
  PolyFit.fit_params st <> None.
Proof.
  intros Hrow Ha Hget Hv Hnone. unfold PolyFit.fit_row in Hrow.
  rewrite Hnone in Hrow. cbn [pd_Series bind] in Hrow.
  destruct (PolyFit.load_labels points) as [idx|]; [|discriminate].
  cbn [bind] in Hrow.
  destruct (pd_Series (PolyFit.load_range st) idx); [|discriminate].
  cbn [bind] in Hrow.
  destruct (pd_Series (PolyFit.hr_range st) (PolyFit.hr_labels idx));
    [|discriminate].
  apply Ok_inj in Hrow. subst row.
  rewrite series_get_app, series_get_nan in Hget by assumption. congruence.
Qed.

Lemma extract_fit_empty (polyfit : polyfit_fn) (heat_rate : list fval)
    (order points : Z) :
  PolyFit.extract_fit polyfit [] heat_rate order points =
  ([], PolyFit.fit_row PolyFit.no_fit [] points NaN NaN).
Proof. reflexivity. Qed.

Lemma extract_fit_raise (polyfit : polyfit_fn) (load heat_rate : list fval)
    (order points : Z) (x : fval) (t : list fval) (e : exn) :
  load = x :: t -> polyfit load heat_rate order = Raise e ->
  PolyFit.extract_fit polyfit load heat_rate order points =
  ([PolyFit.Call_polyfit load heat_rate order;
    PolyFit.Log_exception "Cannot fit unit" e],
   PolyFit.fit_row PolyFit.no_fit load points (amin x t) (amax x t)).
Proof.
  intros -> H. unfold PolyFit.extract_fit, PolyFit.try_fit. now rewrite H.
Qed.

Lemma extract_fit_low_rank (polyfit : polyfit_fn) (load heat_rate : list fval)
    (order points : Z) (x : fval) (t : list fval) (fit : PolyfitFull) :
  load = x :: t -> polyfit load heat_rate order = Ok fit -> fit_rank fit <= 1 ->
  PolyFit.extract_fit polyfit load heat_rate order points =
  ([PolyFit.Call_polyfit load heat_rate order],
   PolyFit.fit_row PolyFit.no_fit load points (amin x t) (amax x t)).
Proof.
  intros -> H Hr. unfold PolyFit.extract_fit, PolyFit.try_fit. rewrite H.
  destruct (1 <? fit_rank fit) eqn:E; [lia|reflexivity].
Qed.

(** The locals after the [try] block hold coefficients only when
    [np.polyfit] returned a rank above 1. *)
Lemma try_fit_params (polyfit : polyfit_fn) (load heat_rate : list fval)
    (order points : Z) (lo hi : fval) :
  PolyFit.fit_params
    (snd (PolyFit.try_fit polyfit load heat_rate order points lo hi)) <> None ->
  exists fit, polyfit load heat_rate order = Ok fit /\ 1 < fit_rank fit.
Proof.
  unfold PolyFit.try_fit.
  destruct (polyfit load heat_rate order) as [fit|e]; simpl; [|congruence].
  destruct (1 <? fit_rank fit) eqn:E; simpl; [|congruence].
  intros _. exists fit. split; [reflexivity|lia].
Qed.



(** C2, counterexample.  Five distinct loads fitted at order 4: no residual
    degree of freedom and fewer than [order + 2] distinct points, yet
    [np.polyfit] reports rank 5 and [extract_fit] returns the coefficients
    of the interpolating quartic. *)
Lemma extract_fit_exactly_determined_accepted :
  residual_dof five_loads 4 = 0 /\
  Z.of_nat (length (distinct five_loads)) < 4 + 2 /\
  polyfit_exact five_loads five_heat_rates 4 =
  Ok (mkFit [Fin (-1 # 12); Fin 1; Fin (-41 # 12); Fin (5 # 2); Fin 10] 5) /\
  exists row,
    snd (PolyFit.extract_fit polyfit_exact five_loads five_heat_rates 4 5)
    = Ok row /\
    map (series_get row) PolyFit.coef_index =
    [Some (Fin (-1 # 12)); Some (Fin 1); Some (Fin (-41 # 12));
     Some (Fin (5 # 2)); Some (Fin 10)].
Proof.
  split; [reflexivity|]. split; [reflexivity|]. split; [reflexivity|].
  eexists. split; vm_compute; reflexivity.
Qed.

(** C2, as the code has it.  A coefficient of the returned row is a number
    only if [np.polyfit] returned and reported a rank above 1 (entry 2 of
    its result, not the residual degrees of freedom); and when the load
    array is empty, [np.polyfit] raises, or the rank is at most 1, the row
    is returned with all coefficients NaN. *)
Theorem extract_fit_accepts_by_rank (polyfit : polyfit_fn)
    (load heat_rate : list fval) (order points : Z) (Hpoints : 1 <= points) :
  (forall row a v,
     snd (PolyFit.extract_fit polyfit load heat_rate order points) = Ok row ->
     In a PolyFit.coef_index -> series_get row a = Some v -> v <> NaN ->
     load <> [] /\
     exists fit, polyfit load heat_rate order = Ok fit /\ 1 < fit_rank fit)
  /\
  (load = [] \/
   (exists e, polyfit load heat_rate order = Raise e) \/
   (exists fit, polyfit load heat_rate order = Ok fit /\ fit_rank fit <= 1) ->
   exists row,
     snd (PolyFit.extract_fit polyfit load heat_rate order points) = Ok row /\
     forall a, In a PolyFit.coef_index -> series_get row a = Some NaN).
Proof.
  split.
  - intros row a v Hrow Ha Hget Hv. destruct load as [|x t].
    + rewrite extract_fit_empty in Hrow. simpl in Hrow.
      exfalso. exact (fit_row_coef _ _ _ _ _ _ _ _ Hrow Ha Hget Hv eq_refl).
    + split; [discriminate|]. unfold PolyFit.extract_fit in Hrow.
      destruct (PolyFit.try_fit polyfit (x :: t) heat_rate order points
                  (amin x t) (amax x t)) as [evs st] eqn:Etry.
      simpl in Hrow.
      apply (try_fit_params polyfit (x :: t) heat_rate order points
               (amin x t) (amax x t)).
      rewrite Etry. simpl.
      exact (fit_row_coef _ _ _ _ _ _ _ _ Hrow Ha Hget Hv).
  - intros Hcase. destruct load as [|x t].
    + rewrite extract_fit_empty.
      destruct (fit_row_no_fit [] points NaN NaN Hpoints)
        as [row [Hrow [_ [_ Hcoef]]]].
      exists row. simpl. auto.
    + destruct (fit_row_no_fit (x :: t) points (amin x t) (amax x t) Hpoints)
        as [row [Hrow [_ [_ Hcoef]]]].
      destruct Hcase as [Hnil|[[e He]|[fit [Hfit Hrank]]]]; [discriminate| |].
      * rewrite (extract_fit_raise _ _ _ _ _ x t e eq_refl He).
        exists row. simpl. auto.
      * rewrite (extract_fit_low_rank _ _ _ _ _ x t fit eq_refl Hfit Hrank).
        exists row. simpl. auto.
Qed.

(** Three equal loads: the Vandermonde matrix has rank 1 and the row comes
    back without coefficients. *)
Lemma extract_fit_accepts_by_rank_witness :
  exists row,
    snd (PolyFit.extract_fit polyfit_exact (map of_Z [3; 3; 3])
           (map of_Z [9; 10; 11]) 4 5) = Ok row /\
    forall a, In a PolyFit.coef_index -> series_get row a = Some NaN.
Proof.
  apply (proj2 (extract_fit_accepts_by_rank polyfit_exact (map of_Z [3; 3; 3])
                  (map of_Z [9; 10; 11]) 4 5 ltac:(lia))).
  right. right. eexists. split; [vm_compute; reflexivity|simpl; lia].
Defined.

Lemma poly_call_length (c xs : list fval) :
  length (poly_call c xs) = length xs.
Proof. unfold poly_call. apply length_map. Qed.

Lemma hr_labels_length (l : list string) :
  length (PolyFit.hr_labels l) = length l.
Proof. unfold PolyFit.hr_labels. apply length_map. Qed.

Lemma pd_Series_some (vs : list fval) (idx : list string) :
  length vs = length idx -> pd_Series (Some vs) idx = Ok (combine idx vs).
Proof. intros H. unfold pd_Series. now rewrite H, Nat.eqb_refl. Qed.

Lemma series_set_head (t : FSeries) (k : string) (v' v : fval) :
  series_set ((k, v') :: t) k v = (k, v) :: t.
Proof. simpl. now rewrite String.eqb_refl. Qed.

Lemma series_set_cons_other (t : FSeries) (k k' : string) (v' v : fval) :
  k' <> k -> series_set ((k', v') :: t) k v = (k', v') :: series_set t k v.
Proof.
  intros H. simpl. destruct (String.eqb k' k) eqn:E; [|reflexivity].
  apply String.eqb_eq in E. contradiction.
Qed.

(** The [load_min], [load_max], [total_load] and [min_gen_perc] entries
    written into the Series of load samples. *)
Lemma unit_load_layout (points : Z) (x0 lo hi total perc : fval)
    (mid : list fval) :
  length mid = Z.to_nat (points - 2) ->
  series_set
    (series_set
       (series_set
          (series_set
             (combine
                ("load_min" :: map load_label (py_range 2 points)
                 ++ ["load_max"])
                (x0 :: mid ++ [hi]))
             "load_min" lo)
          "load_max" hi)
       "total_load" total)
    "min_gen_perc" perc =
  (("load_min", lo) :: combine (map load_label (py_range 2 points)) mid
   ++ [("load_max", hi)])
  ++ [("total_load", total); ("min_gen_perc", perc)].
Proof.
  intros Hmid.
  assert (Hlen : length (map load_label (py_range 2 points)) = length mid).
  { rewrite length_map, py_range_length. lia. }
  cbn [combine]. rewrite combine_snoc by exact Hlen.
  set (M := combine (map load_label (py_range 2 points)) mid).
  assert (HM : map fst M = map load_label (py_range 2 points)).
  { unfold M. now apply map_fst_combine. }
  assert (Hnot : forall k, prefix "load_" k = false -> k <> "load_min" ->
            ~ In k (map fst ((("load_min", lo) :: M) ++ [("load_max", hi)]))).
  { intros k Hk Hk' Hin. rewrite map_app in Hin. cbn [map fst] in Hin.
    rewrite HM in Hin. apply in_app_or in Hin.
    destruct Hin as [[Hin|Hin]|[Hin|[]]].
    - congruence.
    - revert Hin. apply load_label_range_notin. now right.
    - subst k. discriminate. }
  rewrite series_set_head.
  rewrite series_set_cons_other by discriminate.
  rewrite series_set_app_notin
    by (rewrite HM; apply load_label_range_notin; left; reflexivity).
  rewrite series_set_head.
  change (("load_min", lo) :: M ++ [("load_max", hi)])
    with ((("load_min", lo) :: M) ++ [("load_max", hi)]).
  rewrite (series_set_notin _ "total_load")
    by (apply Hnot; [reflexivity|discriminate]).
  rewrite (series_set_app_notin _ _ "min_gen_perc")
    by (apply Hnot; [reflexivity|discriminate]).
  rewrite series_set_cons_other by discriminate. reflexivity.
Qed.

(** C6, counterexample.  At order 4 the row holds [total_load] and
    [min_gen_perc] before the heat-rate samples, not after them; and at
    order 3 an accepted fit (rank 4) has four coefficients for the five
    fixed names [a4 .. a0], so that no row is returned at all. *)
Lemma extract_fit_layout_not_as_claimed :
  (exists row,
     snd (PolyFit.extract_fit polyfit_exact five_loads five_heat_rates 4 5)
     = Ok row /\
     map fst row =
     ["a4"; "a3"; "a2"; "a1"; "a0";
      "load_min"; "load_2"; "load_3"; "load_4"; "load_max";
      "total_load"; "min_gen_perc";
      "heat_rate(load_min)"; "heat_rate(load_2)"; "heat_rate(load_3)";
      "heat_rate(load_4)"; "heat_rate(load_max)"]) /\
  claimed_labels 4 5 =
  ["a4"; "a3"; "a2"; "a1"; "a0";
   "load_min"; "load_2"; "load_3"; "load_4"; "load_max";
   "heat_rate(load_min)"; "heat_rate(load_2)"; "heat_rate(load_3)";
   "heat_rate(load_4)"; "heat_rate(load_max)";
   "total_load"; "min_gen_perc"] /\
  (exists fit,
     polyfit_exact five_loads five_heat_rates 3 = Ok fit /\
     fit_rank fit = 4 /\ length (fit_coef fit) = 4%nat) /\
  snd (PolyFit.extract_fit polyfit_exact five_loads five_heat_rates 3 5)
  = Raise ValueError.
Proof.
  split; [eexists; split; vm_compute; reflexivity|].
  split; [reflexivity|].
  split; [eexists; split; [vm_compute; reflexivity|split; reflexivity]|].
  reflexivity.
Qed.

(** C6, as the code has it.  At order 4 an accepted fit (rank above 1, five
    coefficients) with at least two points to save gives the row
    [a4 .. a0] (the coefficients in the order of [np.polyfit], highest
    power first), then the load samples with the first labelled [load_min]
    and the last [load_max] and holding the two bounds, then [total_load]
    (the summed load) and [min_gen_perc] ([load_min / load_max]), then the
    heat rates of the fitted polynomial at the load samples. *)
Theorem extract_fit_row_layout (polyfit : polyfit_fn) (x : fval)
    (t heat_rate : list fval) (points : Z) (fit : PolyfitFull)
    (Hfit : polyfit (x :: t) heat_rate 4 = Ok fit)
    (Hrank : 1 < fit_rank fit)
    (Hcoef : length (fit_coef fit) = 5%nat)
    (Hpoints : 2 <= points) :
  exists x0 mid,
    linspace (amin x t) (amax x t) points = Ok (x0 :: mid ++ [amax x t]) /\
    length mid = Z.to_nat (points - 2) /\
    snd (PolyFit.extract_fit polyfit (x :: t) heat_rate 4 points) =
    Ok (combine ["a4"; "a3"; "a2"; "a1"; "a0"] (fit_coef fit)
        ++ ((("load_min", amin x t)
             :: combine (map load_label (py_range 2 points)) mid
             ++ [("load_max", amax x t)])
            ++ [("total_load", np_sum (x :: t));
                ("min_gen_perc", fdiv (amin x t) (amax x t))])
        ++ combine (PolyFit.hr_labels (load_index points))
                   (poly_call (fit_coef fit) (x0 :: mid ++ [amax x t]))).
Proof.
  destruct (linspace_ends (amin x t) (amax x t) points Hpoints)
    as [x0 [mid [Hlin Hmid]]].
  exists x0, mid. split; [exact Hlin|]. split; [exact Hmid|].
  unfold PolyFit.extract_fit, PolyFit.try_fit.
  rewrite Hfit. destruct (1 <? fit_rank fit) eqn:E; [|lia].
  rewrite Hlin. cbn [snd]. unfold PolyFit.fit_row.
  cbn [PolyFit.fit_params PolyFit.load_range PolyFit.hr_range].
  rewrite pd_Series_some by exact Hcoef.
  rewrite load_labels_from_two by exact Hpoints.
  assert (Hlen : length (x0 :: mid ++ [amax x t]) = length (load_index points)).
  { unfold load_index. simpl. rewrite !length_app, length_map, py_range_length.
    simpl. lia. }
  cbn [bind]. fold (load_index points).
  rewrite pd_Series_some by exact Hlen.
  rewrite pd_Series_some
    by (now rewrite poly_call_length, hr_labels_length).
  cbn [bind]. unfold load_index at 1.
  rewrite (unit_load_layout points x0 (amin x t) (amax x t)) by exact Hmid.
  reflexivity.
Qed.

(** The five loads 1..5 with heat rates 10, 8, 7, 8, 10: rank 5, six
    points saved. *)
Lemma extract_fit_row_layout_witness :
  exists x0 mid,
    linspace (amin (Fin 1) (map of_Z [2; 3; 4; 5]))
             (amax (Fin 1) (map of_Z [2; 3; 4; 5])) 6 =
    Ok (x0 :: mid ++ [amax (Fin 1) (map of_Z [2; 3; 4; 5])]) /\
    length mid = Z.to_nat (6 - 2) /\
    snd (PolyFit.extract_fit polyfit_exact (Fin 1 :: map of_Z [2; 3; 4; 5])
           five_heat_rates 4 6) =
    Ok (combine ["a4"; "a3"; "a2"; "a1"; "a0"]
                [Fin (-1 # 12); Fin 1; Fin (-41 # 12); Fin (5 # 2); Fin 10]
        ++ ((("load_min", amin (Fin 1) (map of_Z [2; 3; 4; 5]))
             :: combine (map load_label (py_range 2 6)) mid
             ++ [("load_max", amax (Fin 1) (map of_Z [2; 3; 4; 5]))])
            ++ [("total_load", np_sum (Fin 1 :: map of_Z [2; 3; 4; 5]));
                ("min_gen_perc",
                 fdiv (amin (Fin 1) (map of_Z [2; 3; 4; 5]))
                      (amax (Fin 1) (map of_Z [2; 3; 4; 5])))])
        ++ combine (PolyFit.hr_labels (load_index 6))
                   (poly_call
                      [Fin (-1 # 12); Fin 1; Fin (-41 # 12); Fin (5 # 2);
                       Fin 10]
                      (x0 :: mid ++ [amax (Fin 1) (map of_Z [2; 3; 4; 5])]))).
Proof.
  apply (extract_fit_row_layout polyfit_exact (Fin 1)
           (map of_Z [2; 3; 4; 5]) five_heat_rates 6
           (mkFit [Fin (-1 # 12); Fin 1; Fin (-41 # 12); Fin (5 # 2);
                   Fin 10] 5)).
  - vm_compute. reflexivity.
  - simpl. lia.
  - reflexivity.
  - lia.
Defined.

(** ** Filter.filter_group *)




(** ** Floats *)

Lemma Qltb_lt (a b : Q) : Qltb a b = true <-> (a < b)%Q.
Proof.
  unfold Qltb. rewrite negb_true_iff. split.
  - intros H. apply Qnot_le_lt. intros Hle.
    apply Qle_bool_iff in Hle. congruence.
  - intros H. destruct (Qle_bool b a) eqn:E; [|reflexivity].
    apply Qle_bool_iff in E. exfalso. exact (Qlt_not_le _ _ H E).
Qed.

Lemma Qltb_ge (a b : Q) : Qltb a b = false <-> (b <= a)%Q.
Proof.
  unfold Qltb. rewrite negb_false_iff. apply Qle_bool_iff.
Qed.

Lemma flt_irrefl (x : fval) : flt x x = false.
Proof.
  destruct x; simpl; try reflexivity. apply Qltb_ge. apply Qle_refl.
Qed.

Lemma flt_asym (x y : fval) : flt x y = true -> flt y x = false.
Proof.
  destruct x, y; simpl; try reflexivity; try discriminate.
  rewrite Qltb_lt, Qltb_ge. apply Qlt_le_weak.
Qed.

(** On values that are not NaN, [x >= r] and [y < r] give [x >= y]. *)
Lemma flt_false_trans (x y r : fval) :
  flt x r = false -> flt y r = true -> flt x y = false.
Proof.
  destruct x, y, r; simpl; try reflexivity; try discriminate.
  rewrite !Qltb_ge, Qltb_lt. intros H1 H2.
  apply Qlt_le_weak. eapply Qlt_le_trans; eassumption.
Qed.

(** [z < r] and [x >= r] give [z < x] when [x] is a number. *)
Lemma flt_lt_le_trans (x z r : fval) :
  flt z r = true -> flt x r = false -> isnan x = false -> flt z x = true.
Proof.
  destruct x, z, r; simpl; try reflexivity; try discriminate.
  rewrite !Qltb_lt, Qltb_ge. intros H1 H2 _.
  eapply Qlt_le_trans; eassumption.
Qed.

Lemma fmin2_isnan (x y : fval) : isnan (fmin2 x y) = isnan x || isnan y.
Proof.
  destruct x, y; simpl; try reflexivity.
  destruct (Qltb q0 q); reflexivity.
Qed.

Lemma fmin2_choice (x y : fval) :
  isnan x = false -> isnan y = false ->
  fmin2 x y = (if flt y x then y else x).
Proof. destruct x, y; simpl; intros; try discriminate; reflexivity. Qed.

Lemma amin_nan (t : list fval) : amin NaN t = NaN.
Proof. unfold amin. induction t as [|y t IH]; simpl; [reflexivity|exact IH]. Qed.

(** [a.min()] of an array without NaN is one of its entries, and no entry
    is smaller; with a NaN in the array it is NaN. *)
Lemma amin_spec (x : fval) (t : list fval) :
  (existsb isnan (x :: t) = true -> amin x t = NaN) /\
  (existsb isnan (x :: t) = false ->
   In (amin x t) (x :: t) /\ forall y, In y (x :: t) -> flt y (amin x t) = false).
Proof.
  revert x. induction t as [|z t IH]; intros x.
  - simpl. split.
    + rewrite orb_false_r. destruct x; simpl; congruence.
    + intros _. split; [now left|]. intros y [<-|[]]. apply flt_irrefl.
  - change (amin x (z :: t)) with (amin (fmin2 x z) t).
    destruct (IH (fmin2 x z)) as [IHnan IHfin]. split.
    + intros H. apply IHnan. cbn [existsb] in *.
      now rewrite fmin2_isnan, <- orb_assoc.
    + intros H. cbn [existsb] in H.
      apply orb_false_elim in H. destruct H as [Hx H].
      apply orb_false_elim in H. destruct H as [Hz Ht].
      assert (Hm : fmin2 x z = if flt z x then z else x)
        by now apply fmin2_choice.
      destruct IHfin as [Hin Hle].
      { cbn [existsb]. now rewrite fmin2_isnan, Hx, Hz, Ht. }
      assert (Hle0 := Hle (fmin2 x z) (or_introl eq_refl)).
      destruct (flt z x) eqn:E; rewrite Hm in *.
      * split; [destruct Hin as [Hin|Hin]; [right; now left|now right; right]|].
        intros y [<-|[<-|Hy]]; [|exact Hle0|apply Hle; now right].
        destruct (flt x (amin z t)) eqn:E2; [|reflexivity].
        pose proof (flt_false_trans _ _ _ Hle0 E2) as H3.
        pose proof (flt_asym _ _ E). congruence.
      * split; [destruct Hin as [Hin|Hin]; [now left|now right; right]|].
        intros y [<-|[<-|Hy]]; [exact Hle0| |apply Hle; now right].
        destruct (flt z (amin x t)) eqn:E2; [|reflexivity].
        pose proof (flt_lt_le_trans _ _ _ E2 Hle0 Hx). congruence.
Qed.

Lemma inject_Z_nonzero (k : Z) : 0 < k -> Qeq_bool (inject_Z k) 0 = false.
Proof.
  intros H. destruct (Qeq_bool (inject_Z k) 0) eqn:E; [|reflexivity].
  apply Qeq_bool_eq in E. unfold Qeq in E. simpl in E. lia.
Qed.


(** ** FitFilter._get_hr_min *)

Lemma mapM_as_float (coefs : list fval) :
  mapM as_float (map CFloat coefs) = Ok coefs.
Proof.
  induction coefs as [|c coefs IH]; [reflexivity|].
  simpl. rewrite IH. reflexivity.
Qed.

Lemma existsb_isnull_floats (coefs : list fval) :
  existsb isnull (map CFloat coefs) = existsb isnan coefs.
Proof.
  induction coefs as [|c coefs IH]; [reflexivity|].
  simpl. rewrite IH. destruct c; reflexivity.
Qed.

(** The value of [_get_hr_min] on a row whose coefficient cells and bounds
    are floats. *)
Lemma get_hr_min_floats (unit : Series) (coefs : list fval) (lo hi : fval) :
  map snd (List.filter (fun kv => prefix "a" (fst kv)) unit) = map CFloat coefs ->
  series_loc unit "load_min" = Ok (CFloat lo) ->
  series_loc unit "load_max" = Ok (CFloat hi) ->
  exists xs y ys,
    linspace lo hi 100 = Ok xs /\ length xs = 100%nat /\
    poly_call coefs xs = y :: ys /\
    FitFilter._get_hr_min unit 100 =
    Ok (if existsb isnan coefs then None
        else if flt (amin y ys) (Fin (9 # 2)) then None
             else Some (amin y ys)).
Proof.
  intros Hc Hlo Hhi.
  destruct (linspace_ok lo hi 100 ltac:(lia)) as [xs Hxs].
  pose proof (linspace_length _ _ _ _ Hxs) as Hlen.
  change (Z.to_nat 100) with 100%nat in Hlen.
  destruct (poly_call coefs xs) as [|y ys] eqn:Ep.
  { apply (f_equal (@length fval)) in Ep.
    rewrite poly_call_length, Hlen in Ep. discriminate. }
  exists xs, y, ys. repeat split; try assumption.
  unfold FitFilter._get_hr_min. rewrite Hc, existsb_isnull_floats.
  destruct (existsb isnan coefs); [reflexivity|].
  cbn [negb]. rewrite Hlo, Hhi. cbn [bind as_float]. rewrite Hxs.
  cbn [bind]. rewrite mapM_as_float. cbn [bind]. rewrite Ep.
  cbn [np_min bind]. destruct (flt (amin y ys) (Fin (9 # 2))); reflexivity.
Qed.




(** ** Comparisons with a band edge [c * sqrt(v) + m] *)

Local Open Scope R_scope.




Local Close Scope R_scope.

(** ** Mean and variance of a population of numbers *)

Lemma fold_Qplus_acc (l : list Q) (a b : Q) :
  (a == b)%Q -> (fold_left Qplus l a == fold_left Qplus l b)%Q.
Proof.
  revert a b. induction l as [|x l IH]; intros a b H; simpl; [exact H|].
  apply IH. now rewrite H.
Qed.

Lemma fold_Qplus_shift (l : list Q) (a : Q) :
  (fold_left Qplus l a == a + fold_left Qplus l 0)%Q.
Proof.
  revert a. induction l as [|x l IH]; intros a; simpl.
  - now rewrite Qplus_0_r.
  - rewrite (IH (a + x)%Q), (IH (0 + x)%Q). ring.
Qed.

Lemma Qsum_cons (x : Q) (l : list Q) : (Qsum (x :: l) == x + Qsum l)%Q.
Proof.
  unfold Qsum. simpl. rewrite fold_Qplus_shift. ring.
Qed.

Lemma Qsum_map_ext (f g : Q -> Q) (l : list Q) :
  (forall x, (f x == g x)%Q) -> (Qsum (map f l) == Qsum (map g l))%Q.
Proof.
  intros H. induction l as [|x l IH]; [reflexivity|].
  cbn [map]. rewrite !Qsum_cons, IH, (H x). reflexivity.
Qed.

Lemma Qmean_map_ext (f g : Q -> Q) (l : list Q) :
  (forall x, (f x == g x)%Q) -> (Qmean (map f l) == Qmean (map g l))%Q.
Proof.
  intros H. unfold Qmean. rewrite !length_map.
  now rewrite (Qsum_map_ext f g l H).
Qed.

Lemma Qsum_nonneg (l : list Q) :
  (forall x, In x l -> (0 <= x)%Q) -> (0 <= Qsum l)%Q.
Proof.
  induction l as [|x l IH]; intros H.
  - apply Qle_refl.
  - rewrite Qsum_cons.
    replace 0%Q with (0 + 0)%Q by reflexivity.
    apply Qplus_le_compat; [apply H; now left|].
    apply IH. intros y Hy. apply H. now right.
Qed.

Lemma Qvar_nonneg (l : list Q) : (0 <= Qvar l)%Q.
Proof.
  unfold Qvar, Qmean at 1. apply Qmult_le_0_compat.
  - apply Qsum_nonneg. intros x Hx. apply in_map_iff in Hx.
    destruct Hx as [y [<- _]].
    destruct (Qlt_le_dec (y - Qmean l) 0) as [Hn|Hp].
    + setoid_replace ((y - Qmean l) * (y - Qmean l))%Q
        with ((- (y - Qmean l)) * (- (y - Qmean l)))%Q by ring.
      apply Qmult_le_0_compat;
        (apply (Qopp_le_compat (y - Qmean l) 0); now apply Qlt_le_weak).
    + now apply Qmult_le_0_compat.
  - apply Qinv_le_0_compat. unfold Qle. simpl. lia.
Qed.

Lemma np_sum_acc (l : list Q) (acc : Q) :
  exists r, fold_left fadd (map Fin l) (Fin acc) = Fin r /\
            (r == fold_left Qplus l acc)%Q.
Proof.
  revert acc. induction l as [|x l IH]; intros acc.
  - exists acc. split; reflexivity.
  - cbn [map fold_left fadd].
    destruct (IH (Qred (acc + x))) as [r [Hr Hq]].
    exists r. split; [exact Hr|]. rewrite Hq.
    apply fold_Qplus_acc. apply Qred_correct.
Qed.

Lemma np_mean_fin (l : list Q) :
  l <> [] ->
  exists m, FitFilter.np_mean (map Fin l) = Fin m /\ (m == Qmean l)%Q.
Proof.
  intros Hne. unfold FitFilter.np_mean, np_sum.
  destruct (np_sum_acc l 0) as [r [Hr Hq]]. rewrite Hr.
  rewrite length_map. unfold of_Z, fdiv.
  rewrite inject_Z_nonzero by (destruct l; [congruence|simpl; lia]).
  eexists. split; [reflexivity|].
  rewrite Qred_correct. unfold Qmean, Qsum. now rewrite Hq.
Qed.

Lemma np_var_fin (l : list Q) :
  l <> [] ->
  exists v, FitFilter.np_var (map Fin l) = Fin v /\ (v == Qvar l)%Q.
Proof.
  intros Hne. unfold FitFilter.np_var.
  destruct (np_mean_fin l Hne) as [m [Hm Hmq]]. rewrite Hm.
  rewrite map_map. cbn [fsub fneg fadd fmul].
  rewrite <- (map_map
                (fun q => Qred (Qred (q + - m) * Qred (q + - m))) Fin).
  destruct (np_mean_fin
              (map (fun q => Qred (Qred (q + - m) * Qred (q + - m))) l))
    as [v [Hv Hvq]].
  { destruct l; [congruence|discriminate]. }
  exists v. split; [exact Hv|]. rewrite Hvq. unfold Qvar.
  apply Qmean_map_ext.
  intros x. rewrite !Qred_correct, Hmq. unfold Qminus. reflexivity.
Qed.

(** ** FitFilter._min_hr_filter *)





Local Open Scope R_scope.




Local Close Scope R_scope.




(** ** Fit tables *)

Lemma mapM_map_ok {A B : Type} (f : A -> result B) (g : A -> B) (l : list A) :
  (forall a, In a l -> f a = Ok (g a)) -> mapM f l = Ok (map g l).
Proof.
  induction l as [|a l IH]; intros H; [reflexivity|].
  simpl. rewrite (H a) by now left. simpl.
  rewrite IH; [reflexivity|]. intros b Hb. apply H. now right.
Qed.

Lemma series_loc_has (s : Series) (k : string) :
  has_col k s = true -> exists v, series_loc s k = Ok v /\ In (k, v) s.
Proof.
  unfold has_col. induction s as [|[k' v] s IH]; simpl; [discriminate|].
  destruct (String.eqb k' k) eqn:E.
  - intros _. apply String.eqb_eq in E. subst k'. exists v. auto.
  - simpl. intros H. destruct (IH H) as [v' [Hv Hin]]. exists v'. auto.
Qed.

Lemma series_ok_floats (s : Series) :
  series_ok s = true ->
  exists coefs lo hi,
    map snd (List.filter (fun kv => prefix "a" (fst kv)) s) = map CFloat coefs /\
    series_loc s "load_min" = Ok (CFloat lo) /\
    series_loc s "load_max" = Ok (CFloat hi).
Proof.
  unfold series_ok. rewrite !andb_true_iff.
  intros [[[Hall _] Hlo] Hhi]. rewrite forallb_forall in Hall.
  assert (Hc : exists coefs,
            map snd (List.filter (fun kv => prefix "a" (fst kv)) s)
            = map CFloat coefs).
  { clear Hlo Hhi. induction s as [|[k v] s IH]; [now exists []|].
    destruct IH as [coefs Hcoefs]; [intros x Hx; apply Hall; now right|].
    cbn [List.filter fst]. destruct (prefix "a" k) eqn:E;
      [|now exists coefs].
    specialize (Hall (k, v) (or_introl eq_refl)). unfold numeric_col in Hall.
    cbn [fst snd] in Hall. rewrite E in Hall. simpl in Hall.
    destruct v as [f|]; [|discriminate].
    exists (f :: coefs). simpl. now rewrite Hcoefs. }
  destruct Hc as [coefs Hc].
  destruct (series_loc_has s _ Hlo) as [vlo [Hvlo Hinlo]].
  destruct (series_loc_has s _ Hhi) as [vhi [Hvhi Hinhi]].
  apply Hall in Hinlo, Hinhi. unfold numeric_col in Hinlo, Hinhi.
  cbn [fst snd] in Hinlo, Hinhi.
  destruct vlo as [lo|]; [|rewrite orb_true_r in Hinlo; discriminate].
  destruct vhi as [hi|]; [|rewrite orb_true_r in Hinhi; discriminate].
  exists coefs, lo, hi. auto.
Qed.

(** On a well-formed row [_get_hr_min] returns. *)
Lemma get_hr_min_total (s : Series) :
  series_ok s = true -> FitFilter._get_hr_min s 100 = Ok (hr_min_of s).
Proof.
  intros H. destruct (series_ok_floats s H) as [coefs [lo [hi [Hc [Hlo Hhi]]]]].
  destruct (get_hr_min_floats s coefs lo hi Hc Hlo Hhi)
    as [xs [y [ys [_ [_ [_ Hget]]]]]].
  unfold hr_min_of. now rewrite Hget.
Qed.

(** A row with a missing coefficient has no minimum. *)
Lemma get_hr_min_null (s : Series) :
  existsb (fun kv => prefix "a" (fst kv) && isnull (snd kv)) s = true ->
  FitFilter._get_hr_min s 100 = Ok None.
Proof.
  intros H. unfold FitFilter._get_hr_min.
  assert (Hn : existsb isnull
                 (map snd (List.filter (fun kv => prefix "a" (fst kv)) s))
               = true).
  { induction s as [|[k v] s IH]; [discriminate|].
    cbn [existsb fst snd] in H. cbn [List.filter fst].
    destruct (prefix "a" k) eqn:E.
    - cbn [map existsb snd]. simpl in H.
      destruct (isnull v); [reflexivity|]. simpl in *. now apply IH.
    - simpl in H. now apply IH. }
  now rewrite Hn.
Qed.

Lemma apply_rows_ok (ix : Indexed) :
  indexed_ok ix = true ->
  apply_rows (fun unit => FitFilter._get_hr_min unit 100) ix =
  Ok (map (fun r => (fst r, hr_min_of (combine (icolumns ix) (snd r))))
          (irows ix)).
Proof.
  intros H. unfold apply_rows. apply mapM_map_ok.
  intros r Hr. unfold indexed_ok in H. rewrite forallb_forall in H.
  specialize (H r Hr). unfold row_ok in H. apply andb_true_iff in H.
  destruct H as [_ H]. now rewrite (get_hr_min_total _ H).
Qed.

(** ** Frames: columns, index and cells *)

Lemma col_pos_some (name : string) (cols : list string) :
  existsb (String.eqb name) cols = true -> exists p, col_pos name cols = Some p.
Proof.
  induction cols as [|c cols IH]; simpl; [discriminate|].
  rewrite (String.eqb_sym name c). destruct (String.eqb c name).
  - intros _. now exists 0%nat.
  - simpl. intros H. destruct (IH H) as [p Hp]. rewrite Hp. now exists (S p).
Qed.

Lemma col_pos_none (name : string) (cols : list string) :
  existsb (String.eqb name) cols = false -> col_pos name cols = None.
Proof.
  induction cols as [|c cols IH]; simpl; [reflexivity|].
  rewrite (String.eqb_sym name c). destruct (String.eqb c name);
    [discriminate|].
  simpl. intros H. now rewrite (IH H).
Qed.

Lemma col_pos_nth (name : string) (cols : list string) (p : nat) :
  col_pos name cols = Some p -> nth_error cols p = Some name.
Proof.
  revert p. induction cols as [|c cols IH]; intros p; simpl; [discriminate|].
  destruct (String.eqb c name) eqn:E.
  - intros H. injection H as <-. apply String.eqb_eq in E. now subst.
  - destruct (col_pos name cols) as [q|]; [|discriminate].
    intros H. injection H as <-. simpl. now apply IH.
Qed.

Lemma length_remove_nth {A : Type} (p : nat) (l : list A) :
  (p < length l)%nat -> length (remove_nth p l) = (length l - 1)%nat.
Proof.
  revert l. induction p as [|p IH]; intros [|x l] H; simpl in *; try lia.
  rewrite IH by lia. lia.
Qed.

Lemma combine_remove_nth {A B : Type} (p : nat) (l : list A) (l' : list B) :
  combine (remove_nth p l) (remove_nth p l') = remove_nth p (combine l l').
Proof.
  revert l l'. induction p as [|p IH]; intros [|x l] [|y l']; simpl;
    try reflexivity.
  - now destruct l.
  - now rewrite IH.
Qed.

Lemma forallb_remove_nth {A : Type} (f : A -> bool) (p : nat) (l : list A) :
  forallb f l = true -> forallb f (remove_nth p l) = true.
Proof.
  revert l. induction p as [|p IH]; intros [|x l]; simpl; try reflexivity.
  - rewrite andb_true_iff. tauto.
  - rewrite !andb_true_iff. intros [H1 H2]. split; [exact H1|now apply IH].
Qed.

Lemma existsb_remove_nth {A : Type} (f : A -> bool) (p : nat) (l : list A)
    (x : A) :
  nth_error l p = Some x -> f x = false ->
  existsb f (remove_nth p l) = existsb f l.
Proof.
  revert l. induction p as [|p IH]; intros [|y l]; simpl; try discriminate.
  - intros H Hf. injection H as ->. now rewrite Hf.
  - intros H Hf. now rewrite (IH l H Hf).
Qed.

Lemma nth_error_combine (cols : list string) (r : list cell) (p : nat)
    (c : string) :
  nth_error cols p = Some c -> length r = length cols ->
  nth_error (combine cols r) p = Some (c, nth p r missing).
Proof.
  revert cols r. induction p as [|p IH]; intros [|c0 cols] [|x r]; simpl;
    try discriminate.
  - intros H _. now injection H as ->.
  - intros H Hl. apply IH; [exact H|lia].
Qed.

(** The cell of a row under the first column called [name]. *)
Lemma series_loc_pos (name : string) (cols : list string) (r : list cell)
    (p : nat) :
  col_pos name cols = Some p -> length r = length cols ->
  series_loc (combine cols r) name = Ok (nth p r missing).
Proof.
  revert r p. induction cols as [|c cols IH]; intros r p; simpl;
    [discriminate|].
  destruct r as [|x r]; [discriminate|]. simpl.
  destruct (String.eqb c name).
  - intros H _. now injection H as <-.
  - destruct (col_pos name cols) as [q|] eqn:E; [|discriminate].
    intros H Hl. injection H as <-. simpl. apply IH; [reflexivity|lia].
Qed.

(** Taking the column [name] out of a row leaves the other cells. *)
Lemma series_loc_remove (name c : string) (cols : list string)
    (r : list cell) (p : nat) :
  col_pos name cols = Some p -> c <> name ->
  series_loc (combine (remove_nth p cols) (remove_nth p r)) c =
  series_loc (combine cols r) c.
Proof.
  intros Hp Hc. revert r p Hp.
  induction cols as [|c0 cols IH]; intros r p; simpl; [discriminate|].
  destruct (String.eqb c0 name) eqn:E.
  - intros H. injection H as <-. apply String.eqb_eq in E. subst c0.
    destruct r as [|x r]; simpl.
    + now destruct cols.
    + destruct (String.eqb name c) eqn:E'; [|reflexivity].
      apply String.eqb_eq in E'. congruence.
  - destruct (col_pos name cols) as [q|] eqn:Eq; [|discriminate].
    intros H. injection H as <-. destruct r as [|x r]; simpl.
    + now destruct (remove_nth q cols).
    + destruct (String.eqb c0 c); [reflexivity|]. now apply IH.
Qed.

Lemma series_ok_remove (name : string) (cols : list string) (r : list cell)
    (p : nat) :
  col_pos name cols = Some p -> length r = length cols ->
  numeric_col name = false -> String.eqb name "a0" = false ->
  series_ok (combine cols r) = true ->
  series_ok (combine (remove_nth p cols) (remove_nth p r)) = true.
Proof.
  intros Hp Hl Hnum Ha0. rewrite combine_remove_nth.
  pose proof (nth_error_combine cols r p name (col_pos_nth _ _ _ Hp) Hl) as Hn.
  unfold series_ok, has_col. rewrite !andb_true_iff.
  intros [[[H1 H2] H3] H4].
  unfold numeric_col in Hnum. apply orb_false_elim in Hnum.
  destruct Hnum as [Hnum Hmax]. apply orb_false_elim in Hnum.
  destruct Hnum as [_ Hmin].
  rewrite !(existsb_remove_nth _ p _ _ Hn) by assumption.
  repeat split; try assumption. now apply forallb_remove_nth.
Qed.

Lemma row_ok_remove (name : string) (cols : list string) (r : list cell)
    (p : nat) :
  col_pos name cols = Some p ->
  numeric_col name = false -> String.eqb name "a0" = false ->
  row_ok cols r = true ->
  row_ok (remove_nth p cols) (remove_nth p r) = true.
Proof.
  intros Hp Hnum Ha0. unfold row_ok. rewrite !andb_true_iff.
  intros [Hl Hs]. apply Nat.eqb_eq in Hl.
  assert (Hlt : (p < length cols)%nat).
  { apply nth_error_Some. rewrite (col_pos_nth _ _ _ Hp). discriminate. }
  split.
  - apply Nat.eqb_eq. rewrite !length_remove_nth by lia. lia.
  - now apply (series_ok_remove name).
Qed.

(** [set_index('unit_id')] on a fit table. *)
Lemma set_index_unit_id (df : DataFrame) :
  fit_table_ok df = true ->
  exists p,
    col_pos "unit_id" (columns df) = Some p /\
    set_index df "unit_id" =
    Ok (mkIdx "unit_id" (remove_nth p (columns df))
              (map (fun r => (nth p r missing, remove_nth p r)) (rows df))) /\
    indexed_ok
      (mkIdx "unit_id" (remove_nth p (columns df))
             (map (fun r => (nth p r missing, remove_nth p r)) (rows df)))
    = true.
Proof.
  unfold fit_table_ok. rewrite andb_true_iff. intros [Hcol Hrows].
  destruct (col_pos_some _ _ Hcol) as [p Hp]. exists p.
  split; [exact Hp|]. split; [unfold set_index; now rewrite Hp|].
  unfold indexed_ok. cbn [irows icolumns]. rewrite forallb_forall in *.
  intros r Hr. apply in_map_iff in Hr. destruct Hr as [r0 [<- Hr0]].
  cbn [snd]. apply (row_ok_remove "unit_id"); auto.
Qed.

(** ** Rejection on an indexed frame *)

Lemma combine_map_l (cols : list string) (f : string * cell -> cell)
    (r : list cell) :
  combine cols (map f (combine cols r)) =
  map (fun cv => (fst cv, f cv)) (combine cols r).
Proof.
  revert r. induction cols as [|c cols IH]; intros [|x r]; simpl;
    try reflexivity.
  now rewrite IH.
Qed.

Lemma series_loc_map (f : string * cell -> cell) (s : Series) (c : string) :
  series_loc (map (fun cv => (fst cv, f cv)) s) c =
  match series_loc s c with
  | Ok v => Ok (f (c, v))
  | Raise e => Raise e
  end.
Proof.
  induction s as [|[k v] s IH]; simpl; [reflexivity|].
  destruct (String.eqb k c) eqn:E; [|exact IH].
  apply String.eqb_eq in E. now subst.
Qed.

Lemma series_loc_in (cols : list string) (r : list cell) (c : string) :
  In c cols -> length r = length cols ->
  exists v, series_loc (combine cols r) c = Ok v.
Proof.
  revert r. induction cols as [|c0 cols IH]; intros r; simpl; [tauto|].
  destruct r as [|x r]; [discriminate|]. simpl. intros Hin Hl.
  destruct (String.eqb c0 c) eqn:E; [now exists x|].
  destruct Hin as [->|Hin]; [now rewrite String.eqb_refl in E|].
  apply IH; [exact Hin|lia].
Qed.

Lemma existsb_filter_cols (c : string) (cols : list string) :
  In c cols ->
  existsb (String.eqb c) (List.filter FitFilter.is_filter_col cols) =
  FitFilter.is_filter_col c.
Proof.
  intros Hin. destruct (FitFilter.is_filter_col c) eqn:E.
  - apply existsb_exists. exists c. split; [|apply String.eqb_refl].
    apply filter_In. auto.
  - destruct (existsb _ _) eqn:E'; [|reflexivity].
    apply existsb_exists in E'. destruct E' as [x [Hx Heq]].
    apply String.eqb_eq in Heq. subst x. apply filter_In in Hx.
    destruct Hx. congruence.
Qed.

(** The cells of a cleared row. *)
Lemma series_loc_null_cells (cols : list string) (r : list cell) (c : string) :
  In c cols -> length r = length cols ->
  series_loc
    (combine cols
       (null_cells cols (List.filter FitFilter.is_filter_col cols) r)) c =
  if FitFilter.is_filter_col c then Ok missing
  else series_loc (combine cols r) c.
Proof.
  intros Hin Hl. unfold null_cells. rewrite combine_map_l, series_loc_map.
  destruct (series_loc_in cols r c Hin Hl) as [v Hv]. rewrite Hv.
  cbn [fst snd]. rewrite existsb_filter_cols by exact Hin.
  now destruct (FitFilter.is_filter_col c).
Qed.


Lemma remove_nth_in {A : Type} (p : nat) (l : list A) (x y : A) :
  nth_error l p = Some y -> In x l -> x <> y -> In x (remove_nth p l).
Proof.
  revert l. induction p as [|p IH]; intros [|z l]; simpl; try discriminate.
  - intros H [->|Hin] Hne; [congruence|exact Hin].
  - intros H [->|Hin] Hne; [now left|right; now apply IH].
Qed.

Lemma remove_nth_incl {A : Type} (p : nat) (l : list A) (x : A) :
  In x (remove_nth p l) -> In x l.
Proof.
  revert l. induction p as [|p IH]; intros [|z l]; simpl; try tauto.
  intros [->|Hin]; [now left|right; now apply IH].
Qed.

Lemma is_filter_col_unit_id : FitFilter.is_filter_col "unit_id" = false.
Proof. reflexivity. Qed.

(** The frame after [set_index('unit_id')], clearing the rows labelled in
    [failed], and [reset_index()]. *)
Lemma reset_index_frame (df : DataFrame) (p : nat) (failed : list cell) :
  col_pos "unit_id" (columns df) = Some p ->
  (forall r, In r (rows df) -> length r = length (columns df)) ->
  frame_effect df
    (reset_index
       (loc_set_none
          (mkIdx "unit_id" (remove_nth p (columns df))
             (map (fun r => (nth p r missing, remove_nth p r)) (rows df)))
          failed
          (List.filter FitFilter.is_filter_col (remove_nth p (columns df)))))
    (fun uid => existsb (cell_eqb uid) failed).
Proof.
  intros Hp Hlen.
  pose proof (col_pos_nth _ _ _ Hp) as Hnth.
  assert (Hlt : (p < length (columns df))%nat)
    by (apply nth_error_Some; rewrite Hnth; discriminate).
  unfold frame_effect, reset_index.
  cbn [rows columns index_name icolumns loc_set_none irows].
  split; [now rewrite !length_map|]. split.
  - intros c. simpl. split.
    + intros [<-|Hin]; [eapply nth_error_In; eassumption|].
      eapply remove_nth_incl; eassumption.
    + intros Hin. destruct (string_dec c "unit_id") as [->|Hne]; [now left|].
      right. eapply remove_nth_in; eassumption.
  - intros i row Hrow.
    assert (Hl : length row = length (columns df))
      by (apply Hlen; eapply nth_error_In; eassumption).
    rewrite !map_map. erewrite map_nth_error by exact Hrow.
    cbn [fst snd]. eexists. exists (nth p row missing).
    split; [reflexivity|]. split; [now apply series_loc_pos|].
    intros c Hc.
    destruct (existsb (cell_eqb (nth p row missing)) failed) eqn:Ef;
      cbn [fst snd combine series_loc andb].
    + destruct (String.eqb "unit_id" c) eqn:E.
      * apply String.eqb_eq in E. subst c.
        rewrite is_filter_col_unit_id. symmetry. now apply series_loc_pos.
      * assert (Hne : c <> "unit_id")
          by (intros ->; now rewrite String.eqb_refl in E).
        pose proof (series_loc_null_cells (remove_nth p (columns df))
                      (remove_nth p row) c) as Hn.
        unfold null_cells in Hn. rewrite Hn.
        -- destruct (FitFilter.is_filter_col c); [reflexivity|].
           now apply (series_loc_remove "unit_id").
        -- eapply remove_nth_in; eassumption.
        -- rewrite !length_remove_nth by lia. lia.
    + destruct (String.eqb "unit_id" c) eqn:E.
      * apply String.eqb_eq in E. subst c. symmetry.
        now apply series_loc_pos.
      * apply (series_loc_remove "unit_id"); [exact Hp|].
        intros ->. now rewrite String.eqb_refl in E.
Qed.

Lemma fit_table_rows (df : DataFrame) :
  fit_table_ok df = true ->
  forall r, In r (rows df) -> length r = length (columns df).
Proof.
  unfold fit_table_ok. rewrite andb_true_iff. intros [_ H] r Hr.
  rewrite forallb_forall in H. specialize (H r Hr). unfold row_ok in H.
  apply andb_true_iff in H. destruct H as [H _]. now apply Nat.eqb_eq.
Qed.

(** [_filter] on a fit table, step by step. *)
Lemma filter_steps (df : DataFrame) (kw : FitFilter.kwargs) :
  fit_table_ok df = true -> FitFilter.kw_cut_off kw = None ->
  exists p,
    col_pos "unit_id" (columns df) = Some p /\
    FitFilter._filter df kw =
    Ok (reset_index
          (loc_set_none
             (mkIdx "unit_id" (remove_nth p (columns df))
                (map (fun r => (nth p r missing, remove_nth p r)) (rows df)))
             (FitFilter._min_hr_filter
                (dropna
                   (row_minima
                      (mkIdx "unit_id" (remove_nth p (columns df))
                         (map (fun r => (nth p r missing, remove_nth p r))
                              (rows df)))))
                (FitFilter.default (FitFilter.kw_stdev_multiplier kw) 2%Q)
                (FitFilter.default (FitFilter.kw_threshold kw) (None, None)))
             (List.filter FitFilter.is_filter_col
                (remove_nth p (columns df))))).
Proof.
  intros Hok Hkw. destruct (set_index_unit_id df Hok) as [p [Hp [Hset Hix]]].
  exists p. split; [exact Hp|]. unfold FitFilter._filter.
  rewrite Hset. cbn [bind]. rewrite (apply_rows_ok _ Hix). cbn [bind].
  now rewrite Hkw.
Qed.

(** ** Combined-cycle tables *)

Lemma col_pos_app_new (name : string) (cols : list string) :
  col_pos name cols = None -> col_pos name (cols ++ [name]) = Some (length cols).
Proof.
  induction cols as [|c cols IH]; simpl.
  - now rewrite String.eqb_refl.
  - destruct (String.eqb c name); [discriminate|].
    destruct (col_pos name cols); [discriminate|].
    intros _. now rewrite IH.
Qed.

Lemma remove_nth_snoc {A : Type} (l : list A) (x : A) :
  remove_nth (length l) (l ++ [x]) = l.
Proof. induction l as [|a l IH]; simpl; [reflexivity|now rewrite IH]. Qed.

Lemma combine_map_r {A B : Type} (f : A -> B) (l : list A) :
  combine l (map f l) = map (fun a => (a, f a)) l.
Proof. induction l as [|a l IH]; simpl; [reflexivity|now rewrite IH]. Qed.

(** [_filer_CCs] on a CC fit table, step by step. *)
Lemma filer_CCs_steps (df : DataFrame) (kw : FitFilter.kwargs) :
  cc_table_ok df = true -> FitFilter.kw_threshold kw = None ->
  exists p,
    col_pos "unit_id" (columns df) = Some p /\
    indexed_ok (cc_indexed df p) = true /\
    FitFilter._filer_CCs df kw =
    Ok (reset_index_drop
          (loc_set_none (cc_indexed df p)
             (FitFilter._min_hr_filter
                (FitFilter.groupby_min (dropna (row_minima (cc_indexed df p))))
                (FitFilter.default (FitFilter.kw_stdev_multiplier kw) 2%Q)
                (None, Some (FitFilter.default (FitFilter.kw_cut_off kw) 9%Q)))
             (List.filter FitFilter.is_filter_col (columns df)))).
Proof.
  unfold cc_table_ok. rewrite !andb_true_iff, negb_true_iff.
  intros [[Hok Hcc] Hstr] Hkw.
  pose proof (fit_table_rows df Hok) as Hlen.
  destruct (set_index_unit_id df Hok) as [p [Hp _]].
  exists p. split; [exact Hp|].
  assert (Hix : indexed_ok (cc_indexed df p) = true).
  { unfold indexed_ok, cc_indexed. cbn [irows icolumns].
    rewrite forallb_forall. intros r Hr. apply in_map_iff in Hr.
    destruct Hr as [r0 [<- Hr0]]. cbn [snd].
    unfold fit_table_ok in Hok. apply andb_true_iff in Hok.
    destruct Hok as [_ Hok]. rewrite forallb_forall in Hok. now apply Hok. }
  split; [exact Hix|].
  unfold FitFilter._filer_CCs, get_column. rewrite Hp. cbn [bind].
  rewrite (mapM_map_ok _ cc_key).
  2:{ intros a Ha. apply in_map_iff in Ha. destruct Ha as [r [<- Hr]].
      rewrite forallb_forall in Hstr. specialize (Hstr r Hr).
      rewrite (series_loc_pos _ _ _ _ Hp (Hlen r Hr)) in Hstr.
      destruct (nth p r missing); [discriminate|reflexivity]. }
  cbn [bind]. unfold assign_column. rewrite (col_pos_none _ _ Hcc).
  unfold set_index. cbn [columns rows].
  rewrite (col_pos_app_new _ _ (col_pos_none _ _ Hcc)).
  rewrite remove_nth_snoc, (map_map _ cc_key), combine_map_r, !map_map.
  cbn [fst snd].
  assert (Hrows :
    map (fun x : list cell =>
           (nth (length (columns df)) (x ++ [cc_key (nth p x missing)]) missing,
            remove_nth (length (columns df))
              (x ++ [cc_key (nth p x missing)])))
        (rows df)
    = map (fun r => (cc_key (nth p r missing), r)) (rows df)).
  { apply map_ext_in. intros r Hr. rewrite <- (Hlen r Hr).
    now rewrite nth_middle, remove_nth_snoc. }
  rewrite Hrows. fold (cc_indexed df p). cbn [bind].
  rewrite (apply_rows_ok _ Hix). cbn [bind]. now rewrite Hkw.
Qed.

(** The frame after clearing the rows whose [cc_id] is in [failed] and
    [reset_index(drop=True)]. *)
Lemma reset_index_drop_frame (df : DataFrame) (p : nat) (failed : list cell) :
  col_pos "unit_id" (columns df) = Some p ->
  (forall r, In r (rows df) -> length r = length (columns df)) ->
  frame_effect df
    (reset_index_drop
       (loc_set_none (cc_indexed df p) failed
          (List.filter FitFilter.is_filter_col (columns df))))
    (fun uid => existsb (cell_eqb (cc_key uid)) failed).
Proof.
  intros Hp Hlen. unfold frame_effect, reset_index_drop, cc_indexed.
  cbn [rows columns index_name icolumns loc_set_none irows].
  split; [now rewrite !length_map|]. split; [tauto|].
  intros i row Hrow.
  assert (Hl : length row = length (columns df))
    by (apply Hlen; eapply nth_error_In; eassumption).
  rewrite !map_map. erewrite map_nth_error by exact Hrow.
  cbn [fst snd]. eexists. exists (nth p row missing).
  split; [reflexivity|]. split; [now apply series_loc_pos|].
  intros c Hc.
  destruct (existsb (cell_eqb (cc_key (nth p row missing))) failed);
    cbn [fst snd andb]; [|reflexivity].
  pose proof (series_loc_null_cells (columns df) row c Hc Hl) as Hn.
  unfold null_cells in Hn. exact Hn.
Qed.


(** ** A second application of [_filter] *)

Lemma fval_eqb_refl (x : fval) : fval_eqb x x = true.
Proof.
  destruct x; simpl; try reflexivity. apply Qeq_bool_iff. apply Qeq_refl.
Qed.

Lemma cell_eqb_refl (c : cell) : cell_eqb c c = true.
Proof.
  destruct c; simpl; [apply fval_eqb_refl|apply String.eqb_refl].
Qed.












(** ** Example tables *)

Lemma example_tables_ok :
  fit_table_ok ten_units = true /\ fit_table_ok many_units = true /\
  cc_table_ok cc_dash = true /\ cc_table_ok cc_underscore = true.
Proof. repeat split; vm_compute; reflexivity. Qed.

(** ** Rejection, applied once and twice *)





(** ** The population test of [FitFilter.filter] *)

(** A group with at most [min_units] fitted rows is passed through: the
    store read from is left as it is, and the table is copied to the output
    store when there is one. *)
Lemma filter_step_skips (min_units : Z) (kw : FitFilter.kwargs)
    (hr_fits : FitFilter.Fits) (out_fits : option FitFilter.Fits)
    (g_type : string) (group_df : DataFrame) (n : Z) :
  FitFilter.fits_get hr_fits g_type = Ok group_df ->
  FitFilter.fit_units group_df = Ok n -> n <= min_units ->
  FitFilter.filter_step min_units kw (hr_fits, out_fits) g_type =
  Ok (hr_fits,
      match out_fits with
      | Some out => Some (FitFilter.fits_set out g_type group_df)
      | None => None
      end).
Proof.
  intros Hget Hn Hle. unfold FitFilter.filter_step. rewrite Hget. cbn [bind].
  rewrite Hn. cbn [bind]. destruct (min_units <? n) eqn:E; [lia|].
  now destruct out_fits.
Qed.

(** C5.  A group with fewer fitted rows than [min_units] is passed through
    unchanged, and so is a group with exactly [min_units] of them: the test
    is [fit_units > min_units].  The table [many_units] has 150 rows, 100
    of them with a fit; with the default [min_units = 100] it is skipped,
    although rejection would clear the unit at heat rate 100 (row 99), as
    it does with [min_units = 99], where the population is the 100 defined
    minima. *)
Theorem filter_skips_at_min_units :
  (forall min_units kw hr_fits g_type group_df n,
     FitFilter.fits_get hr_fits g_type = Ok group_df ->
     FitFilter.fit_units group_df = Ok n -> n <= min_units ->
     FitFilter.filter_step min_units kw (hr_fits, None) g_type =
     Ok (hr_fits, None)) /\
  length (rows many_units) = 150%nat /\
  FitFilter.fit_units many_units = Ok 100 /\
  FitFilter.filter [("CT (NG)", many_units)] None 100 FitFilter.no_kwargs
  = Ok ([("CT (NG)", many_units)], None) /\
  length (dropna (row_minima (unit_indexed many_units 0))) = 100%nat /\
  exists rejected,
    FitFilter._filter many_units FitFilter.no_kwargs = Ok rejected /\
    series_loc (combine (columns many_units) (nth 99 (rows many_units) []))
      "a0" = Ok (CFloat (Fin 100)) /\
    series_loc (combine (columns rejected) (nth 99 (rows rejected) [])) "a0"
    = Ok missing /\
    FitFilter.filter [("CT (NG)", many_units)] None 99 FitFilter.no_kwargs
    = Ok ([("CT (NG)", rejected)], None).
Proof.
  split.
  { intros min_units kw hr_fits g_type group_df n Hget Hn Hle.
    now rewrite (filter_step_skips _ _ _ None _ _ _ Hget Hn Hle). }
  split; [reflexivity|]. split; [vm_compute; reflexivity|].
  split; [vm_compute; reflexivity|]. split; [vm_compute; reflexivity|].
  eexists. split; [vm_compute; reflexivity|].
  repeat split; vm_compute; reflexivity.
Qed.

(** ** Aggregation by [cc_id] *)

Lemma fval_eqb_trans (x y z : fval) :
  fval_eqb x y = true -> fval_eqb y z = true -> fval_eqb x z = true.
Proof.
  destruct x, y, z; simpl; try congruence.
  rewrite !Qeq_bool_iff. apply Qeq_trans.
Qed.

Lemma cell_eqb_trans (x y z : cell) :
  cell_eqb x y = true -> cell_eqb y z = true -> cell_eqb x z = true.
Proof.
  destruct x, y, z; simpl; try congruence.
  - apply fval_eqb_trans.
  - rewrite !String.eqb_eq. congruence.
Qed.

Lemma insert_label_in (k x : cell) (l : list cell) :
  In x (FitFilter.insert_label k l) <-> x = k \/ In x l.
Proof.
  induction l as [|y l IH]; simpl; [intuition|].
  destruct (FitFilter.label_leb k y); simpl; [intuition|].
  rewrite IH. intuition.
Qed.

Lemma sorted_labels_in (x : cell) (l : list cell) :
  In x (fold_right FitFilter.insert_label [] l) <-> In x l.
Proof.
  induction l as [|y l IH]; simpl; [tauto|].
  rewrite insert_label_in, IH. intuition.
Qed.

Lemma dedup_incl (x : cell) (l : list cell) :
  In x (FitFilter.dedup l) -> In x l.
Proof.
  induction l as [|y l IH]; simpl; [tauto|].
  intros [->|H]; [now left|]. apply filter_In in H. right. now apply IH.
Qed.

Lemma dedup_covers (x : cell) (l : list cell) :
  In x l -> exists k, In k (FitFilter.dedup l) /\ cell_eqb k x = true.
Proof.
  induction l as [|y l IH]; simpl; [tauto|].
  intros [->|H].
  - exists x. split; [now left|apply cell_eqb_refl].
  - destruct (IH H) as [k [Hk Hkx]].
    destruct (cell_eqb y k) eqn:E.
    + exists y. split; [now left|]. now apply (cell_eqb_trans y k x).
    + exists k. split; [|exact Hkx]. right. apply filter_In.
      split; [exact Hk|]. now rewrite E.
Qed.

(** The entries of [groupby(key).min()]. *)
Lemma groupby_min_in (s : list (cell * fval)) (k : cell) (m : fval) :
  In (k, m) (FitFilter.groupby_min s) <->
  In k (FitFilter.dedup (map fst s)) /\
  exists v vs,
    map snd (List.filter (fun lv => cell_eqb k (fst lv)) s) = v :: vs /\
    m = amin v vs.
Proof.
  unfold FitFilter.groupby_min. rewrite in_flat_map. split.
  - intros [k' [Hk' Hin]]. apply (proj1 (sorted_labels_in _ _)) in Hk'.
    destruct (map snd (List.filter (fun lv => cell_eqb k' (fst lv)) s))
      as [|v vs] eqn:E; [contradiction|].
    destruct Hin as [Hin|[]]. injection Hin as -> <-.
    split; [exact Hk'|]. now exists v, vs.
  - intros [Hk [v [vs [Hv ->]]]]. exists k.
    split; [now apply (proj2 (sorted_labels_in _ _))|]. rewrite Hv. now left.
Qed.

Lemma dropna_not_nan (s : list (cell * option fval)) (l : cell) (v : fval) :
  In (l, v) (dropna s) -> isnan v = false.
Proof.
  induction s as [|[l' [v'|]] s IH]; simpl; [tauto| |exact IH].
  destruct (isnan v') eqn:E; [exact IH|].
  intros [H|H]; [congruence|now apply IH].
Qed.

(** The representative minimum of a CC unit is the minimum over the minima
    of its rows, and every row with a minimum has a representative. *)
Lemma groupby_min_representative (mins : list (cell * option fval)) :
  (forall k m, In (k, m) (FitFilter.groupby_min (dropna mins)) ->
     exists v vs,
       map snd (List.filter (fun lv => cell_eqb k (fst lv)) (dropna mins))
       = v :: vs /\
       m = amin v vs /\ In m (v :: vs) /\
       forall y, In y (v :: vs) -> flt y m = false) /\
  (forall l v, In (l, v) (dropna mins) ->
     exists k m, cell_eqb k l = true /\
                 In (k, m) (FitFilter.groupby_min (dropna mins))).
Proof.
  split.
  - intros k m Hin. apply groupby_min_in in Hin.
    destruct Hin as [_ [v [vs [Hv ->]]]]. exists v, vs.
    split; [exact Hv|]. split; [reflexivity|].
    apply (proj2 (amin_spec v vs)).
    destruct (existsb isnan (v :: vs)) eqn:E; [|reflexivity].
    apply existsb_exists in E. destruct E as [y [Hy Hnan]].
    rewrite <- Hv in Hy. apply in_map_iff in Hy.
    destruct Hy as [[l y'] [Hy' Hin]]. cbn [snd] in Hy'. subst y'.
    apply filter_In in Hin. destruct Hin as [Hin _].
    apply dropna_not_nan in Hin. congruence.
  - intros l v Hin.
    destruct (dedup_covers l (map fst (dropna mins))) as [k [Hk Hkl]].
    { apply in_map_iff. now exists (l, v). }
    destruct (map snd (List.filter (fun lv => cell_eqb k (fst lv))
                         (dropna mins))) as [|v0 vs] eqn:E.
    + exfalso. assert (Hm : In v (map snd
                 (List.filter (fun lv => cell_eqb k (fst lv)) (dropna mins)))).
      { apply in_map_iff. exists (l, v). split; [reflexivity|].
        apply filter_In. split; assumption. }
      rewrite E in Hm. contradiction.
    + exists k, (amin v0 vs). split; [exact Hkl|].
      apply groupby_min_in. split; [exact Hk|]. now exists v0, vs.
Qed.




(* ================================================================== *)
(** * Further properties of the three classes *)

(** ** Filter.filter_group: order, content and failure *)

Lemma row_leb_le (a b : Filter.cems_row) :
  Filter.row_leb a b = true -> row_le a b.
Proof.
  unfold Filter.row_leb, row_le.
  destruct (String.compare (Filter.unit_id a) (Filter.unit_id b)) eqn:E;
    [|now left|discriminate].
  intros H. right. split; [now apply String.compare_eq_iff|lia].
Qed.

Lemma row_leb_total (a b : Filter.cems_row) :
  Filter.row_leb a b = false -> row_le b a.
Proof.
  unfold Filter.row_leb, row_le.
  rewrite (String.compare_antisym (Filter.unit_id b) (Filter.unit_id a)).
  destruct (String.compare (Filter.unit_id a) (Filter.unit_id b)) eqn:E;
    [|discriminate|now left].
  intros H. right. apply String.compare_eq_iff in E. split; [now symmetry|lia].
Qed.

Lemma row_le_trans (a b c : Filter.cems_row) :
  row_le a b -> row_le b c -> row_le a c.
Proof.
  unfold row_le. intros [H1|[E1 T1]] [H2|[E2 T2]].
  - left. apply String_as_OT.cmp_lt in H1, H2. apply String_as_OT.cmp_lt.
    eapply String_as_OT.lt_trans; eassumption.
  - left. now rewrite <- E2.
  - left. now rewrite E1.
  - right. split; [congruence|lia].
Qed.

Lemma insert_row_perm (r : Filter.cems_row) (l : list Filter.cems_row) :
  Permutation (r :: l) (Filter.insert_row r l).
Proof.
  induction l as [|x l IH]; [apply Permutation_refl|].
  cbn [Filter.insert_row]. destruct (Filter.row_leb r x).
  - apply Permutation_refl.
  - eapply perm_trans; [apply perm_swap|]. now apply perm_skip.
Qed.

Lemma sort_rows_perm (l : list Filter.cems_row) :
  Permutation l (Filter.sort_rows l).
Proof.
  induction l as [|x l IH]; [apply perm_nil|].
  cbn [Filter.sort_rows fold_right]. fold (Filter.sort_rows l).
  eapply perm_trans; [|apply insert_row_perm]. now apply perm_skip.
Qed.

Lemma insert_row_sorted (r : Filter.cems_row) (l : list Filter.cems_row) :
  StronglySorted row_le l -> StronglySorted row_le (Filter.insert_row r l).
Proof.
  induction 1 as [|x l Hs IH Hx]; [repeat constructor|].
  cbn [Filter.insert_row]. destruct (Filter.row_leb r x) eqn:E.
  - apply row_leb_le in E. constructor; [now constructor|].
    constructor; [exact E|].
    eapply Forall_impl; [|exact Hx]. intros y Hy.
    eapply row_le_trans; eassumption.
  - apply row_leb_total in E. constructor; [exact IH|].
    eapply Permutation_Forall; [apply insert_row_perm|].
    now constructor.
Qed.

Lemma sort_rows_sorted (l : list Filter.cems_row) :
  StronglySorted row_le (Filter.sort_rows l).
Proof.
  induction l as [|x l IH]; [constructor|].
  cbn [Filter.sort_rows fold_right]. now apply insert_row_sorted.
Qed.

(** X1.  The table that [filter_group] returns for a group with at least
    one unit holds the rows that the cluster filter returned for the units
    of the group, each row as often as it was returned, in the order of
    [unit_id] and, within a unit, of [time]: every row stands before all
    rows with a larger [unit_id] or with the same [unit_id] and a later
    [time]. *)
Theorem filter_group_sorted (single cc : Filter.cluster_filter) (years : Z)
    (group_type : string) (group : list (string * Filter.unit_df))
    (parallel : bool) (group_df : Filter.unit_df)
    (Hgroup : group <> [])
    (Hrun : Filter.filter_group single cc years group_type group parallel
            = Ok group_df) :
  StronglySorted row_le group_df /\
  exists units,
    mapM (fun u => Filter.select_filter single cc group_type (snd u)
                     (Filter.min_samples years) (Filter.threshold years))
         group = Ok units /\
    Permutation (concat units) group_df.
Proof.
  unfold Filter.filter_group in Hrun.
  destruct (mapM _ group) as [units|e] eqn:E; [|discriminate].
  cbn [bind] in Hrun. apply Ok_inj in Hrun. subst group_df.
  split; [apply sort_rows_sorted|].
  exists units. split; [reflexivity|apply sort_rows_perm].
Qed.

(** The two units with the filter that labels every row. *)
Lemma filter_group_sorted_witness :
  exists group_df,
    Filter.filter_group label_all label_all 1 "CT (NG)" two_units true
    = Ok group_df /\
    StronglySorted row_le group_df.
Proof.
  eexists. split; [reflexivity|].
  apply (filter_group_sorted label_all label_all 1 "CT (NG)" two_units true
           _ ltac:(discriminate) eq_refl).
Defined.

(** X2.  [filter_group] returns no table when the cluster filter raises on
    a unit: the exception of the first such unit of the group is the
    outcome, whatever the filter returned for the units before it and
    whatever it would do on the units after it. *)
Theorem filter_group_first_failure (single cc : Filter.cluster_filter)
    (years : Z) (group_type : string)
    (before after : list (string * Filter.unit_df))
    (u : string * Filter.unit_df) (parallel : bool) (e : exn)
    (Hbefore : forall v, In v before ->
       exists r, Filter.select_filter single cc group_type (snd v)
                   (Filter.min_samples years) (Filter.threshold years) = Ok r)
    (Hu : Filter.select_filter single cc group_type (snd u)
            (Filter.min_samples years) (Filter.threshold years) = Raise e) :
  Filter.filter_group single cc years group_type (before ++ u :: after)
    parallel = Raise e.
Proof.
  unfold Filter.filter_group.
  set (f := fun u0 : string * Filter.unit_df => _).
  assert (H : mapM f (before ++ u :: after) = Raise e).
  { induction before as [|v before IH].
    - cbn [app mapM]. unfold f at 1. now rewrite Hu.
    - cbn [app mapM]. destruct (Hbefore v (or_introl eq_refl)) as [r Hr].
      unfold f at 1. rewrite Hr. cbn [bind].
      rewrite IH; [reflexivity|]. intros w Hw. apply Hbefore. now right. }
  now rewrite H.
Qed.

(** One year of data: a unit needs 87 rows.  The unit with 100 rows passes,
    the first of the two small units stops the group. *)
Lemma filter_group_first_failure_witness :
  Filter.filter_group refuse_small refuse_small 1 "CT (NG)"
    ([long_unit] ++ hd long_unit two_units :: tl two_units) true
  = Raise ValueError.
Proof.
  apply (filter_group_first_failure refuse_small refuse_small 1 "CT (NG)"
           [long_unit] (tl two_units) (hd long_unit two_units) true ValueError).
  - intros v [<-|[]]. eexists. vm_compute. reflexivity.
  - reflexivity.
Defined.

(** ** The cluster filter of a group type *)

Lemma before_sep_splits (sep s : string) :
  exists rest, s = (before_sep sep s ++ rest)%string.
Proof.
  induction s as [|c s [rest IH]]; [now exists ""|].
  cbn [before_sep]. destruct (prefix sep (String c s)).
  - now exists (String c s).
  - exists rest. cbn [append]. now rewrite <- IH.
Qed.

(** X3.  The choice of the cluster filter and the choice of the rejection
    path agree on combined cycles in one direction.  [filter_group] takes
    the CC cluster filter exactly for the group types whose name up to the
    first " (" is "CC", as in "CC (NG)", and [SingleCluster.filter] for
    every other name; all of the former contain "CC", which is the test of
    [FitFilter.filter] for the CC path.  The converse fails: "IGCC (Coal)"
    is clustered as a single unit and rejected as a combined cycle. *)
Theorem cc_dispatch_agrees (single cc : Filter.cluster_filter) :
  (forall fuel, Filter.select_filter single cc ("CC (" ++ fuel) = cc) /\
  (forall group_type, before_sep " (" group_type = "CC" ->
     Filter.select_filter single cc group_type = cc /\
     contains "CC" group_type = true) /\
  (forall group_type, before_sep " (" group_type <> "CC" ->
     Filter.select_filter single cc group_type = single) /\
  Filter.select_filter single cc "IGCC (Coal)" = single /\
  contains "CC" "IGCC (Coal)" = true.
Proof.
  split; [intros fuel; destruct fuel; reflexivity|].
  split; [|split; [|split; reflexivity]].
  - intros g Hg. split; [unfold Filter.select_filter; now rewrite Hg|].
    destruct (before_sep_splits " (" g) as [rest Hrest].
    rewrite Hg in Hrest. rewrite Hrest. clear. destruct rest; reflexivity.
  - intros g Hg. unfold Filter.select_filter.
    destruct (String.eqb (before_sep " (" g) "Boiler"); [reflexivity|].
    destruct (String.eqb (before_sep " (" g) "CT"); [reflexivity|].
    destruct (String.eqb (before_sep " (" g) "CC") eqn:E; [|reflexivity].
    apply String.eqb_eq in E. contradiction.
Qed.

(** ** PolyFit.extract_fit: errors, labels and bounds *)

(** The row of [extract_fit] is assembled from the locals that the [try]
    block leaves, with the bounds of the load array. *)
Lemma extract_fit_fit_row (polyfit : polyfit_fn) (load heat_rate : list fval)
    (order points : Z) :
  exists st lo hi,
    snd (PolyFit.extract_fit polyfit load heat_rate order points)
    = PolyFit.fit_row st load points lo hi /\
    (forall x t, load = x :: t -> lo = amin x t /\ hi = amax x t).
Proof.
  unfold PolyFit.extract_fit. destruct load as [|x t].
  - exists PolyFit.no_fit, NaN, NaN. split; [reflexivity|discriminate].
  - destruct (PolyFit.try_fit polyfit (x :: t) heat_rate order points
                (amin x t) (amax x t)) as [evs st].
    exists st, (amin x t), (amax x t). split; [reflexivity|].
    intros x' t' E. injection E as <- <-. now split.
Qed.

Lemma load_labels_none (points : Z) :
  points <= 0 -> PolyFit.load_labels points = Raise IndexError.
Proof.
  intros H. unfold PolyFit.load_labels, py_range.
  replace (Z.to_nat (points + 1 - 1)) with 0%nat by lia. reflexivity.
Qed.

(** X4.  [extract_fit] called with [points <= 0] returns no row, whatever
    the load, the heat rate and the outcome of the fit are: the assignment
    [load_index[0] = 'load_min'] raises IndexError on the empty list of
    labels, unless the Series of the coefficients has already raised
    ValueError. *)
Theorem extract_fit_needs_points (polyfit : polyfit_fn)
    (load heat_rate : list fval) (order points : Z) (Hpoints : points <= 0) :
  snd (PolyFit.extract_fit polyfit load heat_rate order points)
  = Raise IndexError \/
  snd (PolyFit.extract_fit polyfit load heat_rate order points)
  = Raise ValueError.
Proof.
  destruct (extract_fit_fit_row polyfit load heat_rate order points)
    as [st [lo [hi [-> _]]]].
  unfold PolyFit.fit_row. rewrite load_labels_none by exact Hpoints.
  destruct (PolyFit.fit_params st) as [vs|]; cbn [pd_Series bind].
  - destruct (Nat.eqb (length vs) (length PolyFit.coef_index));
      [now left|now right].
  - now left.
Qed.

(** Five loads, with and without a fit, and no point to save. *)
Lemma extract_fit_needs_points_witness :
  snd (PolyFit.extract_fit polyfit_exact five_loads five_heat_rates 4 0)
  = Raise IndexError \/
  snd (PolyFit.extract_fit polyfit_exact five_loads five_heat_rates 4 0)
  = Raise ValueError.
Proof.
  apply (extract_fit_needs_points polyfit_exact five_loads five_heat_rates 4 0).
  lia.
Defined.

(** X5.  An accepted fit (rank above 1) whose coefficient array has not
    exactly five entries makes [extract_fit] raise ValueError: the Series of
    the coefficients is built on the five fixed labels [a4 .. a0].
    [np.polyfit] returns [order + 1] coefficients, so that a unit that can
    be fit gets a row at order 4 only. *)
Theorem extract_fit_five_coefficients (polyfit : polyfit_fn) (x : fval)
    (t heat_rate : list fval) (order points : Z) (fit : PolyfitFull)
    (Hfit : polyfit (x :: t) heat_rate order = Ok fit)
    (Hrank : 1 < fit_rank fit)
    (Hcoef : length (fit_coef fit) <> 5%nat) :
  snd (PolyFit.extract_fit polyfit (x :: t) heat_rate order points)
  = Raise ValueError.
Proof.
  unfold PolyFit.extract_fit, PolyFit.try_fit. rewrite Hfit.
  destruct (1 <? fit_rank fit) eqn:E; [|lia].
  assert (Hs : pd_Series (Some (fit_coef fit)) PolyFit.coef_index
               = Raise ValueError).
  { unfold pd_Series.
    destruct (Nat.eqb (length (fit_coef fit)) (length PolyFit.coef_index))
      eqn:En; [|reflexivity].
    apply Nat.eqb_eq in En. now elim Hcoef. }
  destruct (linspace (amin x t) (amax x t) points); cbn [snd];
    unfold PolyFit.fit_row; cbn [PolyFit.fit_params]; now rewrite Hs.
Qed.

(** The five loads at order 2: rank 3, three coefficients. *)
Lemma extract_fit_five_coefficients_witness :
  snd (PolyFit.extract_fit polyfit_exact (Fin 1 :: map of_Z [2; 3; 4; 5])
         five_heat_rates 2 5)
  = Raise ValueError.
Proof.
  apply (extract_fit_five_coefficients polyfit_exact (Fin 1)
           (map of_Z [2; 3; 4; 5]) five_heat_rates 2 5
           (mkFit [Fin (5 # 7); Fin (-30 # 7); Fin (68 # 5)] 3)).
  - vm_compute. reflexivity.
  - simpl. lia.
  - simpl. lia.
Defined.

Lemma series_set_labels_in (s : FSeries) (k : string) (v : fval) :
  In k (map fst s) -> map fst (series_set s k v) = map fst s.
Proof.
  induction s as [|[k' v'] s IH]; [intros []|].
  cbn [series_set map fst]. destruct (String.eqb k' k) eqn:E; [reflexivity|].
  intros [H|H].
  - subst k'. now rewrite String.eqb_refl in E.
  - cbn [map fst]. now rewrite IH.
Qed.

Lemma series_set_labels_new (s : FSeries) (k : string) (v : fval) :
  ~ In k (map fst s) -> map fst (series_set s k v) = map fst s ++ [k].
Proof.
  intros H. rewrite series_set_notin by exact H. now rewrite map_app.
Qed.

Lemma pd_Series_labels (data : option (list fval)) (idx : list string)
    (s : FSeries) :
  pd_Series data idx = Ok s -> map fst s = idx.
Proof.
  unfold pd_Series. destruct data as [vs|].
  - destruct (Nat.eqb (length vs) (length idx)) eqn:E; [|discriminate].
    intros H. apply Ok_inj in H. subst s. apply Nat.eqb_eq in E.
    now apply map_fst_combine.
  - intros H. apply Ok_inj in H. subst s. rewrite map_map. apply map_id.
Qed.

(** The labels of an assembled row. *)
Lemma fit_row_labels (st : PolyFit.fit_locals) (load : list fval)
    (points : Z) (lo hi : fval) (row : FSeries) :
  2 <= points -> PolyFit.fit_row st load points lo hi = Ok row ->
  map fst row =
  PolyFit.coef_index ++ load_index points
  ++ ["total_load"; "min_gen_perc"]
  ++ PolyFit.hr_labels (load_index points).
Proof.
  intros Hpoints Hrow. unfold PolyFit.fit_row in Hrow.
  destruct (pd_Series (PolyFit.fit_params st) PolyFit.coef_index)
    as [unit_fit|] eqn:E1; [|discriminate].
  rewrite load_labels_from_two in Hrow by exact Hpoints.
  cbn [bind] in Hrow. fold (load_index points) in Hrow.
  destruct (pd_Series (PolyFit.load_range st) (load_index points))
    as [unit_load|] eqn:E2; [|discriminate].
  cbn [bind] in Hrow.
  destruct (pd_Series (PolyFit.hr_range st)
              (PolyFit.hr_labels (load_index points)))
    as [unit_hr|] eqn:E3; [|discriminate].
  apply Ok_inj in Hrow. subst row.
  apply pd_Series_labels in E1, E2, E3.
  assert (Hno : forall k, prefix "load_" k = false ->
                  ~ In k (load_index points)).
  { intros k Hk Hin. destruct Hin as [<-|Hin]; [discriminate|].
    apply in_app_or in Hin. destruct Hin as [Hin|[<-|[]]]; [|discriminate].
    revert Hin. apply load_label_range_notin. now right. }
  assert (L1 : map fst (series_set unit_load "load_min" lo)
               = load_index points).
  { rewrite series_set_labels_in; [exact E2|]. rewrite E2. now left. }
  assert (L2 : map fst (series_set (series_set unit_load "load_min" lo)
                          "load_max" hi) = load_index points).
  { rewrite series_set_labels_in; [exact L1|]. rewrite L1.
    right. apply in_or_app. right. now left. }
  rewrite !map_app, E1, E3. f_equal.
  rewrite (series_set_labels_new _ "min_gen_perc").
  - rewrite (series_set_labels_new _ "total_load").
    + rewrite L2, <- !app_assoc. reflexivity.
    + rewrite L2. now apply Hno.
  - rewrite (series_set_labels_new _ "total_load")
      by (rewrite L2; now apply Hno).
    rewrite L2. intros Hin. apply in_app_or in Hin.
    destruct Hin as [Hin|[Hin|[]]]; [|discriminate].
    revert Hin. now apply Hno.
Qed.

(** X6.  Every row that [extract_fit] returns for [2 <= points] carries the
    same labels in the same order, whether the unit was fit or not: the
    five coefficient names, the load samples from [load_min] to
    [load_max], [total_load], [min_gen_perc], and the heat-rate samples.
    The rows of all units of a run therefore share their columns. *)
Theorem extract_fit_labels (polyfit : polyfit_fn) (load heat_rate : list fval)
    (order points : Z) (row : FSeries) (Hpoints : 2 <= points)
    (Hrow : snd (PolyFit.extract_fit polyfit load heat_rate order points)
            = Ok row) :
  map fst row =
  PolyFit.coef_index ++ load_index points
  ++ ["total_load"; "min_gen_perc"]
  ++ PolyFit.hr_labels (load_index points).
Proof.
  destruct (extract_fit_fit_row polyfit load heat_rate order points)
    as [st [lo [hi [E _]]]].
  rewrite E in Hrow. eapply fit_row_labels; eassumption.
Qed.

(** The labels of a row without fit: a unit without load at order 4, three
    points. *)
Lemma extract_fit_labels_witness :
  map fst (map (fun k => (k, NaN)) PolyFit.coef_index
           ++ [("load_min", NaN); ("load_2", NaN); ("load_max", NaN);
               ("total_load", Fin 0); ("min_gen_perc", NaN)]
           ++ map (fun k => (k, NaN))
                (PolyFit.hr_labels ["load_min"; "load_2"; "load_max"])) =
  PolyFit.coef_index ++ load_index 3
  ++ ["total_load"; "min_gen_perc"]
  ++ PolyFit.hr_labels (load_index 3).
Proof.
  apply (extract_fit_labels polyfit_exact [] [] 4 3); [lia|reflexivity].
Defined.

(** The minimum and the maximum of an array of numbers. *)
Lemma amin_fin (q : Q) (qs : list Q) :
  exists a, amin (Fin q) (map Fin qs) = Fin a /\ In a (q :: qs) /\
            forall y, In y (q :: qs) -> (a <= y)%Q.
Proof.
  revert q. induction qs as [|z qs IH]; intros q.
  - exists q. split; [reflexivity|]. split; [now left|].
    intros y [<-|[]]. apply Qle_refl.
  - change (amin (Fin q) (map Fin (z :: qs)))
      with (amin (fmin2 (Fin q) (Fin z)) (map Fin qs)).
    cbn [fmin2 flt]. destruct (Qltb z q) eqn:E.
    + destruct (IH z) as [a [Ha [Hin Hle]]]. exists a.
      split; [exact Ha|]. split; [now right|].
      apply Qltb_lt in E. intros y [<-|Hy]; [|now apply Hle].
      specialize (Hle z (or_introl eq_refl)). lra.
    + destruct (IH q) as [a [Ha [Hin Hle]]]. exists a.
      split; [exact Ha|].
      split; [destruct Hin as [Hin|Hin]; [now left|now right; right]|].
      apply Qltb_ge in E. intros y [<-|[<-|Hy]].
      * apply Hle. now left.
      * specialize (Hle q (or_introl eq_refl)). lra.
      * apply Hle. now right.
Qed.

Lemma amax_fin (q : Q) (qs : list Q) :
  exists b, amax (Fin q) (map Fin qs) = Fin b /\ In b (q :: qs) /\
            forall y, In y (q :: qs) -> (y <= b)%Q.
Proof.
  revert q. induction qs as [|z qs IH]; intros q.
  - exists q. split; [reflexivity|]. split; [now left|].
    intros y [<-|[]]. apply Qle_refl.
  - change (amax (Fin q) (map Fin (z :: qs)))
      with (amax (fmax2 (Fin q) (Fin z)) (map Fin qs)).
    cbn [fmax2 flt]. destruct (Qltb q z) eqn:E.
    + destruct (IH z) as [b [Hb [Hin Hle]]]. exists b.
      split; [exact Hb|]. split; [now right|].
      apply Qltb_lt in E. intros y [<-|Hy]; [|now apply Hle].
      specialize (Hle z (or_introl eq_refl)). lra.
    + destruct (IH q) as [b [Hb [Hin Hle]]]. exists b.
      split; [exact Hb|].
      split; [destruct Hin as [Hin|Hin]; [now left|now right; right]|].
      apply Qltb_ge in E. intros y [<-|[<-|Hy]].
      * apply Hle. now left.
      * specialize (Hle q (or_introl eq_refl)). lra.
      * apply Hle. now right.
Qed.

(** The four entries that [extract_fit] writes into every row. *)
Lemma fit_row_bounds (st : PolyFit.fit_locals) (load : list fval)
    (points : Z) (lo hi : fval) (row : FSeries) :
  PolyFit.fit_row st load points lo hi = Ok row ->
  series_get row "load_min" = Some lo /\
  series_get row "load_max" = Some hi /\
  series_get row "total_load" = Some (np_sum load) /\
  series_get row "min_gen_perc" = Some (fdiv lo hi).
Proof.
  intros Hrow. unfold PolyFit.fit_row in Hrow.
  destruct (pd_Series (PolyFit.fit_params st) PolyFit.coef_index)
    as [unit_fit|] eqn:E1; [|discriminate].
  cbn [bind] in Hrow.
  destruct (PolyFit.load_labels points) as [idx|]; [|discriminate].
  cbn [bind] in Hrow.
  destruct (pd_Series (PolyFit.load_range st) idx) as [unit_load|];
    [|discriminate].
  cbn [bind] in Hrow.
  destruct (pd_Series (PolyFit.hr_range st) (PolyFit.hr_labels idx));
    [|discriminate].
  apply Ok_inj in Hrow. subst row. apply pd_Series_labels in E1.
  assert (Hnone : forall k, ~ In k PolyFit.coef_index ->
                            series_get unit_fit k = None).
  { intros k Hk. apply series_get_none. now rewrite E1. }
  repeat split;
    rewrite series_get_app, Hnone, series_get_app
      by (simpl; intuition discriminate).
  - do 3 (rewrite series_get_set_other by discriminate).
    now rewrite series_get_set_same.
  - do 2 (rewrite series_get_set_other by discriminate).
    now rewrite series_get_set_same.
  - rewrite series_get_set_other by discriminate.
    now rewrite series_get_set_same.
  - now rewrite series_get_set_same.
Qed.

(** X7.  For a load array of positive numbers, every row that
    [extract_fit] returns, with or without fit, holds in [load_min] and
    [load_max] two loads of the array that bound all others, and in
    [min_gen_perc] their quotient, a number above 0 and at most 1. *)
Theorem extract_fit_load_bounds (polyfit : polyfit_fn) (q : Q) (qs : list Q)
    (heat_rate : list fval) (order points : Z) (row : FSeries)
    (Hpos : forall y, In y (q :: qs) -> (0 < y)%Q)
    (Hrow : snd (PolyFit.extract_fit polyfit (map Fin (q :: qs)) heat_rate
                   order points) = Ok row) :
  exists lo hi perc,
    series_get row "load_min" = Some (Fin lo) /\
    series_get row "load_max" = Some (Fin hi) /\
    series_get row "min_gen_perc" = Some (Fin perc) /\
    In lo (q :: qs) /\ In hi (q :: qs) /\
    (forall y, In y (q :: qs) -> (lo <= y <= hi)%Q) /\
    (perc == lo / hi)%Q /\ (0 < perc <= 1)%Q.
Proof.
  destruct (extract_fit_fit_row polyfit (map Fin (q :: qs)) heat_rate order
              points) as [st [lo [hi [E Hb]]]].
  rewrite E in Hrow. clear E.
  destruct (Hb (Fin q) (map Fin qs) eq_refl) as [-> ->].
  destruct (fit_row_bounds _ _ _ _ _ _ Hrow) as [Hlo [Hhi [_ Hperc]]].
  destruct (amin_fin q qs) as [a [Ha [Hina Hlea]]].
  destruct (amax_fin q qs) as [b [Hb' [Hinb Hleb]]].
  rewrite Ha in *. rewrite Hb' in *.
  assert (Ha0 : (0 < a)%Q) by now apply Hpos.
  assert (Hb0 : (0 < b)%Q) by now apply Hpos.
  assert (Hab : (a <= b)%Q) by now apply Hleb.
  assert (Hz : Qeq_bool b 0 = false).
  { destruct (Qeq_bool b 0) eqn:Ez; [|reflexivity].
    apply Qeq_bool_eq in Ez. lra. }
  cbn [fdiv] in Hperc. rewrite Hz in Hperc.
  exists a, b, (Qred (a / b)).
  repeat split; try assumption; try (now apply Hlea); try (now apply Hleb).
  - apply Qred_correct.
  - rewrite Qred_correct. apply Qlt_shift_div_l; lra.
  - rewrite Qred_correct. apply Qle_shift_div_r; lra.
Qed.

(** Loads 1 to 5: [load_min] 1, [load_max] 5, [min_gen_perc] 1/5. *)
Lemma extract_fit_load_bounds_witness :
  exists row,
    snd (PolyFit.extract_fit polyfit_exact (map Fin [1; 2; 3; 4; 5]%Q)
           five_heat_rates 4 5) = Ok row /\
    exists lo hi perc,
      series_get row "load_min" = Some (Fin lo) /\
      series_get row "load_max" = Some (Fin hi) /\
      series_get row "min_gen_perc" = Some (Fin perc) /\
      In lo [1; 2; 3; 4; 5]%Q /\ In hi [1; 2; 3; 4; 5]%Q /\
      (forall y, In y [1; 2; 3; 4; 5]%Q -> (lo <= y <= hi)%Q) /\
      (perc == lo / hi)%Q /\ (0 < perc <= 1)%Q.
Proof.
  eexists. split; [vm_compute; reflexivity|].
  apply (extract_fit_load_bounds polyfit_exact 1 [2; 3; 4; 5]%Q
           five_heat_rates 4 5).
  - intros y Hy. simpl in Hy.
    destruct Hy as [<-|[<-|[<-|[<-|[<-|[]]]]]]; reflexivity.
  - vm_compute. reflexivity.
Defined.

(** ** PolyFit.fit_unit: the fits of a unit *)

Lemma tmapM_ids {E A B : Type} (f : A -> traced E (string * B))
    (id_of : A -> string) (l : list A) (bs : list (string * B)) :
  (forall a b, snd (f a) = Ok b -> fst b = id_of a) ->
  snd (tmapM f l) = Ok bs -> map fst bs = map id_of l.
Proof.
  intros Hf. revert bs. induction l as [|a l IH]; intros bs.
  - cbn. intros H. apply Ok_inj in H. now subst bs.
  - cbn [tmapM]. unfold tbind at 1.
    destruct (snd (f a)) as [b|] eqn:Ea; [|discriminate].
    cbn [snd]. unfold tbind at 1.
    destruct (snd (tmapM f l)) as [bs0|] eqn:El; [|discriminate].
    cbn [snd tret]. intros H. apply Ok_inj in H. subst bs.
    cbn [map]. now rewrite (Hf a b Ea), (IH bs0 eq_refl).
Qed.

Lemma cluster_fit_id (polyfit : polyfit_fn) (order points : Z)
    (fit_id : string) (pos : PolyFits.unit_df) (r : string * Series) :
  snd (PolyFits.cluster_fit polyfit order points fit_id pos) = Ok r ->
  fst r = fit_id.
Proof.
  unfold PolyFits.cluster_fit.
  destruct (PolyFit.extract_fit _ _ _ _ _) as [evs [s|]]; cbn [snd bind];
    [|discriminate].
  intros H. apply Ok_inj in H. now subst r.
Qed.

Lemma set_meta_ids (m : Series) (cols : list string)
    (fit fit' : PolyFits.fit_table) :
  FitFilter.foldM
    (fun unit_fit col =>
       v <- series_loc m col ;;
       Ok (map (fun r => (fst r, PolyFits.cells_set (snd r) col v)) unit_fit))
    cols fit = Ok fit' ->
  map fst fit' = map fst fit.
Proof.
  revert fit. induction cols as [|c cols IH]; intros fit.
  - cbn. intros H. apply Ok_inj in H. now subst.
  - cbn [FitFilter.foldM]. destruct (series_loc m c) as [v|]; [|discriminate].
    cbn [bind]. intros H. rewrite (IH _ H), map_map. reflexivity.
Qed.

(** The fit ids of a unit before the metadata are attached. *)
Lemma fit_unit_ids_gen (polyfit : polyfit_fn) (order points : Z)
    (p : PolyFits.point) (rest : PolyFits.unit_df) (rows : PolyFits.fit_table) :
  snd (PolyFits.fit_unit polyfit order (p :: rest) points) = Ok rows ->
  map fst rows =
  if (1 <? length (PolyFits.clusters (p :: rest)))%nat then
    map (fun label => (PolyFits.unit_id p ++ "-" ++ str_of_Z label)%string)
        (PolyFits.clusters (p :: rest))
  else [PolyFits.unit_id p].
Proof.
  unfold PolyFits.fit_unit. unfold tbind at 1.
  set (fits := if (1 <? length (PolyFits.clusters (p :: rest)))%nat
               then _ else _).
  destruct (snd fits) as [unit_fit|] eqn:E; [|discriminate].
  cbn [snd]. intros H. unfold PolyFits.set_meta in H.
  rewrite (set_meta_ids _ _ _ _ H). clear H. unfold fits in E. clear fits.
  destruct (1 <? length (PolyFits.clusters (p :: rest)))%nat.
  - eapply tmapM_ids; [|exact E]. intros label b Hb. cbn beta in Hb.
    now apply cluster_fit_id in Hb.
  - unfold tbind in E.
    destruct (snd (PolyFits.cluster_fit polyfit order points
                     (PolyFits.unit_id p)
                     (List.filter (fun q => 0 <=? PolyFits.cluster q)
                                  (p :: rest)))) as [r|] eqn:Er;
      [|discriminate].
    cbn [snd tret] in E. apply Ok_inj in E. subst unit_fit.
    apply cluster_fit_id in Er. cbn [map]. now rewrite Er.
Qed.

Lemma unique_in (x : Z) (l : list Z) : In x (PolyFits.unique l) <-> In x l.
Proof.
  induction l as [|y l IH]; [reflexivity|].
  cbn [PolyFits.unique]. split.
  - intros [H|H]; [now left|]. apply filter_In in H. right. now apply IH.
  - intros [H|H]; [now left|].
    destruct (Z.eq_dec x y) as [->|Hne]; [now left|].
    right. apply filter_In. split; [now apply IH|].
    apply negb_true_iff. now apply Z.eqb_neq.
Qed.

Lemma unique_NoDup (l : list Z) : NoDup (PolyFits.unique l).
Proof.
  induction l as [|y l IH]; [constructor|].
  cbn [PolyFits.unique]. constructor.
  - intros H. apply filter_In in H. destruct H as [_ H].
    now rewrite Z.eqb_refl in H.
  - now apply NoDup_filter.
Qed.

Lemma insert_label_Z_in (z x : Z) (l : list Z) :
  In x (PolyFits.insert_label z l) <-> x = z \/ In x l.
Proof.
  induction l as [|y l IH]; cbn [PolyFits.insert_label].
  - simpl. intuition.
  - destruct (z <=? y); cbn [In]; [intuition|]. rewrite IH. intuition.
Qed.

Lemma sorted_in (x : Z) (l : list Z) : In x (PolyFits.sorted l) <-> In x l.
Proof.
  induction l as [|y l IH]; [reflexivity|].
  cbn [PolyFits.sorted fold_right]. fold (PolyFits.sorted l).
  rewrite insert_label_Z_in, IH. cbn [In]. intuition.
Qed.

Lemma insert_label_sorted (z : Z) (l : list Z) :
  ~ In z l -> StronglySorted Z.lt l ->
  StronglySorted Z.lt (PolyFits.insert_label z l).
Proof.
  intros Hz Hs. induction Hs as [|y l Hs IH Hy]; [repeat constructor|].
  cbn [PolyFits.insert_label]. destruct (z <=? y) eqn:E.
  - assert (Hlt : z < y).
    { apply Z.leb_le in E. destruct (Z.eq_dec z y) as [->|Hne]; [|lia].
      elim Hz. now left. }
    constructor; [now constructor|]. constructor; [exact Hlt|].
    eapply Forall_impl; [|exact Hy]. intros a Ha. lia.
  - apply Z.leb_gt in E. constructor.
    + apply IH. intros H. apply Hz. now right.
    + apply Forall_forall. intros a Ha. apply insert_label_Z_in in Ha.
      destruct Ha as [->|Ha]; [exact E|].
      rewrite Forall_forall in Hy. now apply Hy.
Qed.

Lemma sorted_strict (l : list Z) :
  NoDup l -> StronglySorted Z.lt (PolyFits.sorted l).
Proof.
  induction 1 as [|y l Hy Hl IH]; [constructor|].
  cbn [PolyFits.sorted fold_right]. apply insert_label_sorted; [|exact IH].
  intros H. apply Hy. exact (proj1 (sorted_in y l) H).
Qed.

(** The cluster labels that get a fit: the labels of the unit that are not
    negative, each once, in ascending order. *)
Lemma clusters_spec (u : PolyFits.unit_df) :
  (forall label, In label (PolyFits.clusters u) <->
     0 <= label /\ exists q, In q u /\ PolyFits.cluster q = label) /\
  StronglySorted Z.lt (PolyFits.clusters u).
Proof.
  unfold PolyFits.clusters. split.
  - intros label. rewrite sorted_in, filter_In, unique_in, in_map_iff.
    rewrite Z.leb_le. split.
    + intros [[q [Hq Hin]] H0]. split; [exact H0|]. now exists q.
    + intros [H0 [q [Hin Hq]]]. split; [|exact H0]. now exists q.
  - apply sorted_strict. apply NoDup_filter. apply unique_NoDup.
Qed.

(** X8.  [fit_unit] returns one row per operating regime.  The regimes are
    the cluster labels of the unit that are not negative, each once and in
    ascending order; noise, labelled -1, gets no row.  With two or more
    regimes the rows are named [unit_id-label], in the order of the labels;
    otherwise there is one row, named [unit_id]. *)
Theorem fit_unit_ids (polyfit : polyfit_fn) (order points : Z)
    (p : PolyFits.point) (rest : PolyFits.unit_df) (rows : PolyFits.fit_table)
    (Hrun : snd (PolyFits.fit_unit polyfit order (p :: rest) points)
            = Ok rows) :
  (forall label, In label (PolyFits.clusters (p :: rest)) <->
     0 <= label /\ exists q, In q (p :: rest) /\ PolyFits.cluster q = label) /\
  StronglySorted Z.lt (PolyFits.clusters (p :: rest)) /\
  map fst rows =
  if (1 <? length (PolyFits.clusters (p :: rest)))%nat then
    map (fun label => (PolyFits.unit_id p ++ "-" ++ str_of_Z label)%string)
        (PolyFits.clusters (p :: rest))
  else [PolyFits.unit_id p].
Proof.
  destruct (clusters_spec (p :: rest)) as [Hin Hs].
  split; [exact Hin|]. split; [exact Hs|].
  eapply fit_unit_ids_gen. exact Hrun.
Qed.

(** The unit with regimes 0 and 1 and noise, fit at order 4. *)
Lemma fit_unit_ids_witness :
  exists rows,
    snd (PolyFits.fit_unit polyfit_exact 4 two_regimes 5) = Ok rows /\
    PolyFits.clusters two_regimes = [0; 1] /\
    map fst rows = ["7-0"; "7-1"].
Proof.
  eexists. split; [vm_compute; reflexivity|]. split; [reflexivity|].
  apply (proj2 (proj2 (fit_unit_ids polyfit_exact 4 5
                         (PolyFits.mkPoint "7" (of_Z 3) (Fin 8) 1 unit_meta)
                         (tl two_regimes) _ ltac:(vm_compute; reflexivity)))).
Defined.

(** ** From the fit ids of [PolyFit] to the CC units of [FitFilter] *)

Lemma prefix_nil (s : string) : prefix "" s = true.
Proof. destruct s; reflexivity. Qed.

Lemma contains_dash_cons (c : Ascii.ascii) (s : string) :
  contains "-" (String c s) = false ->
  prefix "-" (String c s) = false /\ contains "-" s = false.
Proof.
  unfold contains. cbn [index].
  destruct (prefix "-" (String c s)); [discriminate|].
  destruct (index 0 "-" s); [discriminate|]. now split.
Qed.

Lemma prefix_dash_head (c : Ascii.ascii) (s t : string) :
  prefix "-" (String c s) = prefix "-" (String c t).
Proof.
  cbn [prefix]. destruct (Ascii.ascii_dec _ c); [|reflexivity].
  now rewrite !prefix_nil.
Qed.

(** A name without "-" is what stands before the first "-" of the name
    followed by "-" and anything. *)
Lemma before_sep_dash (s t : string) :
  contains "-" s = false ->
  before_sep "-" s = s /\ before_sep "-" (s ++ "-" ++ t) = s.
Proof.
  induction s as [|c s IH]; intros H.
  - split; [reflexivity|]. cbn [append before_sep].
    now rewrite (prefix_dash_head _ _ ""%string).
  - destruct (contains_dash_cons c s H) as [Hp Hs].
    destruct (IH Hs) as [IH1 IH2]. split.
    + cbn [before_sep]. now rewrite Hp, IH1.
    + change (String c s ++ "-" ++ t)%string
        with (String c (s ++ "-" ++ t)%string).
      cbn [before_sep].
      now rewrite (prefix_dash_head c _ s), Hp, IH2.
Qed.

(** X9.  The fit ids of [PolyFit] and the CC units of [FitFilter] fit
    together: for a unit whose [unit_id] holds no "-", every row that
    [fit_unit] returns gets the [unit_id] as its [cc_id], so that the rows
    of the operating regimes of a unit are rejected or kept together and
    rows of different units are not. *)
Theorem fit_ids_share_cc_id (polyfit : polyfit_fn) (order points : Z)
    (p : PolyFits.point) (rest : PolyFits.unit_df) (rows : PolyFits.fit_table)
    (Hdash : contains "-" (PolyFits.unit_id p) = false)
    (Hrun : snd (PolyFits.fit_unit polyfit order (p :: rest) points)
            = Ok rows) :
  forall r, In r rows ->
    FitFilter.cc_id_of (CStr (fst r)) = Ok (CStr (PolyFits.unit_id p)).
Proof.
  intros r Hr. apply (in_map fst) in Hr.
  rewrite (fit_unit_ids_gen _ _ _ _ _ _ Hrun) in Hr.
  cbn [FitFilter.cc_id_of]. do 2 f_equal.
  destruct (1 <? length (PolyFits.clusters (p :: rest)))%nat.
  - apply in_map_iff in Hr. destruct Hr as [label [<- _]].
    apply (before_sep_dash _ _ Hdash).
  - destruct Hr as [<-|[]]. apply (before_sep_dash _ "" Hdash).
Qed.

(** The two rows of the unit with two regimes. *)
Lemma fit_ids_share_cc_id_witness :
  exists rows,
    snd (PolyFits.fit_unit polyfit_exact 4 two_regimes 5) = Ok rows /\
    forall r, In r rows -> FitFilter.cc_id_of (CStr (fst r)) = Ok (CStr "7").
Proof.
  eexists. split; [vm_compute; reflexivity|].
  apply (fit_ids_share_cc_id polyfit_exact 4 5
           (PolyFits.mkPoint "7" (of_Z 3) (Fin 8) 1 unit_meta)
           (tl two_regimes) _ eq_refl ltac:(vm_compute; reflexivity)).
Defined.

(** ** From the rows of [PolyFit] to [FitFilter._get_hr_min] *)

Lemma tmapM_in {E A B : Type} (f : A -> traced E B) (l : list A)
    (bs : list B) :
  snd (tmapM f l) = Ok bs ->
  forall b, In b bs -> exists a, In a l /\ snd (f a) = Ok b.
Proof.
  revert bs. induction l as [|a l IH]; intros bs.
  - cbn. intros H. apply Ok_inj in H. subst bs. intros b [].
  - cbn [tmapM]. unfold tbind at 1.
    destruct (snd (f a)) as [b0|] eqn:Ea; [|discriminate].
    cbn [snd]. unfold tbind at 1.
    destruct (snd (tmapM f l)) as [bs0|] eqn:El; [|discriminate].
    cbn [snd tret]. intros H. apply Ok_inj in H. subst bs.
    intros b [<-|Hb].
    + exists a. split; [now left|exact Ea].
    + destruct (IH bs0 eq_refl b Hb) as [a' [Ha' Hf]].
      exists a'. split; [now right|exact Hf].
Qed.

(** The row of a cluster is the row of [extract_fit] on some load and heat
    rate, cell by cell. *)
Lemma cluster_fit_row (polyfit : polyfit_fn) (order points : Z)
    (fit_id : string) (pos : PolyFits.unit_df) (r : string * Series) :
  snd (PolyFits.cluster_fit polyfit order points fit_id pos) = Ok r ->
  exists load heat_rate s,
    snd (PolyFit.extract_fit polyfit load heat_rate order points) = Ok s /\
    (pos = [] -> load = []) /\
    r = (fit_id, map (fun kv => (fst kv, CFloat (snd kv))) s).
Proof.
  unfold PolyFits.cluster_fit.
  set (cluster_df := PolyFits.sort_points _).
  destruct (PolyFit.extract_fit polyfit (map fst cluster_df)
              (map snd cluster_df) order points) as [evs [s|]] eqn:E;
    cbn [snd bind]; [|discriminate].
  intros H. apply Ok_inj in H. subst r.
  exists (map fst cluster_df), (map snd cluster_df), s.
  split; [now rewrite E|]. split; [|reflexivity].
  intros ->. reflexivity.
Qed.

(** The rows of a unit before the metadata are attached. *)
Lemma fit_unit_rows (polyfit : polyfit_fn) (order points : Z)
    (u : PolyFits.unit_df) (rows : PolyFits.fit_table) :
  snd (PolyFits.fit_unit polyfit order u points) = Ok rows ->
  exists p rest unit_fit,
    u = p :: rest /\
    PolyFits.set_meta (PolyFits.meta p) unit_fit = Ok rows /\
    forall r, In r unit_fit ->
      exists load heat_rate s,
        snd (PolyFit.extract_fit polyfit load heat_rate order points) = Ok s /\
        snd r = map (fun kv => (fst kv, CFloat (snd kv))) s.
Proof.
  destruct u as [|p rest]; [discriminate|].
  unfold PolyFits.fit_unit. unfold tbind at 1.
  set (fits := if (1 <? length (PolyFits.clusters (p :: rest)))%nat
               then _ else _).
  destruct (snd fits) as [unit_fit|] eqn:E; [|discriminate].
  cbn [snd]. intros H. exists p, rest, unit_fit.
  split; [reflexivity|]. split; [exact H|].
  unfold fits in E. clear fits H.
  destruct (1 <? length (PolyFits.clusters (p :: rest)))%nat.
  - intros r Hr. destruct (tmapM_in _ _ _ E r Hr) as [label [_ Hl]].
    cbn beta in Hl. apply cluster_fit_row in Hl.
    destruct Hl as [load [hr [s [Hs [_ ->]]]]]. now exists load, hr, s.
  - unfold tbind in E.
    destruct (snd (PolyFits.cluster_fit polyfit order points
                     (PolyFits.unit_id p)
                     (List.filter (fun q => 0 <=? PolyFits.cluster q)
                                  (p :: rest)))) as [r0|] eqn:Er;
      [|discriminate].
    cbn [snd tret] in E. apply Ok_inj in E. subst unit_fit.
    intros r [<-|[]]. apply cluster_fit_row in Er.
    destruct Er as [load [hr [s [Hs [_ ->]]]]]. now exists load, hr, s.
Qed.

(** [set_meta] writes the cells of some metadata columns into the rows. *)
Lemma set_meta_rows (m : Series) (cols : list string)
    (fit fit' : PolyFits.fit_table) :
  FitFilter.foldM
    (fun unit_fit col =>
       v <- series_loc m col ;;
       Ok (map (fun r => (fst r, PolyFits.cells_set (snd r) col v)) unit_fit))
    cols fit = Ok fit' ->
  exists vals,
    map fst vals = cols /\
    fit' = map (fun r =>
                  (fst r,
                   fold_left (fun s cv => PolyFits.cells_set s (fst cv) (snd cv))
                             vals (snd r)))
               fit.
Proof.
  revert fit. induction cols as [|c cols IH]; intros fit.
  - cbn. intros H. apply Ok_inj in H. subst fit'. exists [].
    split; [reflexivity|]. cbn [fold_left]. rewrite <- (map_id fit) at 1.
    apply map_ext. now intros [i s].
  - cbn [FitFilter.foldM]. destruct (series_loc m c) as [v|]; [|discriminate].
    cbn [bind]. intros H. destruct (IH _ H) as [vals [Hv ->]].
    exists ((c, v) :: vals). split; [cbn; now rewrite Hv|].
    rewrite map_map. reflexivity.
Qed.

Lemma cells_set_ok (s : Series) (k : string) (v : cell) :
  numeric_col k = false -> series_ok s = true ->
  series_ok (PolyFits.cells_set s k v) = true.
Proof.
  intros Hk. unfold series_ok. rewrite !andb_true_iff.
  assert (Hhas : forall c, has_col c s = true ->
                           has_col c (PolyFits.cells_set s k v) = true).
  { intros c. unfold has_col. induction s as [|[k' v'] s IH]; [discriminate|].
    cbn [PolyFits.cells_set existsb fst].
    destruct (String.eqb k' k); cbn [existsb fst]; [tauto|].
    destruct (String.eqb k' c); [reflexivity|]. cbn [orb]. exact IH. }
  intros [[[Hall H0] H1] H2]. repeat split; try (now apply Hhas).
  clear H0 H1 H2 Hhas. induction s as [|[k' v'] s IH].
  - cbn. now rewrite Hk.
  - cbn [forallb fst snd] in Hall. apply andb_true_iff in Hall.
    destruct Hall as [Hh Ht]. cbn [PolyFits.cells_set].
    destruct (String.eqb k' k) eqn:E; cbn [forallb fst snd].
    + apply String.eqb_eq in E. subst k'. now rewrite Hk, Ht.
    + now rewrite Hh, IH.
Qed.

Lemma cells_set_all_ok (vals : list (string * cell)) (s : Series) :
  forallb (fun k => negb (numeric_col k)) (map fst vals) = true ->
  series_ok s = true ->
  series_ok (fold_left (fun s cv => PolyFits.cells_set s (fst cv) (snd cv))
               vals s) = true.
Proof.
  revert s. induction vals as [|[k v] vals IH]; intros s Hk Hs; [exact Hs|].
  cbn [map fst forallb] in Hk. apply andb_true_iff in Hk.
  destruct Hk as [Hk Hks]. cbn [fold_left fst snd].
  apply IH; [exact Hks|]. apply cells_set_ok; [|exact Hs].
  now apply negb_true_iff.
Qed.

Lemma has_col_in (k : string) (s : FSeries) :
  In k (map fst s) ->
  has_col k (map (fun kv => (fst kv, CFloat (snd kv))) s) = true.
Proof.
  unfold has_col. induction s as [|[k' v] s IH]; [intros []|].
  cbn [map fst existsb snd]. intros [->|H].
  - now rewrite String.eqb_refl.
  - rewrite IH by exact H. apply orb_true_r.
Qed.

(** A row of floats with the labels of [extract_fit] is a row that
    [_get_hr_min] reads. *)
Lemma fit_cells_ok (s : FSeries) (points : Z) :
  map fst s =
  PolyFit.coef_index ++ load_index points
  ++ ["total_load"; "min_gen_perc"]
  ++ PolyFit.hr_labels (load_index points) ->
  series_ok (map (fun kv => (fst kv, CFloat (snd kv))) s) = true.
Proof.
  intros Hl. unfold series_ok. rewrite !andb_true_iff. repeat split.
  - apply forallb_forall. intros [k c] Hin. apply in_map_iff in Hin.
    destruct Hin as [[k' v] [E _]]. injection E as <- <-. cbn [snd float_cell].
    apply orb_true_r.
  - apply has_col_in. rewrite Hl. simpl. tauto.
  - apply has_col_in. rewrite Hl. apply in_or_app. right. now left.
  - apply has_col_in. rewrite Hl. apply in_or_app. right.
    apply in_or_app. left. unfold load_index. right.
    apply in_or_app. right. now left.
Qed.

(** X10.  [FitFilter._get_hr_min] accepts every row that [PolyFit.fit_unit]
    writes for [2 <= points], fit or not: the cells of the coefficient
    columns and of [load_min] and [load_max] are there and hold floats, no
    metadata column is taken for a coefficient, and the call returns a
    minimum or None without raising. *)
Theorem fit_unit_rows_read (polyfit : polyfit_fn) (order points : Z)
    (u : PolyFits.unit_df) (rows : PolyFits.fit_table)
    (Hpoints : 2 <= points)
    (Hrun : snd (PolyFits.fit_unit polyfit order u points) = Ok rows) :
  forall r, In r rows ->
    series_ok (snd r) = true /\
    FitFilter._get_hr_min (snd r) 100 = Ok (hr_min_of (snd r)).
Proof.
  destruct (fit_unit_rows _ _ _ _ _ Hrun)
    as [p [rest [unit_fit [-> [Hmeta Hfit]]]]].
  unfold PolyFits.set_meta in Hmeta.
  destruct (set_meta_rows _ _ _ _ Hmeta) as [vals [Hvals ->]].
  intros r Hr. apply in_map_iff in Hr. destruct Hr as [r0 [<- Hr0]].
  cbn [snd].
  assert (Hok : series_ok
                  (fold_left
                     (fun s cv => PolyFits.cells_set s (fst cv) (snd cv))
                     vals (snd r0)) = true).
  { apply cells_set_all_ok; [now rewrite Hvals|].
    destruct (Hfit r0 Hr0) as [load [hr [s [Hs ->]]]].
    apply (fit_cells_ok s points).
    destruct (extract_fit_fit_row polyfit load hr order points)
      as [st [lo [hi [E _]]]].
    rewrite E in Hs. eapply fit_row_labels; eassumption. }
  split; [exact Hok|]. now apply get_hr_min_total.
Qed.

(** The two rows of the unit with two regimes. *)
Lemma fit_unit_rows_read_witness :
  exists rows,
    snd (PolyFits.fit_unit polyfit_exact 4 two_regimes 5) = Ok rows /\
    forall r, In r rows ->
      series_ok (snd r) = true /\
      FitFilter._get_hr_min (snd r) 100 = Ok (hr_min_of (snd r)).
Proof.
  eexists. split; [vm_compute; reflexivity|].
  apply (fit_unit_rows_read polyfit_exact 4 5 two_regimes _ ltac:(lia)
           ltac:(vm_compute; reflexivity)).
Defined.

(** ** A unit of noise *)

Lemma series_loc_cells_set_other (s : Series) (k c : string) (v : cell) :
  k <> c ->
  series_loc (PolyFits.cells_set s k v) c = series_loc s c.
Proof.
  intros Hne. induction s as [|[k' v'] s IH]; cbn [PolyFits.cells_set series_loc].
  - destruct (String.eqb k c) eqn:E; [|reflexivity].
    apply String.eqb_eq in E. contradiction.
  - destruct (String.eqb k' k) eqn:E; cbn [series_loc].
    + apply String.eqb_eq in E. subst k'.
      destruct (String.eqb k c) eqn:E'; [|reflexivity].
      apply String.eqb_eq in E'. contradiction.
    + now rewrite IH.
Qed.

Lemma series_loc_cells_set_all (vals : list (string * cell)) (s : Series)
    (c : string) :
  ~ In c (map fst vals) ->
  series_loc (fold_left (fun s cv => PolyFits.cells_set s (fst cv) (snd cv))
                vals s) c
  = series_loc s c.
Proof.
  revert s. induction vals as [|[k v] vals IH]; intros s Hc; [reflexivity|].
  cbn [fold_left fst snd]. rewrite IH by (intros H; apply Hc; now right).
  apply series_loc_cells_set_other. intros ->. apply Hc. now left.
Qed.

Lemma series_loc_floats (s : FSeries) (c : string) (v : fval) :
  series_get s c = Some v ->
  series_loc (map (fun kv => (fst kv, CFloat (snd kv))) s) c = Ok (CFloat v).
Proof.
  induction s as [|[k' v'] s IH]; [discriminate|].
  cbn [series_get map series_loc fst snd].
  destruct (String.eqb k' c); [congruence|exact IH].
Qed.

Lemma series_loc_ok_in (s : Series) (k : string) (v : cell) :
  series_loc s k = Ok v -> In (k, v) s.
Proof.
  induction s as [|[k' v'] s IH]; [discriminate|]. cbn [series_loc].
  destruct (String.eqb k' k) eqn:E.
  - intros H. apply Ok_inj in H. apply String.eqb_eq in E. subst. now left.
  - intros H. right. now apply IH.
Qed.

Lemma clusters_none (u : PolyFits.unit_df) :
  (forall q, In q u -> PolyFits.cluster q < 0) ->
  PolyFits.clusters u = [] /\
  List.filter (fun q => 0 <=? PolyFits.cluster q) u = [].
Proof.
  intros H. split.
  - destruct (PolyFits.clusters u) as [|l ls] eqn:E; [reflexivity|exfalso].
    assert (Hin : In l (PolyFits.clusters u)) by (rewrite E; now left).
    apply (proj1 (clusters_spec u)) in Hin. destruct Hin as [H0 [q [Hq Hl]]].
    specialize (H q Hq). lia.
  - induction u as [|q u IH]; [reflexivity|]. cbn [List.filter].
    pose proof (H q (or_introl eq_refl)) as Hq.
    destruct (0 <=? PolyFits.cluster q) eqn:E; [lia|].
    apply IH. intros q' Hq'. apply H. now right.
Qed.

(** X11.  A unit whose points are all noise (no label from 0 on) is not
    fit: [np.polyfit] is not called and nothing is logged, and the unit
    gets one row, named [unit_id], whose coefficients are missing.
    [FitFilter] neither counts it as a fit, [a0] being missing, nor takes
    a minimum heat rate from it. *)
Theorem fit_unit_noise_only (polyfit : polyfit_fn) (order points : Z)
    (p : PolyFits.point) (rest : PolyFits.unit_df)
    (Hpoints : 1 <= points)
    (Hnoise : forall q, In q (p :: rest) -> PolyFits.cluster q < 0) :
  fst (PolyFits.fit_unit polyfit order (p :: rest) points) = [] /\
  forall rows,
    snd (PolyFits.fit_unit polyfit order (p :: rest) points) = Ok rows ->
    exists row,
      rows = [(PolyFits.unit_id p, row)] /\
      (forall a, In a PolyFit.coef_index -> series_loc row a = Ok missing) /\
      FitFilter._get_hr_min row 100 = Ok None.
Proof.
  destruct (clusters_none _ Hnoise) as [Hc Hf].
  unfold PolyFits.fit_unit. rewrite Hc, Hf. cbn [length Nat.ltb Nat.leb].
  unfold PolyFits.cluster_fit. cbn [map PolyFits.sort_points fold_right].
  rewrite extract_fit_empty.
  destruct (fit_row_no_fit [] points NaN NaN Hpoints)
    as [s [Hs [_ [_ Hnan]]]].
  rewrite Hs. cbn [bind]. unfold tbind. cbn [fst snd tret app].
  split; [reflexivity|].
  intros rows Hrows. unfold PolyFits.set_meta in Hrows.
  destruct (set_meta_rows _ _ _ _ Hrows) as [vals [Hvals ->]].
  cbn [map fst snd]. eexists. split; [reflexivity|].
  assert (Hcoef : forall a, In a PolyFit.coef_index ->
            series_loc
              (fold_left (fun s cv => PolyFits.cells_set s (fst cv) (snd cv))
                 vals (map (fun kv => (fst kv, CFloat (snd kv))) s)) a
            = Ok missing).
  { intros a Ha. rewrite series_loc_cells_set_all.
    - apply series_loc_floats. now apply Hnan.
    - rewrite Hvals. intros Hin. simpl in Ha, Hin.
      repeat (destruct Ha as [<-|Ha];
              [repeat (destruct Hin as [Hin|Hin]; [discriminate|]);
               exact Hin|]).
      exact Ha. }
  split; [exact Hcoef|].
  apply get_hr_min_null. apply existsb_exists.
  exists ("a0", missing). split; [|reflexivity].
  apply series_loc_ok_in. apply Hcoef. simpl. tauto.
Qed.

(** The unit of noise at order 4. *)
Lemma fit_unit_noise_only_witness :
  fst (PolyFits.fit_unit polyfit_exact 4 noise_only 5) = [] /\
  forall rows,
    snd (PolyFits.fit_unit polyfit_exact 4 noise_only 5) = Ok rows ->
    exists row,
      rows = [("7", row)] /\
      (forall a, In a PolyFit.coef_index -> series_loc row a = Ok missing) /\
      FitFilter._get_hr_min row 100 = Ok None.
Proof.
  apply (fit_unit_noise_only polyfit_exact 4 5
           (PolyFits.mkPoint "7" (of_Z 3) (Fin 30) (-1) unit_meta)
           (tl noise_only)); [lia|].
  intros q Hq. simpl in Hq.
  repeat (destruct Hq as [<-|Hq]; [reflexivity|]). elim Hq.
Defined.

(** ** The metadata of a unit *)

Lemma series_loc_cells_set_same (s : Series) (k : string) (v : cell) :
  series_loc (PolyFits.cells_set s k v) k = Ok v.
Proof.
  induction s as [|[k' v'] s IH]; cbn [PolyFits.cells_set series_loc].
  - now rewrite String.eqb_refl.
  - destruct (String.eqb k' k) eqn:E; cbn [series_loc]; now rewrite E.
Qed.

(** [set_meta] writes into every row the cells that the first row of the
    unit holds in the metadata columns. *)
Lemma set_meta_cells (m : Series) (cols : list string)
    (fit fit' : PolyFits.fit_table) :
  NoDup cols ->
  FitFilter.foldM
    (fun unit_fit col =>
       v <- series_loc m col ;;
       Ok (map (fun r => (fst r, PolyFits.cells_set (snd r) col v)) unit_fit))
    cols fit = Ok fit' ->
  forall r col, In r fit' -> In col cols ->
    exists v, series_loc m col = Ok v /\ series_loc (snd r) col = Ok v.
Proof.
  intros Hnd. revert fit. induction Hnd as [|c cols Hc Hnd IH]; intros fit H.
  - intros r col _ [].
  - cbn [FitFilter.foldM] in H.
    destruct (series_loc m c) as [v|] eqn:Ev; [|discriminate].
    cbn [bind] in H. intros r col Hr [<-|Hcol].
    + exists v. split; [exact Ev|].
      destruct (set_meta_rows _ _ _ _ H) as [vals [Hvals ->]].
      apply in_map_iff in Hr. destruct Hr as [r0 [<- Hr0]].
      apply in_map_iff in Hr0. destruct Hr0 as [r1 [<- _]].
      cbn [snd]. rewrite series_loc_cells_set_all by now rewrite Hvals.
      apply series_loc_cells_set_same.
    + exact (IH _ H r col Hr Hcol).
Qed.

Lemma set_meta_needs (m : Series) (cols : list string)
    (fit fit' : PolyFits.fit_table) :
  FitFilter.foldM
    (fun unit_fit col =>
       v <- series_loc m col ;;
       Ok (map (fun r => (fst r, PolyFits.cells_set (snd r) col v)) unit_fit))
    cols fit = Ok fit' ->
  forall col, In col cols -> exists v, series_loc m col = Ok v.
Proof.
  revert fit. induction cols as [|c cols IH]; intros fit H col; [intros []|].
  cbn [FitFilter.foldM] in H.
  destruct (series_loc m c) as [v|] eqn:Ev; [|discriminate].
  cbn [bind] in H. intros [<-|Hcol]; [now exists v|].
  exact (IH _ H col Hcol).
Qed.

(** X12.  [fit_unit] returns rows only for a unit whose table has the eight
    metadata columns, and every row then holds in these columns the cells
    of the first row of the unit, whatever regime the row stands for. *)
Theorem fit_unit_metadata (polyfit : polyfit_fn) (order points : Z)
    (p : PolyFits.point) (rest : PolyFits.unit_df) (rows : PolyFits.fit_table)
    (Hrun : snd (PolyFits.fit_unit polyfit order (p :: rest) points)
            = Ok rows) :
  (forall col, In col PolyFit.META_COLS ->
     exists v, series_loc (PolyFits.meta p) col = Ok v) /\
  forall r col, In r rows -> In col PolyFit.META_COLS ->
    exists v, series_loc (PolyFits.meta p) col = Ok v /\
              series_loc (snd r) col = Ok v.
Proof.
  destruct (fit_unit_rows _ _ _ _ _ Hrun)
    as [p' [rest' [unit_fit [E [Hmeta _]]]]].
  injection E as <- <-. unfold PolyFits.set_meta in Hmeta.
  split.
  - exact (set_meta_needs (PolyFits.meta p) PolyFit.META_COLS unit_fit rows
             Hmeta).
  - assert (Hnd : NoDup PolyFit.META_COLS)
      by (repeat constructor; simpl; intuition discriminate).
    exact (set_meta_cells (PolyFits.meta p) PolyFit.META_COLS unit_fit rows
             Hnd Hmeta).
Qed.

(** The two rows of the unit with two regimes carry its state. *)
Lemma fit_unit_metadata_witness :
  exists rows,
    snd (PolyFits.fit_unit polyfit_exact 4 two_regimes 5) = Ok rows /\
    forall r col, In r rows -> In col PolyFit.META_COLS ->
      exists v, series_loc unit_meta col = Ok v /\
                series_loc (snd r) col = Ok v.
Proof.
  eexists. split; [vm_compute; reflexivity|].
  apply (proj2 (fit_unit_metadata polyfit_exact 4 5
                  (PolyFits.mkPoint "7" (of_Z 3) (Fin 8) 1 unit_meta)
                  (tl two_regimes) _ ltac:(vm_compute; reflexivity))).
Defined.

(** ** PolyFit.fit_group and PolyFit.fit_all: the files written *)

Lemma ends_with_append (suffix a s : string) :
  ends_with suffix s = true -> ends_with suffix (a ++ s) = true.
Proof.
  intros H. induction a as [|c a IH]; [exact H|].
  cbn [append ends_with]. rewrite IH. apply orb_true_r.
Qed.

(** The path that [fit_all] hands to [fit_group] ends in ".csv". *)
Lemma fits_path_csv (out_dir g_type : string) :
  ends_with ".csv" (fits_path out_dir g_type) = true.
Proof.
  assert (H : ends_with ".csv" (g_type ++ "_fits.csv") = true)
    by (apply ends_with_append; reflexivity).
  unfold fits_path, path_join.
  destruct (prefix "/" (g_type ++ "_fits.csv")); [exact H|].
  destruct (String.eqb out_dir "" || ends_with "/" out_dir).
  - now apply ends_with_append.
  - apply ends_with_append. now apply (ends_with_append _ "/").
Qed.

Lemma tbind_raise {E A B : Type} (m : traced E A) (k : A -> traced E B)
    (e : exn) :
  snd m = Raise e -> tbind m k = (fst m, Raise e).
Proof. intros H. unfold tbind. now rewrite H. Qed.

Lemma tbind_ok {E A B : Type} (m : traced E A) (k : A -> traced E B) (a : A) :
  snd m = Ok a -> tbind m k = (fst m ++ fst (k a), snd (k a)).
Proof. intros H. unfold tbind. now rewrite H. Qed.

(** [fit_group] with an output file, from the run without one. *)
Lemma fit_group_out_file (polyfit : polyfit_fn) (order points : Z)
    (group : list (string * PolyFits.unit_df)) (out_file : string) :
  PolyFits.fit_group polyfit order group (Some out_file) points =
  match snd (PolyFits.fit_group polyfit order group None points) with
  | Raise e => PolyFits.fit_group polyfit order group None points
  | Ok group_fits =>
      if String.eqb out_file "" then
        PolyFits.fit_group polyfit order group None points
      else if ends_with ".csv" out_file then
        (fst (PolyFits.fit_group polyfit order group None points)
         ++ [PolyFits.To_csv out_file group_fits], Ok group_fits)
      else if ends_with ".json" out_file then
        (fst (PolyFits.fit_group polyfit order group None points)
         ++ [PolyFits.To_json out_file group_fits], Ok group_fits)
      else
        (fst (PolyFits.fit_group polyfit order group None points),
         Raise ValueError)
  end.
Proof.
  unfold PolyFits.fit_group.
  set (fits := tmapM _ group).
  destruct (snd fits) as [unit_fits|e] eqn:E.
  2:{ rewrite !(tbind_raise fits _ e E). reflexivity. }
  rewrite !(tbind_ok fits _ unit_fits E).
  destruct (pd_concat unit_fits) as [group_fits|e];
    unfold tbind; cbn [fst snd tret app]; [|reflexivity].
  rewrite !app_nil_r.
  destruct out_file as [|c out_file]; cbn [String.eqb fst snd tret];
    [now rewrite app_nil_r|].
  set (f := String c out_file).
  destruct (ends_with ".csv" f); [reflexivity|].
  destruct (ends_with ".json" f); [reflexivity|].
  cbn [fst snd]. now rewrite app_nil_r.
Qed.

(** X13.  [fit_group] saves after fitting.  A group without units raises
    ValueError, the list handed to [pd.concat] being empty.  Otherwise a
    run with an output file fits exactly as the run without one and fails
    where that one fails; when it returns the table, a path ending in
    ".csv" or ".json" adds one write of that table and returns it, an empty
    path writes nothing, and any other path raises ValueError once all
    units are fit, with nothing written and no table returned. *)
Theorem fit_group_saves_after_fitting (polyfit : polyfit_fn)
    (order points : Z) (group : list (string * PolyFits.unit_df)) :
  (forall out_file,
     PolyFits.fit_group polyfit order [] out_file points
     = ([], Raise ValueError)) /\
  (forall out_file,
     PolyFits.fit_group polyfit order group (Some out_file) points =
     match snd (PolyFits.fit_group polyfit order group None points) with
     | Raise e => PolyFits.fit_group polyfit order group None points
     | Ok group_fits =>
         if String.eqb out_file "" then
           PolyFits.fit_group polyfit order group None points
         else if ends_with ".csv" out_file then
           (fst (PolyFits.fit_group polyfit order group None points)
            ++ [PolyFits.To_csv out_file group_fits], Ok group_fits)
         else if ends_with ".json" out_file then
           (fst (PolyFits.fit_group polyfit order group None points)
            ++ [PolyFits.To_json out_file group_fits], Ok group_fits)
         else
           (fst (PolyFits.fit_group polyfit order group None points),
            Raise ValueError)
     end).
Proof.
  split; [intros [f|]; reflexivity|].
  intros out_file. apply fit_group_out_file.
Qed.

(** The fits of a store, group by group. *)
Lemma fit_all_groups (polyfit : polyfit_fn) (order points : Z)
    (store : list (string * list (string * PolyFits.unit_df)))
    (out_dir : string) :
  (forall g, In g store ->
     exists group_fits,
       snd (PolyFits.fit_group polyfit order (snd g) None points)
       = Ok group_fits) ->
  tmapM (fun g =>
           PolyFits.fit_group polyfit order (snd g)
             (Some (path_join out_dir (fst g ++ "_fits.csv"))) points)
        store
  = (flat_map
       (fun g =>
          fst (PolyFits.fit_group polyfit order (snd g) None points)
          ++ [PolyFits.To_csv (fits_path out_dir (fst g))
                (group_fits_of polyfit order (snd g) points)])
       store,
     Ok (map (fun g => group_fits_of polyfit order (snd g) points) store)).
Proof.
  induction store as [|g store IH]; intros H; [reflexivity|].
  cbn [tmapM flat_map map]. fold (fits_path out_dir (fst g)).
  rewrite fit_group_out_file.
  destruct (H g (or_introl eq_refl)) as [group_fits Hg].
  unfold group_fits_of at 1 3. rewrite Hg.
  pose proof (fits_path_csv out_dir (fst g)) as Hcsv.
  destruct (fits_path out_dir (fst g)) as [|c f] eqn:Ep; [discriminate|].
  cbn [String.eqb]. rewrite Hcsv.
  rewrite IH by (intros g' Hg'; apply H; now right).
  unfold tbind. cbn [fst snd tret]. now rewrite app_nil_r.
Qed.

(** X14.  [fit_all] never fails on the file type: the path it builds for a
    group ends in ".csv".  When every group of the store can be fit, it
    returns after fitting the groups in the order of the store, each
    followed by one write of its table to [out_dir/<group type>_fits.csv],
    and nothing else is written. *)
Theorem fit_all_writes_csv (polyfit : polyfit_fn) (order points : Z)
    (store : list (string * list (string * PolyFits.unit_df)))
    (out_dir : string)
    (Hfits : forall g, In g store ->
       exists group_fits,
         snd (PolyFits.fit_group polyfit order (snd g) None points)
         = Ok group_fits) :
  (forall g_type, ends_with ".csv" (fits_path out_dir g_type) = true) /\
  PolyFits.fit_all polyfit order store out_dir points =
  (flat_map
     (fun g =>
        fst (PolyFits.fit_group polyfit order (snd g) None points)
        ++ [PolyFits.To_csv (fits_path out_dir (fst g))
              (group_fits_of polyfit order (snd g) points)])
     store,
   Ok tt).
Proof.
  split; [intros g_type; apply fits_path_csv|].
  unfold PolyFits.fit_all.
  rewrite (fit_all_groups polyfit order points store out_dir Hfits).
  unfold tbind. cbn [fst snd tret]. now rewrite app_nil_r.
Qed.

(** The store with one group, written to "fits". *)
Lemma fit_all_writes_csv_witness :
  PolyFits.fit_all polyfit_exact 4 one_group "fits" 5 =
  (flat_map
     (fun g =>
        fst (PolyFits.fit_group polyfit_exact 4 (snd g) None 5)
        ++ [PolyFits.To_csv (fits_path "fits" (fst g))
              (group_fits_of polyfit_exact 4 (snd g) 5)])
     one_group,
   Ok tt) /\
  fits_path "fits" "CT (NG)" = "fits/CT (NG)_fits.csv".
Proof.
  split; [|reflexivity].
  apply (fit_all_writes_csv polyfit_exact 4 5 one_group "fits").
  intros g [<-|[]]. eexists. vm_compute. reflexivity.
Defined.

(** ** The share of a group that [_min_hr_filter] can reject *)

(** A sum with an entry that is not a number is not a number. *)
Lemma fadd_not_fin_l (x y : fval) :
  (forall q, x <> Fin q) -> forall q, fadd x y <> Fin q.
Proof.
  intros H q. destruct x as [a| | |]; [now elim (H a)| | |];
    destruct y; simpl; discriminate.
Qed.

Lemma fold_fadd_not_fin (l : list fval) (acc : fval) :
  (forall q, acc <> Fin q) -> forall q, fold_left fadd l acc <> Fin q.
Proof.
  revert acc. induction l as [|x l IH]; intros acc H; [exact H|].
  simpl. apply IH. now apply fadd_not_fin_l.
Qed.

Lemma np_sum_not_fin (l : list fval) (acc : fval) :
  (exists x, In x l /\ forall q, x <> Fin q) ->
  forall q, fold_left fadd l acc <> Fin q.
Proof.
  revert acc. induction l as [|y l IH]; intros acc [x [Hin Hx]]; [elim Hin|].
  simpl. destruct Hin as [->|Hin].
  - apply fold_fadd_not_fin. intros q.
    destruct acc, x as [a| | |]; simpl; try discriminate; now elim (Hx a).
  - apply IH. now exists x.
Qed.







Lemma np_mean_not_fin (l : list fval) :
  (exists x, In x l /\ forall q, x <> Fin q) ->
  forall q, FitFilter.np_mean l <> Fin q.
Proof.
  intros H q. unfold FitFilter.np_mean, np_sum.
  pose proof (np_sum_not_fin l (Fin 0) H) as Hs.
  destruct (fold_left fadd l (Fin 0)) as [a| | |]; [now elim (Hs a)| | |];
    unfold of_Z, fdiv; try discriminate;
    destruct (Qltb (inject_Z (Z.of_nat (length l))) 0); discriminate.
Qed.




(** ** The multiplier of [_min_hr_filter] *)

Lemma fvals_fin_dec (l : list fval) :
  (exists qs, l = map Fin qs) \/
  (exists x, In x l /\ forall q, x <> Fin q).
Proof.
  induction l as [|v t IH]; [left; now exists []|].
  destruct v as [q| | |];
    try (right; eexists; split; [now left|discriminate]).
  destruct IH as [[qs ->]|[x [Hin Hx]]].
  - left. now exists (q :: qs).
  - right. exists x. split; [now right|exact Hx].
Qed.

(** The square of the deviation from a mean that is not a number is not a
    number. *)
Lemma deviation_not_fin (x m : fval) :
  (forall q, m <> Fin q) ->
  forall q, fmul (fsub x m) (fsub x m) <> Fin q.
Proof.
  intros Hm q. destruct m as [a| | |]; [now elim (Hm a)| | |];
    destruct x; cbn; discriminate.
Qed.

(** A variance that [np_var] returns as a number is not negative. *)
Lemma np_var_nonneg (l : list fval) (v : Q) :
  FitFilter.np_var l = Fin v -> (0 <= v)%Q.
Proof.
  intros Hv. destruct (fvals_fin_dec l) as [[qs ->]|Hbad].
  - destruct qs as [|q qs]; [discriminate|].
    destruct (np_var_fin (q :: qs) ltac:(discriminate)) as [v' [Hv' Hq]].
    rewrite Hv' in Hv. injection Hv as <-. rewrite Hq. apply Qvar_nonneg.
  - exfalso. pose proof (np_mean_not_fin l Hbad) as Hm.
    unfold FitFilter.np_var in Hv. revert Hv. apply np_mean_not_fin.
    destruct Hbad as [x [Hin _]].
    exists (fmul (fsub x (FitFilter.np_mean l)) (fsub x (FitFilter.np_mean l))).
    split; [|now apply deviation_not_fin].
    apply in_map_iff. now exists x.
Qed.

Lemma lt_sqrt_wider (d k1 k2 v : Q) :
  (0 < k1)%Q -> (k1 <= k2)%Q -> (0 <= v)%Q ->
  FitFilter.lt_sqrt d (- k2) v = true -> FitFilter.lt_sqrt d (- k1) v = true.
Proof.
  intros H1 H12 Hv. unfold FitFilter.lt_sqrt.
  assert (Hn : forall k, (0 < k)%Q -> Qle_bool 0 (- k) = false).
  { intros k Hk. destruct (Qle_bool 0 (- k)) eqn:E; [|reflexivity].
    apply Qle_bool_iff in E. lra. }
  rewrite (Hn k1 H1), (Hn k2) by lra.
  rewrite !andb_true_iff, !Qltb_lt. intros [Hd Hsq]. split; [exact Hd|].
  assert (Hk : (k1 * k1 <= k2 * k2)%Q) by nra.
  assert (Hkv : ((k1 * k1) * v <= (k2 * k2) * v)%Q)
    by (apply Qmult_le_compat_r; assumption).
  setoid_replace (- k1 * - k1 * v)%Q with ((k1 * k1) * v)%Q by ring.
  setoid_replace (- k2 * - k2 * v)%Q with ((k2 * k2) * v)%Q in Hsq by ring.
  lra.
Qed.

(** A value outside the band of the multiplier [k2] is outside the band of
    a smaller positive multiplier [k1]. *)
Lemma outside_wider (x : fval) (k1 k2 : Q) (var mean : fval)
    (t0 t1 : option Q) :
  (0 < k1)%Q -> (k1 <= k2)%Q ->
  (forall v, var = Fin v -> (0 <= v)%Q) ->
  FitFilter.below x
    match t0 with
    | Some t => FitFilter.Hard t
    | None => FitFilter.stat_bound (- k2) var mean
    end
  || FitFilter.above x
       match t1 with
       | Some t => FitFilter.Hard t
       | None => FitFilter.stat_bound k2 var mean
       end = true ->
  FitFilter.below x
    match t0 with
    | Some t => FitFilter.Hard t
    | None => FitFilter.stat_bound (- k1) var mean
    end
  || FitFilter.above x
       match t1 with
       | Some t => FitFilter.Hard t
       | None => FitFilter.stat_bound k1 var mean
       end = true.
Proof.
  intros H1 H12 Hvar. rewrite !orb_true_iff.
  assert (Hb : FitFilter.below x (FitFilter.stat_bound (- k2) var mean) = true
               -> FitFilter.below x (FitFilter.stat_bound (- k1) var mean)
                  = true).
  { unfold FitFilter.stat_bound.
    destruct var as [v| | |], mean as [m| | |]; try discriminate.
    cbn [FitFilter.below]. destruct x as [a| | |]; try tauto.
    apply lt_sqrt_wider; auto. }
  assert (Ha : FitFilter.above x (FitFilter.stat_bound k2 var mean) = true
               -> FitFilter.above x (FitFilter.stat_bound k1 var mean)
                  = true).
  { unfold FitFilter.stat_bound.
    destruct var as [v| | |], mean as [m| | |]; try discriminate.
    cbn [FitFilter.above]. destruct x as [a| | |]; try tauto.
    apply lt_sqrt_wider; auto. }
  destruct t0, t1; tauto.
Qed.

(** X16.  A larger multiplier never rejects more.  For positive
    multipliers [k1 <= k2] and the same hard thresholds, every unit that
    [_min_hr_filter] fails at [k2] fails at [k1] too, whatever the minima
    are. *)
Theorem min_hr_filter_monotone (min_hr : list (cell * fval)) (k1 k2 : Q)
    (threshold : option Q * option Q)
    (H1 : (0 < k1)%Q) (H12 : (k1 <= k2)%Q) :
  forall l, In l (FitFilter._min_hr_filter min_hr k2 threshold) ->
            In l (FitFilter._min_hr_filter min_hr k1 threshold).
Proof.
  intros l. unfold FitFilter._min_hr_filter.
  destruct threshold as [t0 t1]. cbn [fst snd].
  set (vals := match t1 with
               | Some t => List.filter (fun v => flt v (Fin t)) _
               | None => _
               end).
  rewrite !in_map_iff. intros [[l' x] [El Hin]]. exists (l', x).
  split; [exact El|]. apply filter_In in Hin. apply filter_In.
  destruct Hin as [Hin Hout]. split; [exact Hin|]. cbn [snd] in *.
  eapply outside_wider; [exact H1|exact H12| |exact Hout].
  intros v Hv. eapply np_var_nonneg. exact Hv.
Qed.

(** Minima 6, 6, 30 and 30 with the upper edge at 20: the unit "c" fails
    at the multiplier 2, and so at 1/2. *)
Lemma min_hr_filter_monotone_witness :
  In (CStr "c")
     (FitFilter._min_hr_filter (as_floats four_minima) (1 # 2)
        (None, Some 20%Q)).
Proof.
  apply (min_hr_filter_monotone (as_floats four_minima) (1 # 2) 2
           (None, Some 20%Q)).
  - reflexivity.
  - vm_compute. discriminate.
  - vm_compute. now left.
Defined.

(** ** FitFilter: the population of minima *)

Lemma get_hr_min_floor (unit : Series) (points : Z) (m : fval) :
  FitFilter._get_hr_min unit points = Ok (Some m) ->
  flt m (Fin (9 # 2)) = false.
Proof.
  unfold FitFilter._get_hr_min.
  destruct (negb _); [|discriminate].
  destruct (series_loc unit "load_min") as [c0|]; [|discriminate].
  cbn [bind].
  destruct (series_loc unit "load_max") as [c1|]; [|discriminate].
  cbn [bind].
  destruct (as_float c0) as [lo|]; [|discriminate]. cbn [bind].
  destruct (as_float c1) as [hi|]; [|discriminate]. cbn [bind].
  destruct (linspace lo hi points) as [x|]; [|discriminate]. cbn [bind].
  destruct (mapM as_float _) as [coefs|]; [|discriminate]. cbn [bind].
  destruct (np_min (poly_call coefs x)) as [hr_min|]; [|discriminate].
  cbn [bind]. destruct (flt hr_min (Fin (9 # 2))) eqn:E; [discriminate|].
  intros H. apply Ok_inj in H. injection H as <-. exact E.
Qed.

Lemma mapM_in {A B : Type} (f : A -> result B) (l : list A) (bs : list B) :
  mapM f l = Ok bs -> forall b, In b bs -> exists a, In a l /\ f a = Ok b.
Proof.
  revert bs. induction l as [|a l IH]; intros bs H b Hb.
  - apply Ok_inj in H. subst bs. elim Hb.
  - cbn [mapM] in H. destruct (f a) as [b0|] eqn:E; [|discriminate].
    cbn [bind] in H. destruct (mapM f l) as [bs0|]; [|discriminate].
    cbn [bind] in H. apply Ok_inj in H. subst bs.
    destruct Hb as [<-|Hb].
    + exists a. split; [now left|exact E].
    + destruct (IH bs0 eq_refl b Hb) as [a' [Ha' Hf]].
      exists a'. split; [now right|exact Hf].
Qed.

Lemma dropna_in (s : list (cell * option fval)) (l : cell) (v : fval) :
  In (l, v) (dropna s) -> In (l, Some v) s.
Proof.
  induction s as [|[l' [v'|]] s IH]; cbn [dropna]; [intros []| |].
  - destruct (isnan v').
    + intros H. right. now apply IH.
    + intros [H|H]; [left; congruence|right; now apply IH].
  - intros H. right. now apply IH.
Qed.

(** X17.  The minima that enter the statistics of a rejection, those of the
    rows in [_filter] and those of the CC units in [_filer_CCs], are never
    NaN and never below 4.5. *)
Theorem population_floor (ix : Indexed) (mins : list (cell * option fval))
    (Happly : apply_rows (fun unit => FitFilter._get_hr_min unit 100) ix
              = Ok mins) :
  (forall l v, In (l, v) (dropna mins) ->
     isnan v = false /\ flt v (Fin (9 # 2)) = false) /\
  (forall k m, In (k, m) (FitFilter.groupby_min (dropna mins)) ->
     isnan m = false /\ flt m (Fin (9 # 2)) = false).
Proof.
  assert (Hrows : forall l v, In (l, v) (dropna mins) ->
            isnan v = false /\ flt v (Fin (9 # 2)) = false).
  { intros l v Hin. split; [eapply dropna_not_nan; eassumption|].
    apply dropna_in in Hin. unfold apply_rows in Happly.
    destruct (mapM_in _ _ _ Happly _ Hin) as [r [_ Hr]].
    destruct (FitFilter._get_hr_min (combine (icolumns ix) (snd r)) 100)
      as [o|] eqn:E; [|discriminate].
    cbn [bind] in Hr. apply Ok_inj in Hr. injection Hr as _ ->.
    eapply get_hr_min_floor; eassumption. }
  split; [exact Hrows|].
  intros k m Hin.
  destruct (proj1 (groupby_min_representative mins) k m Hin)
    as [v [vs [Hvs [_ [Hm _]]]]].
  rewrite <- Hvs in Hm. apply in_map_iff in Hm.
  destruct Hm as [[l x] [Hx Hl]]. cbn [snd] in Hx. subst x.
  apply filter_In in Hl. destruct Hl as [Hl _]. eapply Hrows; eassumption.
Qed.

(** The ten units of the example table. *)
Lemma population_floor_witness :
  (forall l v,
     In (l, v) (dropna (row_minima (unit_indexed ten_units 0))) ->
     isnan v = false /\ flt v (Fin (9 # 2)) = false) /\
  (forall k m,
     In (k, m) (FitFilter.groupby_min
                  (dropna (row_minima (unit_indexed ten_units 0)))) ->
     isnan m = false /\ flt m (Fin (9 # 2)) = false).
Proof.
  apply (population_floor (unit_indexed ten_units 0)).
  vm_compute. reflexivity.
Defined.

(** ** FitFilter: keyword arguments *)

Lemma filter_cut_off (df : DataFrame) (s : option Q)
    (t : option (option Q * option Q)) (c : Q) (df' : DataFrame) :
  FitFilter._filter df (FitFilter.mkKw s t None) = Ok df' ->
  FitFilter._filter df (FitFilter.mkKw s t (Some c)) = Raise TypeError.
Proof.
  unfold FitFilter._filter.
  destruct (set_index df "unit_id") as [ix|]; [|discriminate]. cbn [bind].
  destruct (apply_rows _ ix); [|discriminate]. reflexivity.
Qed.

Lemma filer_CCs_threshold (df : DataFrame) (s c : option Q)
    (t : option Q * option Q) (df' : DataFrame) :
  FitFilter._filer_CCs df (FitFilter.mkKw s None c) = Ok df' ->
  FitFilter._filer_CCs df (FitFilter.mkKw s (Some t) c) = Raise TypeError.
Proof.
  unfold FitFilter._filer_CCs.
  destruct (get_column df "unit_id") as [ids|]; [|discriminate]. cbn [bind].
  destruct (mapM FitFilter.cc_id_of ids) as [cc|]; [|discriminate].
  cbn [bind].
  destruct (set_index _ "cc_id") as [ix|]; [|discriminate]. cbn [bind].
  destruct (apply_rows _ ix); [|discriminate]. reflexivity.
Qed.

(** X18.  The two rejection paths accept different keywords.  On a fit
    table, [_filter] raises TypeError when [cut_off] is given, whatever its
    value, and [_filer_CCs] raises TypeError when [threshold] is given:
    [FitFilter.filter] hands the same keywords to both, so that only
    [stdev_multiplier] can be set for a store that holds both kinds of group
    above [min_units]. *)
Theorem rejection_keywords (df : DataFrame) (kw : FitFilter.kwargs)
    (Hok : fit_table_ok df = true) :
  (forall c, FitFilter.kw_cut_off kw = Some c ->
     FitFilter._filter df kw = Raise TypeError) /\
  (forall t, FitFilter.kw_threshold kw = Some t -> cc_table_ok df = true ->
     FitFilter._filer_CCs df kw = Raise TypeError).
Proof.
  destruct kw as [s t c]. cbn [FitFilter.kw_cut_off FitFilter.kw_threshold].
  split.
  - intros c0 ->.
    destruct (filter_steps df (FitFilter.mkKw s t None) Hok eq_refl)
      as [p [_ Hf]].
    eapply filter_cut_off. exact Hf.
  - intros t0 -> Hcc.
    destruct (filer_CCs_steps df (FitFilter.mkKw s None c) Hcc eq_refl)
      as [p [_ [_ Hf]]].
    eapply filer_CCs_threshold. exact Hf.
Qed.

(** The table of ten units with a cut-off. *)
Lemma rejection_keywords_witness :
  FitFilter._filter ten_units (FitFilter.mkKw None None (Some 9%Q))
  = Raise TypeError.
Proof.
  apply (proj1 (rejection_keywords ten_units
                  (FitFilter.mkKw None None (Some 9%Q))
                  ltac:(vm_compute; reflexivity)) 9%Q eq_refl).
Defined.

(** ** FitFilter: what rejection leaves of a table *)

Lemma series_loc_col (cols : list string) (r : list cell) (c : string)
    (v : cell) (p : nat) :
  series_loc (combine cols r) c = Ok v -> col_pos c cols = Some p ->
  nth p r missing = v.
Proof.
  revert r p. induction cols as [|k cols IH]; intros r p; [discriminate|].
  destruct r as [|x r]; [discriminate|].
  cbn [combine series_loc col_pos]. destruct (String.eqb k c).
  - intros H1 H2. apply Ok_inj in H1. injection H2 as <-. exact H1.
  - intros H1 H2. destruct (col_pos c cols) as [n|] eqn:E; [|discriminate].
    injection H2 as <-. cbn [nth]. now apply IH.
Qed.

Lemma col_pos_in (name : string) (cols : list string) :
  In name cols -> exists p, col_pos name cols = Some p.
Proof.
  intros H. apply col_pos_some. apply existsb_exists.
  exists name. split; [exact H|apply String.eqb_refl].
Qed.

Lemma col_pos_is_in (name : string) (cols : list string) (p : nat) :
  col_pos name cols = Some p -> In name cols.
Proof.
  intros H. apply col_pos_nth in H. eapply nth_error_In. exact H.
Qed.

Lemma Some_inj {A : Type} (a b : A) : Some a = Some b -> a = b.
Proof. congruence. Qed.

(** Cells that are cleared or kept leave no more cells that hold a value. *)
Lemma nonnull_count_le (l l' : list cell) :
  length l' = length l ->
  (forall i c, nth_error l i = Some c ->
     exists c', nth_error l' i = Some c' /\ (isnull c' = true \/ c' = c)) ->
  (length (List.filter (fun c => negb (isnull c)) l')
   <= length (List.filter (fun c => negb (isnull c)) l))%nat.
Proof.
  revert l'. induction l as [|c l IH]; intros [|c' l'] Hlen H;
    try discriminate; [apply Nat.le_refl|].
  cbn [List.filter].
  assert (IH' : (length (List.filter (fun c => negb (isnull c)) l')
                 <= length (List.filter (fun c => negb (isnull c)) l))%nat).
  { apply IH; [simpl in Hlen; lia|]. intros i x Hx. exact (H (S i) x Hx). }
  destruct (H 0%nat c eq_refl) as [c0 [E Hc]]. apply Some_inj in E. subst c0.
  destruct Hc as [Hc| ->].
  - rewrite Hc. cbn [negb]. destruct (negb (isnull c)); simpl; lia.
  - destruct (negb (isnull c)); simpl; lia.
Qed.

Lemma frame_effect_fit_units (df df' : DataFrame) (failed : cell -> bool)
    (n : Z) :
  (forall r, In r (rows df) -> length r = length (columns df)) ->
  frame_effect df df' failed -> FitFilter.fit_units df = Ok n ->
  exists n', FitFilter.fit_units df' = Ok n' /\ n' <= n.
Proof.
  intros Hlen [Hrows [Hcols Hcells]]. unfold FitFilter.fit_units, get_column.
  destruct (col_pos "a0" (columns df)) as [p|] eqn:Hp; [|discriminate].
  destruct (col_pos_in "a0" (columns df'))
    as [p' Hp']; [apply Hcols; eapply col_pos_is_in; eassumption|].
  rewrite Hp'. cbn [bind]. intros Hn. apply Ok_inj in Hn. subst n.
  eexists. split; [reflexivity|]. apply inj_le. apply nonnull_count_le.
  - now rewrite !length_map.
  - intros i c Hc. rewrite nth_error_map in Hc.
    destruct (nth_error (rows df) i) as [row|] eqn:Hrow; [|discriminate].
    apply Some_inj in Hc. subst c.
    destruct (Hcells i row Hrow) as [row' [uid [Hrow' [_ Hc]]]].
    specialize (Hc "a0" (col_pos_is_in _ _ _ Hp)).
    rewrite nth_error_map, Hrow'. eexists. split; [reflexivity|].
    assert (Hl : length row = length (columns df))
      by (apply Hlen; eapply nth_error_In; eassumption).
    rewrite (series_loc_pos _ _ _ _ Hp Hl) in Hc.
    destruct (failed uid && FitFilter.is_filter_col "a0").
    + left. now rewrite (series_loc_col _ _ _ _ _ Hc Hp').
    + right. exact (series_loc_col _ _ _ _ _ Hc Hp').
Qed.

(** X19.  Rejection never adds a fit.  The number of units with a fit, the
    count of the rows whose [a0] is not missing that [FitFilter.filter]
    compares with [min_units], is after [_filter] or [_filer_CCs] at most
    what it was before. *)
Theorem rejection_never_adds_fits (df df' : DataFrame) (kw : FitFilter.kwargs)
    (n : Z) (Hok : fit_table_ok df = true)
    (Hrun : FitFilter._filter df kw = Ok df' \/
            (cc_table_ok df = true /\ FitFilter._filer_CCs df kw = Ok df'))
    (Hn : FitFilter.fit_units df = Ok n) :
  exists n', FitFilter.fit_units df' = Ok n' /\ n' <= n.
Proof.
  pose proof (fit_table_rows df Hok) as Hlen.
  destruct Hrun as [Hrun|[Hcc Hrun]].
  - destruct (FitFilter.kw_cut_off kw) as [c|] eqn:Hkw.
    + destruct kw as [s t c0]. cbn in Hkw. subst c0.
      destruct (filter_steps df (FitFilter.mkKw s t None) Hok eq_refl)
        as [p [_ Hf]].
      rewrite (filter_cut_off _ _ _ _ _ Hf) in Hrun. discriminate.
    + destruct (filter_steps df kw Hok Hkw) as [p [Hp Hf]].
      rewrite Hf in Hrun. apply Ok_inj in Hrun. subst df'.
      eapply frame_effect_fit_units;
        [exact Hlen|apply (reset_index_frame df p _ Hp Hlen)|exact Hn].
  - destruct (FitFilter.kw_threshold kw) as [t|] eqn:Hkw.
    + destruct kw as [s t0 c]. cbn in Hkw. subst t0.
      destruct (filer_CCs_steps df (FitFilter.mkKw s None c) Hcc eq_refl)
        as [p [_ [_ Hf]]].
      rewrite (filer_CCs_threshold _ _ _ _ _ Hf) in Hrun. discriminate.
    + destruct (filer_CCs_steps df kw Hcc Hkw) as [p [Hp [_ Hf]]].
      rewrite Hf in Hrun. apply Ok_inj in Hrun. subst df'.
      eapply frame_effect_fit_units;
        [exact Hlen|apply (reset_index_drop_frame df p _ Hp Hlen)|exact Hn].
Qed.

(** The ten units: the unit at heat rate 20 loses its fit. *)
Lemma rejection_never_adds_fits_witness :
  exists df',
    FitFilter._filter ten_units FitFilter.no_kwargs = Ok df' /\
    exists n', FitFilter.fit_units df' = Ok n' /\ n' <= 10.
Proof.
  eexists. split; [vm_compute; reflexivity|].
  apply (rejection_never_adds_fits ten_units _ FitFilter.no_kwargs 10).
  - vm_compute. reflexivity.
  - left. vm_compute. reflexivity.
  - vm_compute. reflexivity.
Defined.





(** ** FitFilter.filter: the two stores *)

Lemma fits_get_set_same (f : FitFilter.Fits) (g : string) (df : DataFrame) :
  FitFilter.fits_get (FitFilter.fits_set f g df) g = Ok df.
Proof.
  induction f as [|[g' d] f IH]; cbn [FitFilter.fits_set FitFilter.fits_get].
  - now rewrite String.eqb_refl.
  - destruct (String.eqb g' g) eqn:E; cbn [FitFilter.fits_get]; rewrite E;
      [reflexivity|exact IH].
Qed.

Lemma fits_get_set_other (f : FitFilter.Fits) (g g' : string)
    (df : DataFrame) :
  g <> g' ->
  FitFilter.fits_get (FitFilter.fits_set f g df) g' = FitFilter.fits_get f g'.
Proof.
  intros Hne.
  induction f as [|[g0 d] f IH]; cbn [FitFilter.fits_set FitFilter.fits_get].
  - destruct (String.eqb g g') eqn:E; [|reflexivity].
    apply String.eqb_eq in E. contradiction.
  - destruct (String.eqb g0 g) eqn:E; cbn [FitFilter.fits_get].
    + apply String.eqb_eq in E. subst g0.
      destruct (String.eqb g g') eqn:E'; [|reflexivity].
      apply String.eqb_eq in E'. contradiction.
    + now rewrite IH.
Qed.

Lemma fits_set_keys (f : FitFilter.Fits) (g : string) (d df : DataFrame) :
  FitFilter.fits_get f g = Ok d ->
  map fst (FitFilter.fits_set f g df) = map fst f.
Proof.
  induction f as [|[g' d'] f IH]; cbn [FitFilter.fits_set FitFilter.fits_get];
    [discriminate|].
  destruct (String.eqb g' g); [reflexivity|].
  intros H. cbn [map fst]. now rewrite IH.
Qed.

(** A turn of the loop writes the table of its group into the output store
    when there is one, and else replaces it in the store it reads. *)
Lemma filter_step_stores (min_units : Z) (kw : FitFilter.kwargs)
    (hr_fits : FitFilter.Fits) (out_fits : option FitFilter.Fits)
    (g : string) (st : FitFilter.Fits * option FitFilter.Fits) :
  FitFilter.filter_step min_units kw (hr_fits, out_fits) g = Ok st ->
  match out_fits with
  | Some out =>
      exists df, st = (hr_fits, Some (FitFilter.fits_set out g df))
  | None => snd st = None /\ map fst (fst st) = map fst hr_fits
  end.
Proof.
  unfold FitFilter.filter_step.
  destruct (FitFilter.fits_get hr_fits g) as [df|] eqn:Hget; [|discriminate].
  cbn [bind]. destruct (FitFilter.fit_units df) as [n|]; [|discriminate].
  cbn [bind]. destruct (min_units <? n).
  - destruct (if contains "CC" g then FitFilter._filer_CCs df kw
              else FitFilter._filter df kw) as [df'|]; [|discriminate].
    cbn [bind]. destruct out_fits as [out|]; intros H; apply Ok_inj in H;
      subst st.
    + now exists df'.
    + split; [reflexivity|]. cbn [fst]. eapply fits_set_keys. exact Hget.
  - destruct out_fits as [out|]; intros H; apply Ok_inj in H; subst st.
    + now exists df.
    + now split.
Qed.

Lemma filter_loop_out (min_units : Z) (kw : FitFilter.kwargs)
    (keys : list string) (hr_fits out hr' : FitFilter.Fits)
    (o' : option FitFilter.Fits) :
  FitFilter.foldM (FitFilter.filter_step min_units kw) keys
    (hr_fits, Some out) = Ok (hr', o') ->
  hr' = hr_fits /\
  exists out', o' = Some out' /\
    (forall g, In g keys -> exists df, FitFilter.fits_get out' g = Ok df) /\
    (forall g, ~ In g keys ->
       FitFilter.fits_get out' g = FitFilter.fits_get out g).
Proof.
  revert out. induction keys as [|g keys IH]; intros out H.
  - apply Ok_inj in H. injection H as <- <-. split; [reflexivity|].
    exists out. split; [reflexivity|]. split; [intros g []|reflexivity].
  - cbn [FitFilter.foldM] in H.
    destruct (FitFilter.filter_step min_units kw (hr_fits, Some out) g)
      as [st|] eqn:E; [|discriminate].
    cbn [bind] in H. destruct (filter_step_stores _ _ _ _ _ _ E) as [df ->].
    destruct (IH _ H) as [-> [out' [-> [Hin Hout]]]].
    split; [reflexivity|]. exists out'. split; [reflexivity|]. split.
    + intros g' [<-|Hg']; [|now apply Hin].
      destruct (in_dec string_dec g keys) as [Hk|Hk]; [now apply Hin|].
      rewrite (Hout g Hk), fits_get_set_same. now exists df.
    + intros g' Hg'. rewrite Hout by (intros Hk; apply Hg'; now right).
      apply fits_get_set_other. intros ->. apply Hg'. now left.
Qed.

Lemma filter_loop_in_place (min_units : Z) (kw : FitFilter.kwargs)
    (keys : list string) (hr_fits hr' : FitFilter.Fits)
    (o' : option FitFilter.Fits) :
  FitFilter.foldM (FitFilter.filter_step min_units kw) keys (hr_fits, None)
  = Ok (hr', o') ->
  o' = None /\ map fst hr' = map fst hr_fits.
Proof.
  revert hr_fits. induction keys as [|g keys IH]; intros hr_fits H.
  - apply Ok_inj in H. injection H as <- <-. now split.
  - cbn [FitFilter.foldM] in H.
    destruct (FitFilter.filter_step min_units kw (hr_fits, None) g)
      as [[hr1 o1]|] eqn:E; [|discriminate].
    cbn [bind] in H.
    destruct (filter_step_stores _ _ _ _ _ _ E) as [Ho Hk].
    cbn [fst snd] in Ho, Hk. subst o1.
    destruct (IH _ H) as [-> Hk']. split; [reflexivity|congruence].
Qed.

(** X21.  [FitFilter.filter] with an output store leaves the store it reads
    as it was, writes a table for every group type of that store, and keeps
    what the output store held under other names.  Without an output store
    the store it reads keeps its group types, in their order. *)
Theorem filter_stores (hr_fits : FitFilter.Fits) (min_units : Z)
    (kw : FitFilter.kwargs) :
  (forall out hr' o',
     FitFilter.filter hr_fits (Some out) min_units kw = Ok (hr', o') ->
     hr' = hr_fits /\
     exists out', o' = Some out' /\
       (forall g, In g (map fst hr_fits) ->
          exists df, FitFilter.fits_get out' g = Ok df) /\
       (forall g, ~ In g (map fst hr_fits) ->
          FitFilter.fits_get out' g = FitFilter.fits_get out g)) /\
  (forall hr' o',
     FitFilter.filter hr_fits None min_units kw = Ok (hr', o') ->
     o' = None /\ map fst hr' = map fst hr_fits).
Proof.
  unfold FitFilter.filter. split.
  - intros out hr' o'. apply filter_loop_out.
  - intros hr' o'. apply filter_loop_in_place.
Qed.

(** ** Units without a minimum *)

Lemma min_hr_filter_labels (min_hr : list (cell * fval)) (k : Q)
    (threshold : option Q * option Q) (l : cell) :
  In l (FitFilter._min_hr_filter min_hr k threshold) ->
  exists v, In (l, v) min_hr.
Proof.
  unfold FitFilter._min_hr_filter. rewrite in_map_iff.
  intros [[l' v] [E Hin]]. cbn [fst] in E. subst l'.
  apply filter_In in Hin. exists v. tauto.
Qed.

(** X22.  [_filter] never clears a unit that has no minimum heat rate.  A
    row without fit, or whose fitted curve goes below 4.5, is left out of
    the statistics and is not tested against the band: when no row of its
    [unit_id] has a minimum, every cell of the row is kept. *)
Theorem filter_keeps_units_without_minimum (df df' : DataFrame)
    (kw : FitFilter.kwargs) (p i : nat) (row : list cell)
    (Hok : fit_table_ok df = true)
    (Hrun : FitFilter._filter df kw = Ok df')
    (Hp : col_pos "unit_id" (columns df) = Some p)
    (Hrow : nth_error (rows df) i = Some row)
    (Hnone : forall uid m,
       In (uid, Some m) (row_minima (unit_indexed df p)) ->
       cell_eqb (nth p row missing) uid = true -> isnan m = true) :
  exists row',
    nth_error (rows df') i = Some row' /\
    forall c, In c (columns df) ->
      series_loc (combine (columns df') row') c
      = series_loc (combine (columns df) row) c.
Proof.
  pose proof (fit_table_rows df Hok) as Hlen.
  destruct (FitFilter.kw_cut_off kw) as [c|] eqn:Hkw.
  { destruct kw as [s t c0]. cbn in Hkw. subst c0.
    destruct (filter_steps df (FitFilter.mkKw s t None) Hok eq_refl)
      as [p0 [_ Hf]].
    rewrite (filter_cut_off _ _ _ _ _ Hf) in Hrun. discriminate. }
  destruct (filter_steps df kw Hok Hkw) as [p0 [Hp0 Hf]].
  rewrite Hp in Hp0. apply Some_inj in Hp0. subst p0.
  rewrite Hf in Hrun. apply Ok_inj in Hrun. subst df'.
  set (failed := FitFilter._min_hr_filter _ _ _).
  destruct (reset_index_frame df p failed Hp Hlen) as [_ [_ Hcells]].
  destruct (Hcells i row Hrow) as [row' [uid [Hrow' [Huid Hc]]]].
  exists row'. split; [exact Hrow'|].
  assert (Hl : length row = length (columns df))
    by (apply Hlen; eapply nth_error_In; eassumption).
  rewrite (series_loc_pos _ _ _ _ Hp Hl) in Huid. apply Ok_inj in Huid.
  subst uid.
  assert (Hnot : existsb (cell_eqb (nth p row missing)) failed = false).
  { destruct (existsb (cell_eqb (nth p row missing)) failed) eqn:E;
      [exfalso|reflexivity].
    apply existsb_exists in E. destruct E as [l [Hin Heq]].
    apply min_hr_filter_labels in Hin. destruct Hin as [v Hin].
    pose proof (dropna_not_nan _ _ _ Hin) as Hv.
    apply dropna_in in Hin. fold (unit_indexed df p) in Hin.
    rewrite (Hnone l v Hin Heq) in Hv. discriminate. }
  intros c Hin. rewrite (Hc c Hin), Hnot. reflexivity.
Qed.

(** The unit at heat rate 3 among two units at 10 and a unit without fit. *)
Lemma filter_keeps_units_without_minimum_witness :
  exists df',
    FitFilter._filter mixed_units FitFilter.no_kwargs = Ok df' /\
    hr_min_of (combine (remove_nth 0 fit_columns)
                 (remove_nth 0 (flat_unit "3_3" 3))) = None /\
    exists row',
      nth_error (rows df') 2 = Some row' /\
      forall c, In c (columns mixed_units) ->
        series_loc (combine (columns df') row') c
        = series_loc (combine (columns mixed_units) (flat_unit "3_3" 3)) c.
Proof.
  eexists. split; [vm_compute; reflexivity|].
  split; [vm_compute; reflexivity|].
  apply (filter_keeps_units_without_minimum mixed_units _
           FitFilter.no_kwargs 0 2 (flat_unit "3_3" 3)).
  - vm_compute. reflexivity.
  - vm_compute. reflexivity.
  - reflexivity.
  - reflexivity.
  - intros uid m Hin. vm_compute in Hin.
    destruct Hin as [H|[H|[H|[H|[]]]]]; try discriminate;
      injection H as <- _; vm_compute; discriminate.
Defined.

(** ** The order of the columns *)

(** X23.  [_filter] returns the columns of the table with [unit_id] moved
    to the front and the others in their order; [_filer_CCs] returns the
    columns as they were, the [cc_id] column it works with being dropped
    again. *)
Theorem rejection_columns (df df' : DataFrame) (kw : FitFilter.kwargs)
    (Hok : fit_table_ok df = true) :
  (FitFilter._filter df kw = Ok df' ->
   exists p, col_pos "unit_id" (columns df) = Some p /\
             columns df' = "unit_id" :: remove_nth p (columns df)) /\
  (cc_table_ok df = true -> FitFilter._filer_CCs df kw = Ok df' ->
   columns df' = columns df).
Proof.
  split.
  - intros Hrun. destruct (FitFilter.kw_cut_off kw) as [c|] eqn:Hkw.
    + destruct kw as [s t c0]. cbn in Hkw. subst c0.
      destruct (filter_steps df (FitFilter.mkKw s t None) Hok eq_refl)
        as [p [_ Hf]].
      rewrite (filter_cut_off _ _ _ _ _ Hf) in Hrun. discriminate.
    + destruct (filter_steps df kw Hok Hkw) as [p [Hp Hf]].
      rewrite Hf in Hrun. apply Ok_inj in Hrun. subst df'.
      exists p. split; [exact Hp|reflexivity].
  - intros Hcc Hrun. destruct (FitFilter.kw_threshold kw) as [t|] eqn:Hkw.
    + destruct kw as [s t0 c]. cbn in Hkw. subst t0.
      destruct (filer_CCs_steps df (FitFilter.mkKw s None c) Hcc eq_refl)
        as [p [_ [_ Hf]]].
      rewrite (filer_CCs_threshold _ _ _ _ _ Hf) in Hrun. discriminate.
    + destruct (filer_CCs_steps df kw Hcc Hkw) as [p [_ [_ Hf]]].
      rewrite Hf in Hrun. apply Ok_inj in Hrun. subst df'. reflexivity.
Qed.

(** The two rows of a CC unit keep their columns. *)
Lemma rejection_columns_witness :
  exists df',
    FitFilter._filer_CCs cc_dash FitFilter.no_kwargs = Ok df' /\
    columns df' = columns cc_dash.
Proof.
  eexists. split; [vm_compute; reflexivity|].
  apply (proj2 (rejection_columns cc_dash _ FitFilter.no_kwargs
                  ltac:(vm_compute; reflexivity))).
  - vm_compute. reflexivity.
  - vm_compute. reflexivity.
Defined.

(** ** FitFilter.filter: group by group *)

Lemma fits_get_in (f : FitFilter.Fits) (g : string) (df : DataFrame) :
  NoDup (map fst f) -> In (g, df) f -> FitFilter.fits_get f g = Ok df.
Proof.
  induction f as [|[g' d] f IH]; [intros _ []|].
  cbn [map fst FitFilter.fits_get]. intros Hnd [E|Hin].
  - injection E as -> ->. now rewrite String.eqb_refl.
  - apply NoDup_cons_iff in Hnd. destruct Hnd as [Hg Hnd].
    destruct (String.eqb g' g) eqn:E.
    + apply String.eqb_eq in E. subst g'. elim Hg.
      apply in_map_iff. now exists (g, df).
    + now apply IH.
Qed.

(** A turn of the loop with an output store. *)
Lemma filter_step_out (min_units : Z) (kw : FitFilter.kwargs)
    (hr_fits out : FitFilter.Fits) (g : string) (df : DataFrame)
    (st : FitFilter.Fits * option FitFilter.Fits) :
  FitFilter.fits_get hr_fits g = Ok df ->
  FitFilter.filter_step min_units kw (hr_fits, Some out) g = Ok st ->
  exists n d',
    FitFilter.fit_units df = Ok n /\
    st = (hr_fits, Some (FitFilter.fits_set out g d')) /\
    (min_units < n ->
     (if contains "CC" g then FitFilter._filer_CCs df kw
      else FitFilter._filter df kw) = Ok d') /\
    (n <= min_units -> d' = df).
Proof.
  intros Hget. unfold FitFilter.filter_step. rewrite Hget. cbn [bind].
  destruct (FitFilter.fit_units df) as [n|]; [|discriminate]. cbn [bind].
  destruct (min_units <? n) eqn:E.
  - destruct (if contains "CC" g then FitFilter._filer_CCs df kw
              else FitFilter._filter df kw) as [d'|]; [|discriminate].
    cbn [bind]. intros H. apply Ok_inj in H. subst st. exists n, d'.
    repeat split; [lia].
  - intros H. apply Ok_inj in H. subst st. exists n, df.
    repeat split. lia.
Qed.

Lemma filter_loop_groups (min_units : Z) (kw : FitFilter.kwargs)
    (hr_fits hr' out' : FitFilter.Fits) (keys : list string) :
  NoDup keys ->
  forall out,
    FitFilter.foldM (FitFilter.filter_step min_units kw) keys
      (hr_fits, Some out) = Ok (hr', Some out') ->
    forall g df, In g keys -> FitFilter.fits_get hr_fits g = Ok df ->
      exists n d',
        FitFilter.fit_units df = Ok n /\
        FitFilter.fits_get out' g = Ok d' /\
        (min_units < n ->
         (if contains "CC" g then FitFilter._filer_CCs df kw
          else FitFilter._filter df kw) = Ok d') /\
        (n <= min_units -> d' = df).
Proof.
  induction 1 as [|k keys Hk Hnd IH]; intros out Hrun g df Hg Hget;
    [elim Hg|].
  cbn [FitFilter.foldM] in Hrun.
  destruct (FitFilter.filter_step min_units kw (hr_fits, Some out) k)
    as [st|] eqn:E; [|discriminate].
  cbn [bind] in Hrun.
  destruct (filter_step_stores _ _ _ _ _ _ E) as [dk Hst]. subst st.
  destruct (string_dec k g) as [->|Hne].
  - destruct (filter_step_out _ _ _ _ _ _ _ Hget E)
      as [n [d' [Hn [Hst [Hfilt Hskip]]]]].
    injection Hst as Hst.
    destruct (filter_loop_out _ _ _ _ _ _ _ Hrun) as [_ [o [Ho [_ Hout]]]].
    apply Some_inj in Ho. subst o.
    exists n, d'. split; [exact Hn|]. split; [|now split].
    rewrite (Hout g Hk), Hst. apply fits_get_set_same.
  - destruct Hg as [Hg|Hg]; [contradiction|].
    exact (IH _ Hrun g df Hg Hget).
Qed.

(** X24.  [FitFilter.filter] with an output store treats every group on
    its own.  For a store with distinct group types, the output store holds
    under each group type: the table as it was when the number of its rows
    with [a0] is at most [min_units], and otherwise the table returned by
    [_filer_CCs] when the name of the group contains "CC" and by [_filter]
    when it does not. *)
Theorem filter_per_group (hr_fits out out' : FitFilter.Fits)
    (hr' : FitFilter.Fits) (min_units : Z) (kw : FitFilter.kwargs)
    (Hkeys : NoDup (map fst hr_fits))
    (Hrun : FitFilter.filter hr_fits (Some out) min_units kw
            = Ok (hr', Some out')) :
  forall g df, In (g, df) hr_fits ->
    exists n d',
      FitFilter.fit_units df = Ok n /\
      FitFilter.fits_get out' g = Ok d' /\
      (min_units < n ->
       (if contains "CC" g then FitFilter._filer_CCs df kw
        else FitFilter._filter df kw) = Ok d') /\
      (n <= min_units -> d' = df).
Proof.
  intros g df Hg. unfold FitFilter.filter in Hrun.
  apply (filter_loop_groups min_units kw hr_fits hr' out' (map fst hr_fits)
           Hkeys out Hrun g df).
  - apply in_map_iff. now exists (g, df).
  - now apply fits_get_in.
Qed.

(** A store with the table of ten units and the two rows of a CC unit, with
    [min_units] 5: the first is filtered, the second copied. *)
Lemma filter_per_group_witness :
  exists out',
    FitFilter.filter [("CT (NG)", ten_units); ("CC (NG)", cc_dash)]
      (Some []) 5 FitFilter.no_kwargs
    = Ok ([("CT (NG)", ten_units); ("CC (NG)", cc_dash)], Some out') /\
    forall g df, In (g, df) [("CT (NG)", ten_units); ("CC (NG)", cc_dash)] ->
      exists n d',
        FitFilter.fit_units df = Ok n /\
        FitFilter.fits_get out' g = Ok d' /\
        (5 < n ->
         (if contains "CC" g then FitFilter._filer_CCs df FitFilter.no_kwargs
          else FitFilter._filter df FitFilter.no_kwargs) = Ok d') /\
        (n <= 5 -> d' = df).
Proof.
  eexists. split; [vm_compute; reflexivity|].
  eapply (filter_per_group [("CT (NG)", ten_units); ("CC (NG)", cc_dash)]
            [] _ [("CT (NG)", ten_units); ("CC (NG)", cc_dash)] 5
            FitFilter.no_kwargs).
  - repeat constructor; simpl; intuition discriminate.
  - vm_compute. reflexivity.
Defined.
